(** * epimysium: storage reader, setup-document editing, RRA task-weight loop

    A shallow embedding of [epimysium/dataman.py] and [epimysium/rra.py].

    Python values are modelled by the Rocq types they denote: [str] by
    [string], Python [float] (IEEE 754 binary64) by the primitive [float],
    a list by [list], a [dict] by [gmap] (or by the list of its items where
    the iteration order is observable).  A call that can raise returns a
    [result]; code that touches the file system or runs the external tool is
    a state transformer over [World] that keeps the state reached when an
    exception is raised.  What the functions print is not modelled; the
    external tool is a function of the world it is started in. *)

From Stdlib Require Import Floats ZArith.
From stdpp Require Import gmap strings list pretty.

Set Warnings "-inexact-float".

Local Open Scope string_scope.
Local Open Scope list_scope.

(** ** Python exceptions and results *)

Inductive exn : Type :=
  | IndexError
  | KeyError
  | AttributeError
  | ValueError
  | TypeError
  | NameError
  | UnboundLocalError
  | IOError
  | Exception (msg : string).

Inductive result (A : Type) : Type :=
  | Return (a : A)
  | Raise (e : exn).
Arguments Return {A} a.
Arguments Raise {A} e.

#[global] Instance result_ret : MRet result := fun _ a => Return a.
#[global] Instance result_bind : MBind result := fun _ _ k m =>
  match m with
  | Return a => k a
  | Raise e => Raise e
  end.

(** [for x in xs: acc = body(acc, x)], stopping at the first exception. *)
Fixpoint for_each {A S} (body : S -> A -> result S) (xs : list A) (acc : S)
  : result S :=
  match xs with
  | [] => Return acc
  | x :: xs' => body acc x ≫= for_each body xs'
  end.

(** A positional argument of a call: Python checks that every required
    parameter received one before the body of the callee runs. *)
Inductive arg (A : Type) : Type :=
  | Given (a : A)
  | Missing.
Arguments Given {A} a.
Arguments Missing {A}.

Definition required {A} (a : arg A) : result A :=
  match a with
  | Given v => Return v
  | Missing => Raise TypeError
  end.

(** A local variable is bound by the first assignment that runs; reading it
    before that raises UnboundLocalError. *)
Definition read_local {A} (v : option A) : result A :=
  match v with
  | Some a => Return a
  | None => Raise UnboundLocalError
  end.

(** ** [str] methods used by the sources *)

Module str.

Definition startswith (s p : string) : bool := String.prefix p s.

(** [s.count(sub) != 0] for a non-empty [sub]: [sub] occurs in [s]. *)
Fixpoint occurs (sub s : string) : bool :=
  String.prefix sub s ||
  match s with
  | EmptyString => false
  | String _ s' => occurs sub s'
  end.

(** The characters [str.strip] and [str.split] treat as blank:
    space, \t, \n, \v, \f, \r. *)
Definition is_space (c : Ascii.ascii) : bool :=
  let n := Ascii.nat_of_ascii c in
  (n =? 32)%nat || ((9 <=? n)%nat && (n <=? 13)%nat).

Fixpoint lstrip (s : string) : string :=
  match s with
  | EmptyString => EmptyString
  | String c s' => if is_space c then lstrip s' else s
  end.

Fixpoint rstrip (s : string) : string :=
  match s with
  | EmptyString => EmptyString
  | String c s' =>
      match rstrip s' with
      | EmptyString => if is_space c then EmptyString else String c EmptyString
      | r => String c r
      end
  end.

Definition strip (s : string) : string := lstrip (rstrip s).

(** [s.replace(old, new)] for a non-empty [old]: the occurrences are found
    left to right and do not overlap; [skip] counts the characters of the
    occurrence just replaced that are still to be passed over. *)
Fixpoint replace_from (old new : string) (skip : nat) (s : string) : string :=
  match s with
  | EmptyString => EmptyString
  | String c s' =>
      match skip with
      | S k => replace_from old new k s'
      | O =>
          if String.prefix old s
          then new +:+ replace_from old new (String.length old - 1) s'
          else String c (replace_from old new 0 s')
      end
  end.

(** With an empty [old], [new] is put before every character and at the
    end. *)
Fixpoint interleave (new s : string) : string :=
  match s with
  | EmptyString => new
  | String c s' => new +:+ String c (interleave new s')
  end.

Definition replace (old new s : string) : string :=
  match old with
  | EmptyString => interleave new s
  | _ => replace_from old new 0 s
  end.

(** [s.split()]: the maximal runs of non-blank characters of [s].
    [cur] is the run being read, in reverse. *)
Fixpoint split_from (cur : list Ascii.ascii) (s : string) : list string :=
  let flush := match cur with
               | [] => []
               | _ => [String.string_of_list_ascii (rev cur)]
               end in
  match s with
  | EmptyString => flush
  | String c s' =>
      if is_space c then flush ++ split_from [] s'
      else split_from (c :: cur) s'
  end.

Definition split (s : string) : list string := split_from [] s.

(** [l.index(x)]: the position of the first element equal to [x]. *)
Fixpoint index (x : string) (l : list string) : result nat :=
  match l with
  | [] => Raise ValueError
  | y :: l' =>
      if String.eqb y x then Return 0%nat
      else i ← index x l'; Return (S i)
  end.

Definition mem (x : string) (l : list string) : bool :=
  existsb (String.eqb x) l.

End str.

(** ** XML documents ([ElementTree] / [lxml.etree])

    An element has a tag, attributes, a text and child elements.  The
    sources address elements by the paths ['.//tag'] (every element below
    the context element, in document order) and ['tag'] (children only).

    Elements are objects shared with the tree they were found in: assigning
    to the text of a found element changes the document.  An element object
    is therefore modelled by its position, the list of child indices that
    leads to it from the root, and an assignment rebuilds the tree at that
    position. *)

Set Warnings "-register-all".

Module etree.

Inductive element : Type :=
  | Element (tag : string) (attrib : list (string * string))
            (text : option string) (children : list element).

Definition tag (e : element) : string :=
  match e with Element t _ _ _ => t end.
Definition attrib (e : element) : list (string * string) :=
  match e with Element _ a _ _ => a end.
Definition text (e : element) : option string :=
  match e with Element _ _ x _ => x end.
Definition children (e : element) : list element :=
  match e with Element _ _ _ cs => cs end.

Definition position : Type := list nat.

Definition has_tag (t : string) (x : position * element) : bool :=
  String.eqb (tag x.2) t.

Definition under (i : nat) (x : position * element) : position * element :=
  (i :: x.1, x.2).

(** The elements below [e] with their positions, in document order. *)
Fixpoint walk (e : element) : list (position * element) :=
  match e with
  | Element _ _ _ cs =>
      (fix go (i : nat) (cs : list element) : list (position * element) :=
         match cs with
         | [] => []
         | c :: cs' => ([i], c) :: map (under i) (walk c) ++ go (S i) cs'
         end) 0%nat cs
  end.

(** The same for a list of siblings, the first of which is child [i]. *)
Fixpoint walk_from (i : nat) (cs : list element) : list (position * element) :=
  match cs with
  | [] => []
  | c :: cs' => ([i], c) :: map (under i) (walk c) ++ walk_from (S i) cs'
  end.

(** [e.findall('.//t')] *)
Definition findall (t : string) (e : element) : list (position * element) :=
  List.filter (has_tag t) (walk e).

(** [e.find('.//t')]: the first match, or Python's [None]. *)
Definition find_below (t : string) (e : element) : option (position * element) :=
  head (findall t e).

(** [e.find('t')]: the first child with tag [t], or Python's [None]. *)
Fixpoint find_from (t : string) (i : nat) (cs : list element)
  : option (position * element) :=
  match cs with
  | [] => None
  | c :: cs' => if String.eqb (tag c) t then Some ([i], c)
                else find_from t (S i) cs'
  end.

Definition find (t : string) (e : element) : option (position * element) :=
  find_from t 0 (children e).

(** The element now at position [p] of the document [e]. *)
Fixpoint get_at (p : position) (e : element) : option element :=
  match p with
  | [] => Some e
  | i :: p' => children e !! i ≫= get_at p'
  end.

(** The document after [f] changed the element at position [p]. *)
Fixpoint alter_at (f : element -> element) (p : position) (e : element) : element :=
  match p with
  | [] => f e
  | i :: p' =>
      match e with
      | Element t a x cs => Element t a x (alter (alter_at f p') i cs)
      end
  end.

(** [x.text = v] for the element object [x] of the document [e]. *)
Definition set_text (v : string) (e : element) : element :=
  match e with Element t a _ cs => Element t a (Some v) cs end.

Definition assign_text (x : position * element) (v : string) (e : element)
  : element :=
  alter_at (set_text v) x.1 e.

(** [e.attrib[k]] *)
Fixpoint lookup_attrib (k : string) (a : list (string * string)) : result string :=
  match a with
  | [] => Raise KeyError
  | (k', v) :: a' => if String.eqb k' k then Return v else lookup_attrib k a'
  end.

(** [xs[0]] *)
Definition first {A} (xs : list A) : result A :=
  match xs with
  | [] => Raise IndexError
  | x :: _ => Return x
  end.

(** [x.attr] where [x] may be [None]. *)
Definition some_object {A} (x : option A) : result A :=
  match x with
  | Some a => Return a
  | None => Raise AttributeError
  end.

End etree.

(** ** [os.path] (the POSIX flavour, [posixpath]) *)

Module os_path.

Definition slash : Ascii.ascii := Ascii.ascii_of_nat 47.

Definition isabs (s : string) : bool := str.startswith s "/".

Fixpoint endswith_slash (s : string) : bool :=
  match s with
  | EmptyString => false
  | String c EmptyString => Ascii.eqb c slash
  | String _ s' => endswith_slash s'
  end.

(** [os.path.join(a, b)] *)
Definition join (a b : string) : string :=
  if str.startswith b "/" then b
  else if String.eqb a "" || endswith_slash a then a +:+ b
  else a +:+ "/" +:+ b.

(** [(p[:i], p[i:])] for [i = p.rfind('/') + 1]. *)
Fixpoint cut (p : string) : string * string :=
  match p with
  | EmptyString => (EmptyString, EmptyString)
  | String c p' =>
      match cut p' with
      | (EmptyString, t) =>
          if Ascii.eqb c slash then (String c EmptyString, p') else (EmptyString, String c t)
      | (h, t) => (String c h, t)
      end
  end.

Fixpoint all_slashes (s : string) : bool :=
  match s with
  | EmptyString => true
  | String c s' => Ascii.eqb c slash && all_slashes s'
  end.

(** [s.rstrip('/')] *)
Fixpoint rstrip_slashes (s : string) : string :=
  match s with
  | EmptyString => EmptyString
  | String c s' =>
      match rstrip_slashes s' with
      | EmptyString => if Ascii.eqb c slash then EmptyString else String c EmptyString
      | r => String c r
      end
  end.

(** [os.path.split(p)] *)
Definition split (p : string) : string * string :=
  let (h, t) := cut p in
  if negb (String.eqb h "") && negb (all_slashes h) then (rstrip_slashes h, t)
  else (h, t).

Definition dirname (p : string) : string := (split p).1.
Definition basename (p : string) : string := (cut p).2.

(** [p.split('/')]; [cur] is the component being read, in reverse. *)
Fixpoint components (cur : list Ascii.ascii) (p : string) : list string :=
  match p with
  | EmptyString => [String.string_of_list_ascii (rev cur)]
  | String c p' =>
      if Ascii.eqb c slash
      then String.string_of_list_ascii (rev cur) :: components [] p'
      else components (c :: cur) p'
  end.

(** The loop of [normpath] over the components; [kept] is [new_comps],
    last component first. *)
Fixpoint collapse (rooted : bool) (kept : list string) (comps : list string)
  : list string :=
  match comps with
  | [] => rev kept
  | comp :: comps' =>
      if String.eqb comp "" || String.eqb comp "." then collapse rooted kept comps'
      else if negb (String.eqb comp "..")
              || (negb rooted && match kept with [] => true | _ => false end)
              || match kept with k :: _ => String.eqb k ".." | [] => false end
      then collapse rooted (comp :: kept) comps'
      else collapse rooted (tail kept) comps'
  end.

Fixpoint join_slash (comps : list string) : string :=
  match comps with
  | [] => EmptyString
  | [c] => c
  | c :: comps' => c +:+ "/" +:+ join_slash comps'
  end.

(** [os.path.normpath(p)] *)
Definition normpath (p : string) : string :=
  if String.eqb p "" then "."
  else
    let initial_slashes : nat :=
      if str.startswith p "/"
      then if str.startswith p "//" && negb (str.startswith p "///") then 2 else 1
      else 0 in
    let comps := collapse (negb (initial_slashes =? 0)%nat) [] (components [] p) in
    let path := match initial_slashes with
                | 0%nat => join_slash comps
                | 1%nat => "/" +:+ join_slash comps
                | _ => "//" +:+ join_slash comps
                end in
    if String.eqb path "" then "." else path.

End os_path.

(** ** What the interpreter and the platform provide

    The conversions between text and floats, regular expressions and the
    external simulation tool are not code of the repository: the model is
    parametric in them. *)

Module py.

Inductive file : Type :=
  | XmlFile (doc : etree.element)
  | TextFile (lines : list string)
  | PdfFile.

(** What the program did to its surroundings, in order. *)
Inductive event : Type :=
  | EvWriteXml (path : string) (doc : etree.element)
  | EvCall (command : list string)
  | EvSavefig (path : string).

Record World : Type := mkWorld {
  files : gmap string file;
  events : list event;
}.

Class Runtime : Type := {
  (** [float(s)]; [None] when it raises ValueError. *)
  float_of_str : string -> option float;
  (** ['%f' % x] and ['%i' % x] *)
  format_f : float -> string;
  format_i : float -> string;
  (** [re.match(pattern, s)] finds a match. *)
  re_match : string -> string -> bool;
  (** The files after the process started by [subprocess.call(command)]
      has ended; it may depend on everything that happened before. *)
  run_process : list string -> World -> gmap string file;
}.

(** Computations that read and change the world and may raise; the world
    reached when an exception is raised is kept. *)
Definition M (A : Type) : Type := World -> result A * World.

Definition ret {A} (a : A) : M A := fun w => (Return a, w).

Definition bind {A B} (m : M A) (k : A -> M B) : M B :=
  fun w => match m w with
           | (Return a, w') => k a w'
           | (Raise e, w') => (Raise e, w')
           end.

Definition lift {A} (r : result A) : M A := fun w => (r, w).

Definition raise {A} (e : exn) : M A := lift (Raise e).

(** [os.path.exists(path)] *)
Definition exists_ (path : string) : M bool :=
  fun w => (Return (bool_decide (is_Some (files w !! path))), w).

(** [open(path, 'r')] and reading the lines. *)
Definition read_lines (path : string) : M (list string) :=
  fun w => match files w !! path with
           | Some (TextFile ls) => (Return ls, w)
           | _ => (Raise IOError, w)
           end.

(** [etree.parse(path)] *)
Definition parse (path : string) : M etree.element :=
  fun w => match files w !! path with
           | Some (XmlFile doc) => (Return doc, w)
           | _ => (Raise IOError, w)
           end.

(** [doc.write(path)] *)
Definition write (doc : etree.element) (path : string) : M unit :=
  fun w => (Return tt,
            mkWorld (<[path := XmlFile doc]> (files w))
                    (events w ++ [EvWriteXml path doc])).

(** [subprocess.call(command, stdout=...)]; the exit status is not used
    by the callers. *)
Definition subprocess_call `{Runtime} (command : list string) : M unit :=
  fun w => (Return tt,
            mkWorld (run_process command w) (events w ++ [EvCall command])).

End py.

#[global] Instance M_ret : MRet py.M := @py.ret.
#[global] Instance M_bind : MBind py.M := fun _ _ k m => py.bind m k.

(** ** [numpy] *)

Module np.

Local Open Scope float_scope.

(** [np.maximum]: the larger of two values, a NaN if either is one. *)
Definition maximum (a b : float) : float :=
  if is_nan a then a else if is_nan b then b else if a <? b then b else a.

(** [np.max(a)] of a one-dimensional array. *)
Definition max (a : list float) : result float :=
  match a with
  | [] => Raise ValueError
  | x :: a' => Return (fold_left maximum a' x)
  end.

(** [np.abs(a)] *)
Definition abs (a : list float) : list float := map PrimFloat.abs a.

(** [NPY_PI] and [np.rad2deg(x) = x * (180 / pi)]. *)
Definition NPY_PI : float := 0x1.921fb54442d18p+1.
Definition rad2deg (x : float) : float := x * (180 / NPY_PI).

(** A structured array with named float fields: [dtype.names] and the
    records.  Every record has one value per name. *)
Record table : Type := mkTable {
  dtype_names : list string;
  records : list (list float);
}.

(** [a[name]]: the column of the field [name]. *)
Definition column (a : table) (name : string) : result (list float) :=
  i ← str.index name (dtype_names a);
  Return (map (fun r => nth i r nan) (records a)).

(** [numpy.lib._iotools]: what [genfromtxt] does with comments and with
    the names of the columns. *)

Definition hash : Ascii.ascii := Ascii.ascii_of_nat 35.

(** [line.split('#')[0]], the part of a line that [LineSplitter] splits. *)
Fixpoint before_comment (line : string) : string :=
  match line with
  | EmptyString => EmptyString
  | String c line' =>
      if Ascii.eqb c hash then EmptyString else String c (before_comment line')
  end.

Fixpoint without_hashes (line : string) : string :=
  match line with
  | EmptyString => EmptyString
  | String c line' =>
      if Ascii.eqb c hash then without_hashes line'
      else String c (without_hashes line')
  end.

(** [''.join(line.split('#')[1:])] for a line that contains [#]. *)
Fixpoint after_comment (line : string) : string :=
  match line with
  | EmptyString => EmptyString
  | String c line' =>
      if Ascii.eqb c hash then without_hashes line' else after_comment line'
  end.

(** The line the names are read from: when it contains the comment
    character, what follows the first one. *)
Definition names_line (first_line : string) : string :=
  if str.occurs "#" first_line then after_comment first_line else first_line.

(** [NameValidator.defaultdeletechars], with the double quote that
    [NameValidator.__init__] adds, and [defaultexcludelist]. *)
Definition deletechars : list Ascii.ascii :=
  String.list_ascii_of_string "~!@#$%^&*()-=+~\|]}[{';: /?.>,<"
    ++ [Ascii.ascii_of_nat 34].

Definition excludelist : list string := ["return"; "file"; "print"].

Definition deleted (c : Ascii.ascii) : bool :=
  existsb (Ascii.eqb c) deletechars.

(** [''.join([c for c in item if c not in deletechars])] *)
Fixpoint delete_chars (item : string) : string :=
  match item with
  | EmptyString => EmptyString
  | String c item' =>
      if deleted c then delete_chars item' else String c (delete_chars item')
  end.

(** ['f%i' % n], the default format of a name. *)
Definition default_name (n : nat) : string := "f" +:+ pretty n.

(** The loop [while item in names: nbempty += 1; item = defaultfmt %
    nbempty]: the value of [nbempty] when it ends.  It ends within
    [len(names) + 1] tests, the bound [fuel] stands for. *)
Fixpoint fresh_default (fuel : nat) (names : list string) (nbempty : nat) : nat :=
  match fuel with
  | O => nbempty
  | S fuel' =>
      if str.mem (default_name nbempty) names
      then fresh_default fuel' names (S nbempty)
      else nbempty
  end.

(** The loop of [NameValidator.validate] over the names that are left;
    [seen] counts the validated names met so far. *)
Fixpoint validate_from (names : list string) (seen : gmap string nat)
    (nbempty : nat) (items : list string) : list string :=
  match items with
  | [] => []
  | item :: items' =>
      let item := str.strip item in
      let item := str.replace " " "_" item in
      let item := delete_chars item in
      let '(item, nbempty) :=
        if String.eqb item "" then
          let n := fresh_default (S (length names)) names nbempty in
          (default_name n, S n)
        else if str.mem item excludelist then (item +:+ "_", nbempty)
        else (item, nbempty) in
      let cnt := default 0%nat (seen !! item) in
      (if (0 <? cnt)%nat then item +:+ "_" +:+ pretty cnt else item)
        :: validate_from names (<[item := S cnt]> seen) nbempty items'
  end.

(** [NameValidator().validate(names, defaultfmt='f%i')] *)
Definition validate_names (names : list string) : list string :=
  validate_from names ∅ 0 names.

(** No two names are equal: [np.dtype] accepts them as field names. *)
Fixpoint distinct (names : list string) : bool :=
  match names with
  | [] => true
  | name :: names' => negb (str.mem name names') && distinct names'
  end.



Section genfromtxt.
Context `{py.Runtime}.

(** The float converter of [genfromtxt]: a token that [float] rejects
    becomes NaN. *)
Definition convert (token : string) : float :=
  match py.float_of_str token with
  | Some x => x
  | None => nan
  end.

(** The data lines, each cut at the comment character: a line without
    values is skipped, a line with another number of values than there
    are columns is invalid. *)
Fixpoint parse_rows (ncols : nat) (lines : list string)
  : result (list (list float)) :=
  match lines with
  | [] => Return []
  | l :: lines' =>
      let values := str.split (before_comment l) in
      match values with
      | [] => parse_rows ncols lines'
      | _ =>
          rows ← parse_rows ncols lines';
          if (length values =? ncols)%nat
          then Return (map convert values :: rows)
          else Raise ValueError
      end
  end.

(** The first line that has values, read as a line of names, and the
    lines after it. *)
Fixpoint first_values (lines : list string) : option (list string * list string) :=
  match lines with
  | [] => None
  | l :: lines' =>
      match str.split (names_line l) with
      | [] => first_values lines'
      | values => Some (values, lines')
      end
  end.

(** [np.genfromtxt(f, names=True, skip_header=n)] with the default
    [dtype=float] and [comments='#']: the first [n] lines are skipped,
    the values of the next line that has any are the names, which
    [easy_dtype] validates and makes the field names of the dtype, and
    every later line is a record of whitespace-delimited floats. *)
Definition genfromtxt (lines : list string) (skip_header : nat) : result table :=
  match first_values (drop skip_header lines) with
  | None => Raise IndexError
  | Some (first, data) =>
      let names := validate_names first in
      if distinct names then
        rows ← parse_rows (length first) data;
        Return (mkTable names rows)
      else Raise ValueError
  end.

End genfromtxt.

End np.

(** ** [epimysium/dataman.py] *)

Module dataman.

Section dataman.
Context `{py.Runtime}.

(** The loop of [storage2numpy] over the lines of the file: the value
    of [line_number_of_line_containing_endheader] when the loop ends,
    [None] while no assignment to it has run.  [i] is the index
    [enumerate] gives the first line of [lines]. *)
Fixpoint scan_header (i : nat) (lines : list string) : option nat :=
  match lines with
  | [] => None
  | line :: lines' =>
      if str.occurs "endheader" line then Some (i + 1)%nat
      else scan_header (S i) lines'
  end.

Definition storage2numpy (storage_file : string) : py.M np.table :=
  lines ← py.read_lines storage_file;
  let line_number_of_line_containing_endheader := scan_header 0 lines in
  skip_header ← py.lift (read_local line_number_of_line_containing_endheader);
  py.lift (np.genfromtxt lines skip_header).

(** The [while 1] loop of [_splitall], run for at most [fuel]
    iterations; [None] when it has not reached a [break] by then. *)
Fixpoint _splitall_loop (fuel : nat) (path : string) (allparts : list string)
  : option (list string) :=
  match fuel with
  | O => None
  | S fuel' =>
      let parts := os_path.split path in
      if String.eqb parts.1 path then Some (parts.1 :: allparts)
      else if String.eqb parts.2 path then Some (parts.2 :: allparts)
      else _splitall_loop fuel' parts.1 (parts.2 :: allparts)
  end.

Definition _splitall (fuel : nat) (path : string) : option (list string) :=
  _splitall_loop fuel path [].

(** The expression [xml.findall('.//%s' % tag)[0].text]. *)
Definition get_field (xml : etree.element) (tag : string)
  : result (option string) :=
  x ← etree.first (etree.findall tag xml);
  Return (etree.text x.2).

(** The statement [xml.findall('.//%s' % tag)[0].text = value]; the
    result is the document after it. *)
Definition set_field (xml : etree.element) (tag : string) (value : string)
  : result etree.element :=
  x ← etree.first (etree.findall tag xml);
  Return (etree.assign_text x value xml).

(** [valid_path], the closure of [copy_cmc_inputs]; [replace] holds the
    items of the dictionary of that name in the order [items()] gives
    them (none for [None]). *)
Definition valid_path (replace : list (string * string))
    (file_containing_path : string) (xml : etree.element) (tag : string)
  : py.M (option string) :=
  path ← py.lift (get_field xml tag);
  match path with
  | None => mret None
  | Some path =>
      if String.eqb (str.lstrip path) "" then mret None else
      found ← py.exists_ path;
      if found : bool then mret (Some path) else
      let path := fold_left (fun p kv => str.replace kv.1 kv.2 p) replace path in
      found ← py.exists_ path;
      if found : bool then mret (Some path) else
      let path := str.replace "\" "/" path in
      found ← py.exists_ path;
      if found : bool then mret (Some path) else
      let path2 := os_path.normpath
        (os_path.join (os_path.split file_containing_path).1 path) in
      found ← py.exists_ path2;
      if found : bool then mret (Some path2) else
      let path2 := os_path.normpath
        (os_path.join (os_path.split file_containing_path).1 (str.lstrip path)) in
      found ← py.exists_ path2;
      if found : bool then mret (Some path2) else
      let path2 := os_path.normpath
        (os_path.join (os_path.split file_containing_path).1 (str.rstrip path)) in
      found ← py.exists_ path2;
      if found : bool then mret (Some path2) else
      py.raise (Exception ("Paths " +:+ path +:+ " and " +:+ path2 +:+ " do not exist."))
  end.

(** [edit_field], the closure of [copy_cmc_inputs] that rewrites a
    reference; [relpath] is [os.path.relpath(_, destination)]. *)
Definition edit_field (old : gmap string (option string))
    (do_not_copy : option (list string)) (kwargs : gmap string string)
    (relpath : string -> string)
    (xml : etree.element) (tag key : string) : result etree.element :=
  match old !! key with
  | None => Raise KeyError
  | Some None => Return xml
  | Some (Some old_key) =>
      if String.eqb old_key "" then Return xml
      else if match do_not_copy with
              | Some l => str.mem key l
              | None => false
              end
      then set_field xml tag (relpath old_key)
      else
        let newvalue := match kwargs !! key with
                        | Some v => v
                        | None => os_path.basename old_key
                        end in
        set_field xml tag newvalue
  end.

End dataman.

End dataman.

(** ** [epimysium/rra.py] *)

Module rra.

(** The objects bound to names at module level in [rra.py] are the
    imported modules, [xml_parser] and the functions.  None of these
    names is bound to a parsed document. *)
Definition module_documents : gmap string etree.element := ∅.

(** Reading a name that is not local to the function that reads it. *)
Definition global (name : string) : result etree.element :=
  match module_documents !! name with
  | Some doc => Return doc
  | None => Raise NameError
  end.

(** [a[i]] for a one-dimensional array. *)
Definition item (a : list float) (i : nat) : result float :=
  match a !! i with
  | Some x => Return x
  | None => Raise IndexError
  end.

Section rra.
Context `{py.Runtime}.

Local Open Scope float_scope.

(** [float(x)] for [x] a text or [None]. *)
Definition float_ (x : option string) : result float :=
  match x with
  | None => Raise TypeError
  | Some s => match py.float_of_str s with
              | Some v => Return v
              | None => Raise ValueError
              end
  end.

(** The body of the loop of [write_task_weights_to_file] over the
    tasks below the element at [base].  Only texts are assigned, so
    the attributes and the children of [task] are those it had when
    [findall] returned it. *)
Definition write_task (task_weights : list float) (task_names : list string)
    (format_str : float -> string) (base : etree.position)
    (cmcts : etree.element) (task : etree.position * etree.element)
  : result etree.element :=
  name ← etree.lookup_attrib "name" (etree.attrib task.2);
  if str.mem name task_names then
    itask ← str.index name task_names;
    w ← item task_weights itask;
    weight ← etree.some_object (etree.find "weight" task.2);
    Return (etree.alter_at (etree.set_text (format_str w))
                           (base ++ task.1 ++ weight.1) cmcts)
  else Return cmcts.

Definition write_task_weights_to_file (task_weights : list float)
    (tasks_fpath : string) (task_names : list string) (do_round : bool)
  : py.M unit :=
  cmcts ← py.parse tasks_fpath;
  let format_str := if do_round then py.format_i else py.format_f in
  objects ← py.lift (etree.some_object (etree.find_below "objects" cmcts));
  cmcts ← py.lift (for_each
             (write_task task_weights task_names format_str objects.1)
             (etree.findall "CMC_Joint" objects.2) cmcts);
  py.write cmcts tasks_fpath.

(** One step of the first loop of [task_weights_from_file]. *)
Definition read_task (file_weights : gmap string float)
    (task : etree.position * etree.element) : result (gmap string float) :=
  weight ← etree.some_object (etree.find "weight" task.2);
  w ← float_ (etree.text weight.2);
  name ← etree.lookup_attrib "name" (etree.attrib task.2);
  Return (<[name := w]> file_weights).

(** One step of its second loop; [array_weights] is filled from the
    left. *)
Definition fill_weight (file_weights : gmap string float)
    (array_weights : list float) (name : string) : result (list float) :=
  match file_weights !! name with
  | Some w => Return (array_weights ++ [w])
  | None => Raise KeyError
  end.

Definition task_weights_from_file (fpath : string)
    (task_names : arg (list string)) : py.M (list float) :=
  task_names ← py.lift (required task_names);
  cmcts ← py.parse fpath;
  file_weights ← py.lift (for_each read_task (etree.findall "CMC_Joint" cmcts) ∅);
  py.lift (for_each (fill_weight file_weights) task_names []).

Definition all_task_names (tasks_fpath : string) : py.M (list string) :=
  let task_names := [] in
  cmcts ← py.lift (global "cmcts");
  py.lift (for_each
    (fun task_names task =>
       name ← etree.lookup_attrib "name" (etree.attrib task.2);
       Return (task_names ++ [name]))
    (etree.findall "CMC_Joint" cmcts) task_names).

Definition max_error (pErr : np.table) (task_names : list string)
  : result (float * string) :=
  st ← for_each
    (fun '(maxerr, max_colname) colname =>
       if str.mem colname task_names then
         col ← np.column pErr colname;
         peak ← np.max (np.abs col);
         let this_max_err :=
           if str.startswith colname "pelvis_t" then 100 * peak
           else np.rad2deg peak in
         if maxerr <? this_max_err
         then Return (this_max_err, Some colname)
         else Return (maxerr, max_colname)
       else Return (maxerr, max_colname))
    (np.dtype_names pErr) (neg_infinity, None);
  max_colname ← read_local st.2;
  Return (st.1, max_colname).

Definition min_error (pErr : np.table) (task_names : list string)
  : result (float * string) :=
  st ← for_each
    (fun '(minerr, min_colname) colname =>
       if str.mem colname task_names then
         col ← np.column pErr colname;
         peak ← np.max (np.abs col);
         let this_min_err :=
           if str.startswith colname "pelvis_t" then 100 * peak
           else np.rad2deg peak in
         if this_min_err <? minerr
         then Return (this_min_err, Some colname)
         else Return (minerr, min_colname)
       else Return (minerr, min_colname))
    (np.dtype_names pErr) (infinity, None);
  min_colname ← read_local st.2;
  Return (st.1, min_colname).

(** [l.remove(x)] for an [x] that is in [l]. *)
Fixpoint remove_first (x : string) (l : list string) : list string :=
  match l with
  | [] => []
  | y :: l' => if String.eqb y x then l' else y :: remove_first x l'
  end.

(** The loop that omits tasks by a regular expression.
    [orig_task_names] is the list object [task_names] itself, so the
    loop removes from the list it iterates over: the iterator reads
    the element at index [i] of the list as it is now, until [i] is
    past its end.  [n] bounds the steps left (the length of the list
    when the loop starts). *)
Fixpoint omit_tasks (n : nat) (task_name_regex_omit : string) (i : nat)
    (task_names : list string) : list string :=
  match n with
  | O => task_names
  | S n' =>
      match task_names !! i with
      | None => task_names
      | Some taskn =>
          if py.re_match task_name_regex_omit taskn
          then omit_tasks n' task_name_regex_omit (S i) (remove_first taskn task_names)
          else omit_tasks n' task_name_regex_omit (S i) task_names
      end
  end.

(** What the body of the [for] loop inside the [while] loop does for
    the column [colname]: the weight vector after it. *)
Definition adjust_weight (pErr : np.table) (task_names : list string)
    (min_max_err max_max_err avg_max_err : float)
    (task_weights : list float) (colname : string) : result (list float) :=
  if str.mem colname task_names then
    col ← np.column pErr colname;
    peak ← np.max (np.abs col);
    let this_err :=
      if str.startswith colname "pelvis_t" then 100 * peak
      else np.rad2deg peak in
    if (max_max_err <? this_err) || (this_err <? min_max_err) then
      increment ←
        (if max_max_err <? this_err then Return (this_err - avg_max_err)
         else if this_err <? min_max_err
              then Return (- PrimFloat.abs (avg_max_err - this_err))
              else Raise (Exception "Unexpected error value."));
      i ← str.index colname task_names;
      prev_weight ← item task_weights i;
      let new_weight := prev_weight + 0.5 * increment * prev_weight in
      i ← str.index colname task_names;
      _ ← item task_weights i;
      Return (<[i := new_weight]> task_weights)
    else Return task_weights
  else Return task_weights.

(** Modelled from the spec: [epimysium.postprocessing] is not among the
    sources; an iteration "writes a diagnostic plot file", here at
    [fig_fpath]. *)
Definition savefig (fig_fpath : string) : py.M unit :=
  fun w => (Return tt,
            py.mkWorld (<[fig_fpath := py.PdfFile]> (py.files w))
                       (py.events w ++ [py.EvSavefig fig_fpath])).

(** The state the [while] loop carries from one test of its condition
    to the next. *)
Record loop_state : Type := mkLoop {
  task_weights : list float;
  pErr : np.table;
  maxerr : float;
  minerr : float;
}.

Section loop.
Variables (tasks_fpath pErr_fpath fig_fpath : string).
Variables (task_names rra_command : list string).
Variables (min_max_err max_max_err avg_max_err : float).

(** The condition of the [while] loop. *)
Definition out_of_range (st : loop_state) : bool :=
  (max_max_err <? maxerr st) || (minerr st <? min_max_err).

(** Choose new task weights to get the error where we want it. *)
Definition choose_weights (st : loop_state) : result (list float) :=
  for_each (adjust_weight (pErr st) task_names min_max_err max_max_err avg_max_err)
           (np.dtype_names (pErr st)) (task_weights st).

(** One execution of the body of the [while] loop. *)
Definition loop_body (st : loop_state) : py.M loop_state :=
  task_weights ← py.lift (choose_weights st);
  write_task_weights_to_file task_weights tasks_fpath task_names false;;
  py.subprocess_call rra_command;;
  savefig fig_fpath;;
  task_weights ← task_weights_from_file tasks_fpath Missing;
  pErr ← dataman.storage2numpy pErr_fpath;
  maxerr ← py.lift (max_error pErr task_names);
  minerr ← py.lift (min_error pErr task_names);
  mret (mkLoop task_weights pErr maxerr.1 minerr.1).

(** The [while] loop run for at most [fuel] iterations: [Some tt]
    when its condition was found false, [None] when it still held
    after [fuel] iterations. *)
Fixpoint while_loop (fuel : nat) (st : loop_state) : py.M (option unit) :=
  if out_of_range st then
    match fuel with
    | O => mret None
    | S fuel' => st' ← loop_body st; while_loop fuel' st'
    end
  else mret (Some tt).

End loop.

(** [text.strip()] for a text that may be [None]. *)
Definition strip_text (x : option string) : result string :=
  s ← etree.some_object x; Return (str.strip s).

Definition select_rra_task_weights (fuel : nat) (setup_fpath : string)
    (task_names : option (list string)) (task_name_regex_omit : option string)
    (min_max_err max_max_err : float) (rra_executable : string)
  : py.M (option unit) :=
  rra ← py.parse setup_fpath;
  let setup_dir := os_path.dirname setup_fpath in
  task_setup_path ← py.lift (dataman.get_field rra "task_set_file" ≫= strip_text);
  let tasks_fpath :=
    if negb (os_path.isabs task_setup_path) then task_setup_path
    else os_path.join setup_dir task_setup_path in
  task_names ← match task_names with
               | None => all_task_names tasks_fpath
               | Some l => mret l
               end;
  let task_names :=
    match task_name_regex_omit with
    | Some r => if String.eqb r "" then task_names
                else omit_tasks (length task_names) r 0 task_names
    | None => task_names
    end in
  resdir_name ← py.lift (dataman.get_field rra "results_directory" ≫= strip_text);
  rratool ← py.lift (etree.first (etree.findall "RRATool" rra));
  rratool_name ← py.lift (etree.lookup_attrib "name" (etree.attrib rratool.2));
  let pErr_fname := rratool_name +:+ "_pErr.sto" in
  let pErr_fpath := os_path.join (os_path.join setup_dir "results") pErr_fname in
  let fig_fpath :=
    os_path.join setup_dir "residuals_and_kinematics_error_auto_rra.pdf" in
  let avg_max_err := 0.5 * (min_max_err + max_max_err) in
  let rra_command := [rra_executable; "-S"; setup_fpath] in
  task_weights ← task_weights_from_file tasks_fpath (Given task_names);
  found ← py.exists_ pErr_fpath;
  (if found : bool then mret tt else py.subprocess_call rra_command);;
  pErr ← dataman.storage2numpy pErr_fpath;
  maxerr ← py.lift (max_error pErr task_names);
  minerr ← py.lift (min_error pErr task_names);
  while_loop tasks_fpath pErr_fpath fig_fpath task_names rra_command
             min_max_err max_max_err avg_max_err fuel
             (mkLoop task_weights pErr maxerr.1 minerr.1).

End rra.

End rra.

(** ** A runtime to run the model on examples

    A fragment of the conversions that is exact on the inputs of the
    examples: decimal literals with at most 15 digits, ['%f'] and ['%i'] of
    finite floats, regular expressions that are literal prefixes, and a
    stand-in for the external tool that writes a fixed error file. *)

Module demo.

Local Open Scope float_scope.

Definition digit (c : Ascii.ascii) : option float :=
  match Ascii.nat_of_ascii c with
  | 48%nat => Some 0 | 49%nat => Some 1 | 50%nat => Some 2 | 51%nat => Some 3
  | 52%nat => Some 4 | 53%nat => Some 5 | 54%nat => Some 6 | 55%nat => Some 7
  | 56%nat => Some 8 | 57%nat => Some 9
  | _ => None
  end.

(** [mant / scale] is the number read so far, [n] the number of its
    digits, [dot] whether the decimal point was passed. *)
Fixpoint decimal (mant scale : float) (n : nat) (dot : bool) (s : string)
  : option float :=
  match s with
  | EmptyString =>
      if (0 <? n)%nat && (n <=? 15)%nat then Some (mant / scale) else None
  | String c s' =>
      if Ascii.eqb c (Ascii.ascii_of_nat 46) then
        if dot then None else decimal mant scale n true s'
      else
        match digit c with
        | Some d => decimal (mant * 10 + d) (if dot then scale * 10 else scale)
                            (S n) dot s'
        | None => None
        end
  end.

Definition float_of_decimal (s : string) : option float :=
  match s with
  | String c s' =>
      if Ascii.eqb c (Ascii.ascii_of_nat 45)
      then option_map PrimFloat.opp (decimal 0 1 0 false s')
      else decimal 0 1 0 false s
  | EmptyString => None
  end.

(** The literal prefix reading of [re.match]. *)
Definition literal_match (pattern s : string) : bool := String.prefix pattern s.

(** [|x| * k] as a fraction, with the sign of [x]; [None] for an
    infinity or a NaN. *)
Definition scaled (x : float) (k : Z) : option (bool * Z * Z) :=
  match Prim2SF x with
  | S754_zero s => Some (s, 0%Z, 1%Z)
  | S754_finite s m e =>
      if (0 <=? e)%Z then Some (s, (Z.pos m * 2 ^ e * k)%Z, 1%Z)
      else Some (s, (Z.pos m * k)%Z, (2 ^ (- e))%Z)
  | _ => None
  end.

Definition round_half_even (num den : Z) : Z :=
  let q := (num / den)%Z in
  let r := (num mod den)%Z in
  if (2 * r <? den)%Z then q
  else if (den <? 2 * r)%Z then (q + 1)%Z
  else if Z.even q then q else (q + 1)%Z.

Fixpoint zeros (n : nat) : string :=
  match n with
  | O => EmptyString
  | S n' => String (Ascii.ascii_of_nat 48) (zeros n')
  end.

(** ['%f' % x]: six digits after the point, rounded to nearest even. *)
Definition percent_f (x : float) : string :=
  match scaled x 1000000 with
  | Some (s, num, den) =>
      let n := round_half_even num den in
      let frac := pretty (n mod 1000000)%Z in
      (if s : bool then "-" else "")
        +:+ pretty (n / 1000000)%Z +:+ "."
        +:+ zeros (6 - String.length frac) +:+ frac
  | None => if is_nan x then "nan" else if x <? 0 then "-inf" else "inf"
  end.

(** ['%i' % x] for a finite [x]: the integer part. *)
Definition percent_i (x : float) : string :=
  match scaled x 1 with
  | Some (s, num, den) =>
      let n := (num / den)%Z in
      (if (s : bool) && (0 <? n)%Z then "-" else "") +:+ pretty n
  | None => EmptyString
  end.

Definition pErr_lines : list string :=
  ["pErr"; "nRows=2"; "endheader";
   "time pelvis_tx hip_flexion_r";
   "0 0.02 0.001";
   "0.1 -0.01 0.002"].

(** The stand-in for the tool: it leaves its error file in [results]. *)
Definition tool (command : list string) (w : py.World) : gmap string py.file :=
  <["results/rra_pErr.sto" := py.TextFile pErr_lines]> (py.files w).

#[global] Instance runtime : py.Runtime := {|
  py.float_of_str := float_of_decimal;
  py.format_f := percent_f;
  py.format_i := percent_i;
  py.re_match := literal_match;
  py.run_process := tool;
|}.

Definition leaf (tag text : string) : etree.element :=
  etree.Element tag [] (Some text) [].

Definition setup_doc : etree.element :=
  etree.Element "OpenSimDocument" [] None
    [etree.Element "RRATool" [("name", "rra")] None
       [leaf "task_set_file" " tasks.xml ";
        leaf "results_directory" "results"]].

Definition joint (name weight : string) : etree.element :=
  etree.Element "CMC_Joint" [("name", name)] None
    [leaf "on" "true"; leaf "weight" weight].

Definition tasks_doc : etree.element :=
  etree.Element "OpenSimDocument" [] None
    [etree.Element "CMC_TaskSet" [("name", "tasks")] None
       [etree.Element "defaults" [] None [joint "default" "1"];
        etree.Element "objects" [] None
          [joint "pelvis_tx" "10"; joint "hip_flexion_r" "20.5";
           joint "knee_angle_r" "5"]]].

(** A directory with a setup file and its tasks file; the tool has not
    run yet. *)
Definition world : py.World :=
  py.mkWorld
    (<["setup.xml" := py.XmlFile setup_doc]>
       (<["tasks.xml" := py.XmlFile tasks_doc]> ∅)) [].

(** A setup document whose reference was written on another platform. *)
Definition bundle_doc : etree.element :=
  etree.Element "OpenSimDocument" [] None
    [etree.Element "CMCTool" [("name", "cmc")] None
       [leaf "task_set_file" "C:\run\..\tasks.xml ";
        leaf "results_directory" "out"]].

(** The same directory after the tool has run once. *)
Definition ran : py.World := py.mkWorld (tool [] world) [].

(** The error table the stand-in tool leaves, and the state in which the
    loop is entered with the weights of [tasks_doc] for two tracked
    tasks: the error of pelvis_tx is 2.0 (above the range 1.0 to 1.5),
    that of hip_flexion_r about 0.11 (below it). *)
Definition table : np.table :=
  np.mkTable ["time"; "pelvis_tx"; "hip_flexion_r"]
             [[0; 0.02; 0.001]; [0.1; -0.01; 0.002]]%float.

Definition tracked : list string := ["pelvis_tx"; "hip_flexion_r"].

Definition state : rra.loop_state :=
  rra.mkLoop [10; 20.5]%float table 2%float (np.rad2deg 0.002).

Definition command : list string := ["rra"; "-S"; "setup.xml"].
Definition figure : string := "residuals_and_kinematics_error_auto_rra.pdf".

(** A directory with a storage file that has no header. *)
Definition headerless : py.World :=
  py.mkWorld
    (<["broken.sto" := py.TextFile ["time pelvis_tx"; "0 0.02"; "0.1 0.01"]]> ∅) [].

(** An error table with the tilt of the pelvis, an angle: its largest
    absolute value is that of a negative entry, 0.02 radians. *)
Definition tilt_table : np.table :=
  np.mkTable ["time"; "pelvis_tilt"] [[0; 0.01]; [0.1; -0.02]]%float.

(** A directory with a storage file whose column names hold a period and
    a hyphen, as the names of muscle states do. *)
Definition dotted : py.World :=
  py.mkWorld
    (<["dotted.sto" := py.TextFile ["nRows=1"; "endheader";
                                    "time knee.angle hip-flex"; "0 1 2"]]> ∅) [].

End demo.

(** ** The properties in the words of the specification

    Definitions that follow the specification's descriptions, to be
    compared with the functions translated from the sources. *)

Module spec.

Section spec.
Context `{py.Runtime}.

Local Open Scope float_scope.

(** The search order of the bundler for a referenced path: as given,
    with the substitutions applied, with the separators normalized,
    then relative to the directory of the referencing file: as it is,
    left-stripped and right-stripped. *)
Definition candidates (replace : list (string * string))
    (file_containing_path path : string) : list string :=
  let substituted := fold_left (fun p kv => str.replace kv.1 kv.2 p) replace path in
  let normalized := str.replace "\" "/" substituted in
  let dir := (os_path.split file_containing_path).1 in
  [path; substituted; normalized;
   os_path.normpath (os_path.join dir normalized);
   os_path.normpath (os_path.join dir (str.lstrip normalized));
   os_path.normpath (os_path.join dir (str.rstrip normalized))].

(** A line that does not contain the sentinel marker. *)
Definition no_sentinel (line : string) : Prop :=
  str.occurs "endheader" line = false.


Definition exists_in (w : py.World) (path : string) : bool :=
  bool_decide (is_Some (py.files w !! path)).

(** The first path of the list that exists. *)
Definition first_existing (w : py.World) (paths : list string) : option string :=
  List.find (exists_in w) paths.

(** The peak absolute error of a task: the largest absolute value of
    its column, in degrees, or times 100 for a name that starts with
    pelvis_t. *)
Definition peak_error (pErr : np.table) (colname : string) : result float :=
  col ← np.column pErr colname;
  peak ← np.max (np.abs col);
  Return (if str.startswith colname "pelvis_t" then 100 * peak
          else np.rad2deg peak).

(** The errors of the tracked columns, in the order of the columns. *)
Fixpoint tracked_errors (pErr : np.table) (task_names colnames : list string)
  : result (list (string * float)) :=
  match colnames with
  | [] => Return []
  | c :: colnames' =>
      if str.mem c task_names then
        e ← peak_error pErr c;
        rest ← tracked_errors pErr task_names colnames';
        Return ((c, e) :: rest)
      else tracked_errors pErr task_names colnames'
  end.



Definition midpoint (min_max_err max_max_err : float) : float :=
  0.5 * (min_max_err + max_max_err).

Definition above (max_max_err err : float) : bool := max_max_err <? err.
Definition below (min_max_err err : float) : bool := err <? min_max_err.

Definition out_of_range (min_max_err max_max_err err : float) : bool :=
  above max_max_err err || below min_max_err err.

Definition increment (min_max_err max_max_err err : float) : float :=
  if above max_max_err err then err - midpoint min_max_err max_max_err
  else - PrimFloat.abs (midpoint min_max_err max_max_err - err).

Definition new_weight (min_max_err max_max_err err old_weight : float) : float :=
  old_weight + 0.5 * increment min_max_err max_max_err err * old_weight.

(** The weight of a task after an iteration in which its error was
    [err]. *)
Definition adjusted (min_max_err max_max_err err old_weight : float) : float :=
  if out_of_range min_max_err max_max_err err
  then new_weight min_max_err max_max_err err old_weight
  else old_weight.




(** The world an iteration leaves when its weight file was written in
    [w]: the tool has run once on it and the plot was saved. *)
Definition after_tool_and_plot (rra_command : list string) (fig_fpath : string)
    (w : py.World) : py.World :=
  (rra.savefig fig_fpath (py.subprocess_call rra_command w).2).2.

End spec.

End spec.

(** ** What a loop leaves, described on its data *)

Module described.

Section described.
Context `{py.Runtime}.

(** What the omission loop leaves of a list of distinct names: a name
    that matches is dropped, and the name that follows a dropped name is
    kept without being tested. *)
Fixpoint after_omission (task_name_regex_omit : string) (task_names : list string)
  : list string :=
  match task_names with
  | [] => []
  | taskn :: rest =>
      if py.re_match task_name_regex_omit taskn then
        match rest with
        | [] => []
        | next :: rest' => next :: after_omission task_name_regex_omit rest'
        end
      else taskn :: after_omission task_name_regex_omit rest
  end.

End described.

End described.
(** * Theorems *)

(** ** The library functions on examples *)

Example split_ex : str.split "  time   pelvis_tx	hip " = ["time"; "pelvis_tx"; "hip"].
Proof. reflexivity. Qed.
Example replace_ex : str.replace "\" "/" "a\b\\c" = "a/b//c".
Proof. reflexivity. Qed.
Example replace_ex2 : str.replace "aa" "b" "aaaaa" = "bba".
Proof. reflexivity. Qed.
Example strip_ex : str.strip "  a b  " = "a b".
Proof. reflexivity. Qed.
Example walk_ex :
  map fst (etree.walk
    (etree.Element "r" [] None
       [etree.Element "a" [] None [etree.Element "b" [] None []];
        etree.Element "c" [] None []]))
  = [[0]; [0; 0]; [1]]%nat.
Proof. reflexivity. Qed.
Example split_path_ex : os_path.split "/a/b//c.xml" = ("/a/b", "c.xml").
Proof. reflexivity. Qed.
Example split_root_ex : os_path.split "/c.xml" = ("/", "c.xml").
Proof. reflexivity. Qed.
Example normpath_ex : os_path.normpath "a/./b/../../../c//d/" = "../c/d".
Proof. reflexivity. Qed.
Example normpath_root_ex : os_path.normpath "/../a" = "/a".
Proof. reflexivity. Qed.
Example join_ex : os_path.join "run" "tasks.xml" = "run/tasks.xml".
Proof. reflexivity. Qed.

(** ** The storage-file reader *)

Section storage_reader.
Context `{py.Runtime}.

Implicit Types (lines pre data : list string) (w : py.World).


Lemma scan_header_absent lines i :
  Forall spec.no_sentinel lines → dataman.scan_header i lines = None.
Proof.
  intros Hl. revert i.
  induction Hl as [|l lines Hl _ IH]; intros i; cbn [dataman.scan_header].
  - reflexivity.
  - rewrite Hl. apply IH.
Qed.















(** C7, as the code has it: when no line of the file contains
    'endheader', storage2numpy reads the file to its end and then raises
    UnboundLocalError; it returns no table. *)
Theorem storage2numpy_without_sentinel storage_file w lines :
  py.files w !! storage_file = Some (py.TextFile lines) →
  Forall spec.no_sentinel lines →
  dataman.storage2numpy storage_file w = (Raise UnboundLocalError, w).
Proof.
  intros Hfile Hlines.
  unfold dataman.storage2numpy, mbind, M_bind, py.bind, py.read_lines, py.lift.
  rewrite Hfile, (scan_header_absent _ _ Hlines). reflexivity.
Qed.

End storage_reader.



(** What the reader returns for that file: the names without the period
    and the hyphen; the names of the file are no columns. *)
Example storage2numpy_dotted_names :
  let t := np.mkTable ["time"; "kneeangle"; "hipflex"] [[0; 1; 2]%float] in
  dataman.storage2numpy "dotted.sto" demo.dotted = (Return t, demo.dotted)
  ∧ np.column t "kneeangle" = Return [1%float]
  ∧ np.column t "knee.angle" = Raise ValueError.
Proof. split; [vm_compute; reflexivity|]. split; reflexivity. Qed.

(** The validation on names that need it: deleted characters, a
    reserved name, a repeated name, a name of deleted characters only. *)
Example validate_names_ex :
  np.validate_names ["time"; "knee.angle"; "file"; "time"; "time"; "--"; "f0"]
  = ["time"; "kneeangle"; "file_"; "time_1"; "time_2"; "f1"; "f0"].
Proof. reflexivity. Qed.

Lemma storage2numpy_without_sentinel_witness :
  dataman.storage2numpy "broken.sto" demo.headerless
  = (Raise UnboundLocalError, demo.headerless).
Proof.
  apply (storage2numpy_without_sentinel "broken.sto" demo.headerless
           ["time pelvis_tx"; "0 0.02"; "0.1 0.01"]).
  - reflexivity.
  - repeat constructor.
Defined.

(** C7 as stated fails: on a file without the sentinel line the reader
    does not return a (malformed) table without raising. *)
Lemma storage2numpy_silent_counterexample :
  ¬ ∃ t w', dataman.storage2numpy "broken.sto" demo.headerless = (Return t, w').
Proof.
  intros (t & w' & Heq).
  assert (E : (dataman.storage2numpy "broken.sto" demo.headerless).1
              = Raise UnboundLocalError) by (vm_compute; reflexivity).
  rewrite Heq in E. discriminate E.
Qed.

(** ** The bundler's path resolution *)

Section path_resolution.

Implicit Types (w : py.World) (xml : etree.element).

Lemma exists_run w path :
  py.exists_ path w = (Return (spec.exists_in w path), w).
Proof. reflexivity. Qed.

Lemma bind_run {A B} (m : py.M A) (k : A → py.M B) w a w' :
  m w = (Return a, w') → (m ≫= k) w = k a w'.
Proof. intros Hm. unfold mbind, M_bind, py.bind. rewrite Hm. reflexivity. Qed.

Lemma bind_raise {A B} (m : py.M A) (k : A → py.M B) w e w' :
  m w = (Raise e, w') → (m ≫= k) w = (Raise e, w').
Proof. intros Hm. unfold mbind, M_bind, py.bind. rewrite Hm. reflexivity. Qed.

(** C8: for a reference that is present and not blank, valid_path
    returns the first path that exists among, in this order: the path as
    given, the path with the substitutions applied, that path with
    backslashes replaced by slashes, and the last one joined to the
    directory of the referencing file as it is, left-stripped and
    right-stripped; it raises only when none of the six exists. *)
Theorem valid_path_search_order replace file_containing_path xml tag path w :
  dataman.get_field xml tag = Return (Some path) →
  str.lstrip path ≠ "" →
  match spec.first_existing w (spec.candidates replace file_containing_path path) with
  | Some found =>
      dataman.valid_path replace file_containing_path xml tag w
      = (Return (Some found), w)
  | None =>
      Forall (fun p => spec.exists_in w p = false)
             (spec.candidates replace file_containing_path path)
      ∧ ∃ msg, dataman.valid_path replace file_containing_path xml tag w
               = (Raise (Exception msg), w)
  end.
Proof.
  intros Hget Hblank.
  unfold dataman.valid_path.
  rewrite (bind_run _ _ w (Some path) w) by (unfold py.lift; rewrite Hget; reflexivity).
  destruct (String.eqb_spec (str.lstrip path) "") as [E|_]; [contradiction|].
  unfold spec.first_existing, spec.candidates. cbn [List.find].
  repeat (rewrite (bind_run _ _ w _ w (exists_run w _)); cbv beta;
          match goal with
          | |- match (if spec.exists_in w ?p then _ else _) with _ => _ end =>
              destruct (spec.exists_in w p) eqn:?; cbv iota; [reflexivity|]
          end).
  split.
  - repeat constructor; assumption.
  - eexists. reflexivity.
Qed.

End path_resolution.

Lemma valid_path_search_order_witness :
  dataman.valid_path [("C:\", "")] "setup.xml" demo.bundle_doc "task_set_file" demo.world
  = (Return (Some "tasks.xml"), demo.world).
Proof.
  assert (Hblank : str.lstrip "C:\run\..\tasks.xml " ≠ "") by discriminate.
  exact (valid_path_search_order [("C:\", "")] "setup.xml" demo.bundle_doc
           "task_set_file" "C:\run\..\tasks.xml " demo.world eq_refl Hblank).
Defined.

(** ** The setup-document field accessors *)

Section field_accessors.

Implicit Types (e c xml : etree.element) (cs : list etree.element).
Implicit Types (x y : etree.position * etree.element).

Lemma element_nested_ind (P : etree.element → Prop) :
  (∀ t a tx cs, Forall P cs → P (etree.Element t a tx cs)) → ∀ e, P e.
Proof.
  intros HP. fix IH 1. intros [t a tx cs]. apply HP.
  revert cs. fix IHcs 1. intros [|c cs].
  - constructor.
  - constructor; [apply IH | apply IHcs].
Qed.

Lemma walk_children e : etree.walk e = etree.walk_from 0 (etree.children e).
Proof.
  destruct e as [t a tx cs]. cbn [etree.walk etree.children].
  generalize 0%nat. induction cs as [|c cs IH]; intros i; [reflexivity|].
  simpl. f_equal; auto.
Qed.

Lemma walk_set_text v e : etree.walk (etree.set_text v e) = etree.walk e.
Proof. destruct e. reflexivity. Qed.

Lemma tag_set_text v e : etree.tag (etree.set_text v e) = etree.tag e.
Proof. destruct e. reflexivity. Qed.

Lemma tag_alter_below f i p e :
  etree.tag (etree.alter_at f (i :: p) e) = etree.tag e.
Proof. destruct e. reflexivity. Qed.

Lemma children_alter_below f i p e :
  etree.children (etree.alter_at f (i :: p) e)
  = alter (etree.alter_at f p) i (etree.children e).
Proof. destruct e. reflexivity. Qed.

Lemma filter_under t i (l : list (etree.position * etree.element)) :
  List.filter (etree.has_tag t) (map (etree.under i) l)
  = map (etree.under i) (List.filter (etree.has_tag t) l).
Proof.
  induction l as [|y l IH]; [reflexivity|].
  cbn [map List.filter]. change (etree.has_tag t (etree.under i y)) with (etree.has_tag t y).
  destruct (etree.has_tag t y); cbn [map]; rewrite IH; reflexivity.
Qed.

(** Assigning the text of the first match leaves every match where it
    is and changes the text of the first only: no other match is above
    it, and those below it keep their own texts. *)
Lemma assign_first_siblings t v cs :
  Forall (fun c => ∀ x rest,
            etree.findall t c = x :: rest →
            x.1 ≠ [] ∧
            etree.findall t (etree.alter_at (etree.set_text v) x.1 c)
            = (x.1, etree.set_text v x.2) :: rest) cs →
  ∀ i x rest,
    List.filter (etree.has_tag t) (etree.walk_from i cs) = x :: rest →
    ∃ k p, x.1 = (i + k)%nat :: p ∧
           List.filter (etree.has_tag t)
             (etree.walk_from i (alter (etree.alter_at (etree.set_text v) p) k cs))
           = (x.1, etree.set_text v x.2) :: rest.
Proof.
  induction 1 as [|c cs Hc _ IH]; intros i x rest Hx; [discriminate Hx|].
  cbn [etree.walk_from List.filter] in Hx.
  rewrite List.filter_app, filter_under in Hx.
  destruct (etree.has_tag t ([i], c)) eqn:Htag.
  - injection Hx as <- <-. exists 0%nat, []. split; [cbn; f_equal; lia|].
    cbn [alter list_alter etree.alter_at etree.walk_from List.filter fst snd].
    unfold etree.has_tag at 1. cbn [snd]. rewrite tag_set_text.
    unfold etree.has_tag in Htag. cbn [snd] in Htag. rewrite Htag.
    rewrite walk_set_text, List.filter_app, filter_under. reflexivity.
  - destruct (List.filter (etree.has_tag t) (etree.walk c)) as [|y r1] eqn:Hwalk.
    + cbn [map app] in Hx.
      destruct (IH (S i) x rest Hx) as (k & p & Hpos & Hnew).
      exists (S k), p. split; [rewrite Hpos; f_equal; lia|].
      cbn [alter list_alter etree.walk_from List.filter]. rewrite Htag.
      rewrite List.filter_app, filter_under, Hwalk. exact Hnew.
    + cbn [map app] in Hx. injection Hx as <- <-.
      destruct (Hc y r1 Hwalk) as [Hne Hnew].
      exists 0%nat, y.1. split; [cbn; f_equal; lia|].
      cbn [alter list_alter etree.walk_from List.filter etree.under fst snd].
      destruct y.1 as [|j p] eqn:Hy; [contradiction|].
      unfold etree.has_tag at 1. cbn [snd]. rewrite tag_alter_below.
      unfold etree.has_tag in Htag. cbn [snd] in Htag. rewrite Htag.
      rewrite List.filter_app, filter_under.
      unfold etree.findall in Hnew. rewrite Hnew. reflexivity.
Qed.

Lemma assign_first_below t v e x rest :
  etree.findall t e = x :: rest →
  x.1 ≠ [] ∧
  etree.findall t (etree.alter_at (etree.set_text v) x.1 e)
  = (x.1, etree.set_text v x.2) :: rest.
Proof.
  revert x rest. induction e as [tg a tx cs IH] using element_nested_ind.
  intros x rest Hx. unfold etree.findall in Hx. rewrite walk_children in Hx.
  destruct (assign_first_siblings t v cs IH 0%nat x rest Hx) as (k & p & Hpos & Hnew).
  split; [rewrite Hpos; discriminate|].
  unfold etree.findall. rewrite walk_children, Hpos, children_alter_below.
  cbn [etree.children]. rewrite <- Hpos. exact Hnew.
Qed.

(** C9: the field accessors take the first element that matches the tag
    and do not check how many match.  With no match, reading and
    overwriting the field raise IndexError; with one or more, the text of
    the first is read, and overwriting changes the text of the first and
    leaves the other matches as they were, without any error. *)
Theorem field_accessors_take_first xml tag value :
  match etree.findall tag xml with
  | [] =>
      dataman.get_field xml tag = Raise IndexError
      ∧ dataman.set_field xml tag value = Raise IndexError
  | x :: rest =>
      dataman.get_field xml tag = Return (etree.text x.2)
      ∧ ∃ xml', dataman.set_field xml tag value = Return xml'
                ∧ etree.findall tag xml' = (x.1, etree.set_text value x.2) :: rest
  end.
Proof.
  unfold dataman.get_field, dataman.set_field.
  destruct (etree.findall tag xml) as [|x rest] eqn:Hfind.
  - split; reflexivity.
  - split; [reflexivity|]. eexists. split; [reflexivity|].
    unfold etree.assign_text. apply assign_first_below. exact Hfind.
Qed.

End field_accessors.

(** ** The order of the floats *)

Section float_order.

Local Open Scope float_scope.

Lemma SFltb_trans a b c :
  SFltb a b = true → SFltb b c = true → SFltb a c = true.
Proof.
  unfold SFltb, SFcompare.
  destruct a as [[]|[]| |[] ma ea], b as [[]|[]| |[] mb eb], c as [[]|[]| |[] mc ec];
    try discriminate; try reflexivity.
  all: change (Pos.compare_cont Eq ?x ?y) with (Pos.compare x y).
  all: destruct (Z.compare_spec ea eb), (Z.compare_spec eb ec), (Z.compare_spec ea ec);
    try lia; try discriminate; try reflexivity.
  all: destruct (Pos.compare_spec ma mb), (Pos.compare_spec mb mc),
         (Pos.compare_spec ma mc); cbn; try lia; try discriminate; try reflexivity.
Qed.

Lemma SFltb_irrefl a : SFltb a a = false.
Proof.
  unfold SFltb, SFcompare. destruct a as [[]|[]| |[] ma ea]; try reflexivity.
  all: rewrite Z.compare_refl; change (Pos.compare_cont Eq ?x ?y) with (Pos.compare x y);
    rewrite Pos.compare_refl; reflexivity.
Qed.

Lemma ltb_trans a b c : (a <? b) = true → (b <? c) = true → (a <? c) = true.
Proof. rewrite !ltb_spec. apply SFltb_trans. Qed.

Lemma ltb_irrefl a : (a <? a) = false.
Proof. rewrite ltb_spec. apply SFltb_irrefl. Qed.

Lemma ltb_asym a b : (a <? b) = true → (b <? a) = false.
Proof.
  intros Hab. destruct (b <? a) eqn:Hba; [|reflexivity].
  rewrite <- (ltb_irrefl a). symmetry. exact (ltb_trans a b a Hab Hba).
Qed.









End float_order.

(** ** The error of a task *)

Section task_errors.
Context `{py.Runtime}.

Implicit Types (pErr : np.table) (task_names cols : list string).

Local Open Scope float_scope.

Lemma max_error_fold pErr task_names cols best :
  for_each
    (fun '(maxerr, max_colname) colname =>
       if str.mem colname task_names then
         col ← np.column pErr colname;
         peak ← np.max (np.abs col);
         let this_max_err :=
           if str.startswith colname "pelvis_t" then 100 * peak
           else np.rad2deg peak in
         if maxerr <? this_max_err
         then Return (this_max_err, Some colname)
         else Return (maxerr, max_colname)
       else Return (maxerr, max_colname))
    cols best
  = errs ← spec.tracked_errors pErr task_names cols;
    Return (fold_left (fun best ce => if best.1 <? ce.2 then (ce.2, Some ce.1) else best)
                      errs best).
Proof.
  revert best. induction cols as [|c cols IH]; intros [m n]; [reflexivity|].
  cbn [for_each spec.tracked_errors]. unfold spec.peak_error.
  destruct (str.mem c task_names); [|apply IH].
  destruct (np.column pErr c) as [col|]; [|reflexivity]. cbn [mbind result_bind].
  destruct (np.max (np.abs col)) as [peak|]; [|reflexivity]. cbn [mbind result_bind].
  destruct (m <? _) eqn:Hlt; cbn [mbind result_bind]; rewrite IH;
    destruct (spec.tracked_errors pErr task_names cols);
    cbn [mbind result_bind fold_left fst snd]; rewrite ?Hlt; reflexivity.
Qed.

Lemma min_error_fold pErr task_names cols best :
  for_each
    (fun '(minerr, min_colname) colname =>
       if str.mem colname task_names then
         col ← np.column pErr colname;
         peak ← np.max (np.abs col);
         let this_min_err :=
           if str.startswith colname "pelvis_t" then 100 * peak
           else np.rad2deg peak in
         if this_min_err <? minerr
         then Return (this_min_err, Some colname)
         else Return (minerr, min_colname)
       else Return (minerr, min_colname))
    cols best
  = errs ← spec.tracked_errors pErr task_names cols;
    Return (fold_left (fun best ce => if ce.2 <? best.1 then (ce.2, Some ce.1) else best)
                      errs best).
Proof.
  revert best. induction cols as [|c cols IH]; intros [m n]; [reflexivity|].
  cbn [for_each spec.tracked_errors]. unfold spec.peak_error.
  destruct (str.mem c task_names); [|apply IH].
  destruct (np.column pErr c) as [col|]; [|reflexivity]. cbn [mbind result_bind].
  destruct (np.max (np.abs col)) as [peak|]; [|reflexivity]. cbn [mbind result_bind].
  destruct (_ <? m) eqn:Hlt; cbn [mbind result_bind]; rewrite IH;
    destruct (spec.tracked_errors pErr task_names cols);
    cbn [mbind result_bind fold_left fst snd]; rewrite ?Hlt; reflexivity.
Qed.

(** What [adjust_weight] does with a column, in terms of its error. *)
Lemma adjust_weight_error pErr task_names min_max_err max_max_err task_weights colname :
  rra.adjust_weight pErr task_names min_max_err max_max_err
    (spec.midpoint min_max_err max_max_err) task_weights colname
  = if str.mem colname task_names then
      err ← spec.peak_error pErr colname;
      if spec.out_of_range min_max_err max_max_err err then
        i ← str.index colname task_names;
        old_weight ← rra.item task_weights i;
        Return (<[i := spec.new_weight min_max_err max_max_err err old_weight]> task_weights)
      else Return task_weights
    else Return task_weights.
Proof.
  unfold rra.adjust_weight, spec.peak_error.
  destruct (str.mem colname task_names); [|reflexivity].
  destruct (np.column pErr colname) as [col|]; [|reflexivity]. cbn [mbind result_bind].
  destruct (np.max (np.abs col)) as [peak|]; [|reflexivity]. cbn [mbind result_bind].
  set (err := if str.startswith colname "pelvis_t" then _ else _).
  unfold spec.out_of_range, spec.new_weight, spec.increment, spec.above, spec.below.
  destruct (max_max_err <? err) eqn:Habove; cbn [orb mbind result_bind].
  - destruct (str.index colname task_names) as [i|]; [|reflexivity]. cbn [mbind result_bind].
    destruct (rra.item task_weights i); reflexivity.
  - destruct (err <? min_max_err) eqn:Hbelow; [|reflexivity]. cbn [mbind result_bind].
    destruct (str.index colname task_names) as [i|]; [|reflexivity]. cbn [mbind result_bind].
    destruct (rra.item task_weights i); reflexivity.
Qed.


End task_errors.


(** The numbers of these tables: the peak of the tilt is the absolute
    value of its negative entry, and it is multiplied by 100 although it
    is an angle; the flexion of the hip, with peak 0.002, is converted to
    degrees, between 0.1145 and 0.1146. *)
Example peak_error_numbers :
  spec.peak_error demo.tilt_table "pelvis_tilt" = Return 2%float
  ∧ rra.max_error demo.tilt_table ["pelvis_tilt"] = Return (2%float, "pelvis_tilt")
  ∧ rra.min_error demo.table demo.tracked
    = Return ((0.002 * (180 / 0x1.921fb54442d18p+1))%float, "hip_flexion_r")
  ∧ ((0.1145 <? 0.002 * (180 / 0x1.921fb54442d18p+1))
     && (0.002 * (180 / 0x1.921fb54442d18p+1) <? 0.1146))%float = true.
Proof. repeat split; vm_compute; reflexivity. Qed.


(** ** The weight update of an iteration *)

Section weight_update.
Context `{py.Runtime}.

Implicit Types (pErr : np.table) (task_names cols : list string).
Implicit Types (tw : list float).

Local Open Scope float_scope.

Lemma index_Return_lookup x (l : list string) i :
  str.index x l = Return i → l !! i = Some x.
Proof.
  revert i. induction l as [|y l IH]; intros i Hi; [discriminate Hi|].
  cbn [str.index] in Hi. destruct (String.eqb_spec y x) as [->|_].
  - injection Hi as <-. reflexivity.
  - destruct (str.index x l) as [j|]; [|discriminate Hi].
    injection Hi as <-. apply IH. reflexivity.
Qed.

Lemma index_of_mem x (l : list string) :
  str.mem x l = true → ∃ i, str.index x l = Return i.
Proof.
  induction l as [|y l IH]; intros Hm; [discriminate Hm|].
  cbn [str.mem existsb str.index] in *.
  destruct (String.eqb_spec y x) as [->|Hne]; [eauto|].
  destruct (String.eqb_spec x y) as [->|_]; [contradiction|].
  destruct (IH Hm) as [i ->]. eauto.
Qed.

Lemma mem_of_elem x (l : list string) : x ∈ l → str.mem x l = true.
Proof.
  intros Hx%list_elem_of_In. unfold str.mem. apply existsb_exists.
  exists x. split; [exact Hx | apply String.eqb_refl].
Qed.

Lemma index_same_position x y (l : list string) i :
  str.index x l = Return i → str.index y l = Return i → x = y.
Proof.
  intros Hx%index_Return_lookup Hy%index_Return_lookup. congruence.
Qed.

Lemma item_lookup tw i old : tw !! i = Some old → rra.item tw i = Return old.
Proof. unfold rra.item. intros ->. reflexivity. Qed.

(** A table with at least one record has an error for each column. *)
Lemma peak_error_defined pErr colname :
  np.records pErr ≠ [] → colname ∈ np.dtype_names pErr →
  ∃ err, spec.peak_error pErr colname = Return err.
Proof.
  intros Hrec Hcol. unfold spec.peak_error, np.column.
  destruct (index_of_mem _ _ (mem_of_elem _ _ Hcol)) as [i ->].
  cbn [mbind result_bind].
  destruct (np.records pErr) as [|r rs]; [contradiction|].
  cbn. eauto.
Qed.

(** The loop over the columns [cols], started with the weights [tw0]:
    it ends normally, changes no weight but those of the tracked columns
    among [cols], and leaves each of these adjusted by its error. *)
Lemma choose_weights_columns pErr task_names min_max_err max_max_err cols :
  np.records pErr ≠ [] →
  NoDup cols →
  cols ⊆ np.dtype_names pErr →
  ∀ tw0,
    length tw0 = length task_names →
    ∃ tw,
      for_each (rra.adjust_weight pErr task_names min_max_err max_max_err
                  (spec.midpoint min_max_err max_max_err)) cols tw0 = Return tw
      ∧ length tw = length tw0
      ∧ (∀ i, (∀ c, c ∈ cols → str.index c task_names ≠ Return i) →
              tw !! i = tw0 !! i)
      ∧ (∀ c i err old,
           c ∈ cols → str.index c task_names = Return i →
           spec.peak_error pErr c = Return err →
           tw0 !! i = Some old →
           tw !! i = Some (spec.adjusted min_max_err max_max_err err old)).
Proof.
  intros Hrec Hnd. induction Hnd as [|c0 cols Hc0 Hnd IH]; intros Hsub tw0 Hlen.
  { exists tw0. split; [reflexivity|]. split; [reflexivity|]. split; [done|].
    intros c i err old Hc. inversion Hc. }
  assert (Hsub' : cols ⊆ np.dtype_names pErr) by set_solver.
  assert (Hstep : ∃ tw1,
    rra.adjust_weight pErr task_names min_max_err max_max_err
      (spec.midpoint min_max_err max_max_err) tw0 c0 = Return tw1
    ∧ length tw1 = length tw0
    ∧ (∀ i, str.index c0 task_names ≠ Return i → tw1 !! i = tw0 !! i)
    ∧ (∀ i err old, str.index c0 task_names = Return i →
         spec.peak_error pErr c0 = Return err → tw0 !! i = Some old →
         tw1 !! i = Some (spec.adjusted min_max_err max_max_err err old))).
  { rewrite adjust_weight_error.
    destruct (str.mem c0 task_names) eqn:Hmem.
    - destruct (peak_error_defined pErr c0 Hrec) as [err Herr]; [set_solver|].
      destruct (index_of_mem _ _ Hmem) as [i0 Hi0].
      destruct (lookup_lt_is_Some_2 tw0 i0) as [old0 Hold0].
      { rewrite Hlen. apply lookup_lt_is_Some. rewrite (index_Return_lookup _ _ _ Hi0). eauto. }
      rewrite Herr. cbn [mbind result_bind]. unfold spec.adjusted.
      destruct (spec.out_of_range min_max_err max_max_err err) eqn:Hout.
      + rewrite Hi0. cbn [mbind result_bind]. rewrite (item_lookup _ _ _ Hold0).
        cbn [mbind result_bind]. eexists. split; [reflexivity|].
        split; [apply length_insert|]. split.
        * intros i Hi. apply list_lookup_insert_ne. congruence.
        * intros i err' old Hi Herr' Hold.
          assert (i = i0) as -> by congruence.
          assert (err' = err) as -> by congruence.
          assert (old = old0) as -> by congruence.
          rewrite Hout. apply list_lookup_insert_eq. eapply lookup_lt_Some. exact Hold0.
      + exists tw0. split; [reflexivity|]. split; [reflexivity|]. split; [done|].
        intros i err' old Hi Herr' Hold.
        assert (err' = err) as -> by congruence. rewrite Hout. exact Hold.
    - exists tw0. split; [reflexivity|]. split; [reflexivity|]. split; [done|].
      intros i err old Hi. apply index_Return_lookup in Hi.
      apply list_elem_of_lookup_2, mem_of_elem in Hi. congruence. }
  destruct Hstep as (tw1 & Hrun1 & Hlen1 & Hkeep1 & Hadj1).
  destruct (IH Hsub' tw1) as (tw & Hrun & Hlen2 & Hkeep & Hadj); [congruence|].
  exists tw. split; [cbn [for_each]; rewrite Hrun1; exact Hrun|].
  split; [congruence|]. split.
  - intros i Hi. rewrite Hkeep, Hkeep1; [reflexivity| |].
    + apply Hi. set_solver.
    + intros c Hc. apply Hi. set_solver.
  - intros c i err old Hc Hi Herr Hold.
    apply elem_of_cons in Hc as [->|Hc].
    + rewrite Hkeep; [eapply Hadj1; eassumption|].
      intros c Hc Hi'. apply Hc0.
      rewrite (index_same_position _ _ _ _ Hi Hi'). exact Hc.
    + eapply Hadj; [exact Hc|exact Hi|exact Herr|].
      rewrite Hkeep1; [exact Hold|].
      intros Hi'. apply Hc0.
      rewrite (index_same_position _ _ _ _ Hi' Hi). exact Hc.
Qed.

(** C1: an iteration of the weight adjustment ends with a weight vector
    in which, for every tracked column whose error [err] is out of range,
    new_weight = old_weight + 0.5 * increment * old_weight, where
    increment = err - midpoint when the error is above the range and
    increment = -|midpoint - err| when it is below, the midpoint being
    0.5 * (min_max_err + max_max_err); the weight of a tracked column
    whose error is in range is the old one. *)
Theorem choose_weights_update_rule task_names min_max_err max_max_err st :
  np.records (rra.pErr st) ≠ [] →
  NoDup (np.dtype_names (rra.pErr st)) →
  length (rra.task_weights st) = length task_names →
  ∃ tw,
    rra.choose_weights task_names min_max_err max_max_err
      (0.5 * (min_max_err + max_max_err)) st = Return tw
    ∧ ∀ colname i err old_weight,
        colname ∈ np.dtype_names (rra.pErr st) →
        str.index colname task_names = Return i →
        spec.peak_error (rra.pErr st) colname = Return err →
        rra.task_weights st !! i = Some old_weight →
        let midpoint := 0.5 * (min_max_err + max_max_err) in
        let increment :=
          if max_max_err <? err then err - midpoint
          else - PrimFloat.abs (midpoint - err) in
        tw !! i
        = Some (if (max_max_err <? err) || (err <? min_max_err)
                then old_weight + 0.5 * increment * old_weight
                else old_weight).
Proof.
  intros Hrec Hnd Hlen.
  destruct (choose_weights_columns (rra.pErr st) task_names min_max_err max_max_err
              (np.dtype_names (rra.pErr st)) Hrec Hnd (reflexivity _)
              (rra.task_weights st) Hlen) as (tw & Hrun & _ & _ & Hadj).
  exists tw. split; [exact Hrun|].
  intros colname i err old_weight Hcol Hi Herr Hold.
  exact (Hadj colname i err old_weight Hcol Hi Herr Hold).
Qed.

End weight_update.

(** The numbers of the specification's example: thresholds (1.0, 1.5),
    error 2.0, old weight 10.0. *)
Example update_rule_numbers :
  spec.midpoint 1 1.5 = 1.25%float
  ∧ ((1 + 1.5) / 2 = 1.25)%float
  ∧ spec.increment 1 1.5 2 = 0.75%float
  ∧ spec.new_weight 1 1.5 2 10 = 13.75%float.
Proof. repeat split; reflexivity. Qed.

Lemma choose_weights_update_rule_witness :
  ∃ tw, rra.choose_weights demo.tracked 1 1.5 (0.5 * (1 + 1.5)) demo.state = Return tw
        ∧ tw !! 0%nat = Some 13.75%float.
Proof.
  assert (Hrec : np.records (rra.pErr demo.state) ≠ []) by discriminate.
  assert (Hnd : NoDup (np.dtype_names (rra.pErr demo.state))).
  { apply (bool_decide_unpack _). vm_compute. exact I. }
  destruct (choose_weights_update_rule demo.tracked 1 1.5 demo.state Hrec Hnd eq_refl)
    as (tw & Hrun & Hrule).
  exists tw. split; [exact Hrun|].
  assert (Hcol : "pelvis_tx" ∈ np.dtype_names (rra.pErr demo.state)).
  { apply (bool_decide_unpack _). vm_compute. exact I. }
  exact (Hrule "pelvis_tx" 0%nat 2%float 10%float Hcol eq_refl eq_refl eq_refl).
Defined.

(** ** One iteration of the loop *)

Section iteration.
Context `{py.Runtime}.

Variables (tasks_fpath pErr_fpath fig_fpath : string).
Variables (task_names rra_command : list string).
Variables (min_max_err max_max_err : float).

Implicit Types (w : py.World) (st : rra.loop_state) (tw : list float).

Local Abbreviation write tw :=
  (rra.write_task_weights_to_file tw tasks_fpath task_names false).
Local Abbreviation body avg :=
  (rra.loop_body tasks_fpath pErr_fpath fig_fpath task_names rra_command
                 min_max_err max_max_err avg).
Local Abbreviation choose avg :=
  (rra.choose_weights task_names min_max_err max_max_err avg).
Local Abbreviation loop avg :=
  (rra.while_loop tasks_fpath pErr_fpath fig_fpath task_names rra_command
                  min_max_err max_max_err avg).

Lemma reload_without_task_names fpath w :
  rra.task_weights_from_file fpath Missing w = (Raise TypeError, w).
Proof. reflexivity. Qed.

(** The writer changes the world by one write of the tasks file, or not
    at all when it raises. *)
Lemma write_once tw w :
  match write tw w with
  | (Return _, w') =>
      ∃ doc, py.events w' = py.events w ++ [py.EvWriteXml tasks_fpath doc]
  | (Raise _, w') => w' = w
  end.
Proof.
  unfold rra.write_task_weights_to_file, mbind, M_bind, py.bind, py.parse, py.lift,
    py.write.
  destruct (py.files w !! tasks_fpath) as [[doc|ls|]|]; try reflexivity.
  destruct (etree.some_object (etree.find_below "objects" doc)) as [objects|];
    [|reflexivity].
  destruct (for_each _ _ doc) as [doc'|]; [|reflexivity].
  cbn [py.events]. eauto.
Qed.

(** The body of the loop never ends normally: it ends where choosing or
    writing the weights raises, and else at the reload of the weights. *)
Lemma loop_body_outcome avg st w :
  body avg st w
  = match choose avg st with
    | Raise e => (Raise e, w)
    | Return tw =>
        match (write tw w).1 with
        | Raise e => (Raise e, (write tw w).2)
        | Return _ =>
            (Raise TypeError,
             spec.after_tool_and_plot rra_command fig_fpath (write tw w).2)
        end
    end.
Proof.
  unfold rra.loop_body, mbind, M_bind, py.bind, py.lift.
  destruct (choose avg st) as [tw|]; [|reflexivity].
  destruct (write tw w) as [[[]|e] w1]; reflexivity.
Qed.

(** With room for one iteration the loop is never cut short: it ends
    normally without an iteration or raises in the first one. *)
Lemma loop_settles avg fuel st w :
  (loop avg (S fuel) st w).1 ≠ Return None.
Proof.
  assert (Hloop : loop avg (S fuel) st w
                  = if rra.out_of_range min_max_err max_max_err st
                    then match body avg st w with
                         | (Return st', w') => loop avg fuel st' w'
                         | (Raise e, w') => (Raise e, w')
                         end
                    else (Return (Some tt), w)).
  { cbn [rra.while_loop].
    destruct (rra.out_of_range min_max_err max_max_err st); reflexivity. }
  rewrite Hloop, loop_body_outcome.
  destruct (rra.out_of_range min_max_err max_max_err st); [|discriminate].
  destruct (choose avg st) as [tw|e]; [|discriminate].
  destruct ((write tw w).1) as [[]|e]; discriminate.
Qed.

Lemma loop_exits_in_range avg fuel st w :
  rra.out_of_range min_max_err max_max_err st = false →
  loop avg fuel st w = (Return (Some tt), w).
Proof. intros Hin. destruct fuel; cbn [rra.while_loop]; rewrite Hin; reflexivity. Qed.

(** C5: the body of the loop ends with the call of task_weights_from_file
    that passes the path only, which raises TypeError.  So when the loop
    is entered (the errors are out of range) it never completes an
    iteration and never tests its condition again: it raises, and it
    raises TypeError when the weights of the iteration were chosen and
    written. *)
Theorem loop_raises_in_first_iteration avg fuel st w :
  rra.out_of_range min_max_err max_max_err st = true →
  (∀ w0, rra.task_weights_from_file tasks_fpath Missing w0 = (Raise TypeError, w0))
  ∧ (∃ e w', loop avg (S fuel) st w = (Raise e, w'))
  ∧ ∀ tw,
      choose avg st = Return tw →
      (write tw w).1 = Return tt →
      loop avg (S fuel) st w
      = (Raise TypeError,
         spec.after_tool_and_plot rra_command fig_fpath (write tw w).2).
Proof.
  intros Hout. split; [intros w0; apply reload_without_task_names|].
  assert (Hloop : loop avg (S fuel) st w
                  = match body avg st w with
                    | (Return st', w') => loop avg fuel st' w'
                    | (Raise e, w') => (Raise e, w')
                    end).
  { cbn [rra.while_loop]. rewrite Hout. reflexivity. }
  rewrite Hloop, loop_body_outcome. split.
  - destruct (choose avg st) as [tw|e]; [|eauto].
    destruct ((write tw w).1) as [[]|e]; eauto.
  - intros tw -> ->. reflexivity.
Qed.

Lemma events_after_tool_and_plot w :
  py.events (spec.after_tool_and_plot rra_command fig_fpath w)
  = py.events w ++ [py.EvCall rra_command; py.EvSavefig fig_fpath].
Proof.
  unfold spec.after_tool_and_plot, rra.savefig, py.subprocess_call.
  cbn [snd py.events]. rewrite <- app_assoc. reflexivity.
Qed.

(** C2: within an iteration the weights of all tracked columns that are
    out of range are updated in the weight vector first (those above the
    range and those below it alike); then that vector is written to the
    weight file, once, and the external tool is run, once. *)
Theorem iteration_updates_all_before_tool st w :
  np.records (rra.pErr st) ≠ [] →
  NoDup (np.dtype_names (rra.pErr st)) →
  length (rra.task_weights st) = length task_names →
  ∃ tw,
    rra.choose_weights task_names min_max_err max_max_err
      (spec.midpoint min_max_err max_max_err) st = Return tw
    ∧ (∀ colname i err old_weight,
         colname ∈ np.dtype_names (rra.pErr st) →
         str.index colname task_names = Return i →
         spec.peak_error (rra.pErr st) colname = Return err →
         rra.task_weights st !! i = Some old_weight →
         tw !! i = Some (spec.adjusted min_max_err max_max_err err old_weight))
    ∧ ((write tw w).1 = Return tt →
       ∃ doc,
         rra.loop_body tasks_fpath pErr_fpath fig_fpath task_names rra_command
           min_max_err max_max_err (spec.midpoint min_max_err max_max_err) st w
         = (Raise TypeError,
            spec.after_tool_and_plot rra_command fig_fpath (write tw w).2)
         ∧ py.events (spec.after_tool_and_plot rra_command fig_fpath (write tw w).2)
           = py.events w ++ [py.EvWriteXml tasks_fpath doc;
                             py.EvCall rra_command;
                             py.EvSavefig fig_fpath]).
Proof.
  intros Hrec Hnd Hlen.
  destruct (choose_weights_columns (rra.pErr st) task_names min_max_err max_max_err
              (np.dtype_names (rra.pErr st)) Hrec Hnd (reflexivity _)
              (rra.task_weights st) Hlen) as (tw & Hrun & _ & _ & Hadj).
  exists tw. split; [exact Hrun|]. split; [exact Hadj|].
  intros Hw. pose proof (write_once tw w) as Hev.
  destruct (write tw w) as [[[]|e] w1] eqn:Hwrite; [|discriminate Hw].
  destruct Hev as [doc Hev]. exists doc. split.
  - rewrite loop_body_outcome. unfold rra.choose_weights. rewrite Hrun, Hwrite.
    reflexivity.
  - cbn [snd]. rewrite events_after_tool_and_plot, Hev, <- app_assoc. reflexivity.
Qed.

End iteration.

Lemma loop_raises_in_first_iteration_witness :
  ∃ w', rra.while_loop "tasks.xml" "results/rra_pErr.sto" demo.figure demo.tracked
          demo.command 1 1.5 (0.5 * (1 + 1.5)) 3 demo.state demo.ran
        = (Raise TypeError, w').
Proof.
  destruct (loop_raises_in_first_iteration "tasks.xml" "results/rra_pErr.sto"
              demo.figure demo.tracked demo.command 1 1.5 (0.5 * (1 + 1.5)) 2
              demo.state demo.ran eq_refl) as (_ & _ & Hraise).
  eexists. eapply Hraise; [vm_compute; reflexivity | vm_compute; reflexivity].
Defined.

Lemma iteration_updates_all_before_tool_witness :
  ∃ tw doc,
    rra.choose_weights demo.tracked 1 1.5 (spec.midpoint 1 1.5) demo.state = Return tw
    ∧ tw !! 0%nat = Some 13.75%float
    ∧ (∃ hip, tw !! 1%nat = Some hip ∧ (hip <? 20.5)%float = true)
    ∧ py.events
        (rra.loop_body "tasks.xml" "results/rra_pErr.sto" demo.figure demo.tracked
           demo.command 1 1.5 (spec.midpoint 1 1.5) demo.state demo.ran).2
      = [py.EvWriteXml "tasks.xml" doc; py.EvCall demo.command;
         py.EvSavefig demo.figure].
Proof.
  assert (Hrec : np.records (rra.pErr demo.state) ≠ []) by discriminate.
  assert (Hnd : NoDup (np.dtype_names (rra.pErr demo.state))).
  { apply (bool_decide_unpack _). vm_compute. exact I. }
  destruct (iteration_updates_all_before_tool "tasks.xml" "results/rra_pErr.sto"
              demo.figure demo.tracked demo.command 1 1.5 demo.state demo.ran
              Hrec Hnd eq_refl) as (tw & Hrun & Hupd & Hio).
  assert (Hpelvis : "pelvis_tx" ∈ np.dtype_names (rra.pErr demo.state)).
  { apply (bool_decide_unpack _). vm_compute. exact I. }
  assert (Hhip : "hip_flexion_r" ∈ np.dtype_names (rra.pErr demo.state)).
  { apply (bool_decide_unpack _). vm_compute. exact I. }
  pose proof (Hupd "pelvis_tx" 0%nat 2%float 10%float Hpelvis eq_refl eq_refl eq_refl)
    as H0.
  pose proof (Hupd "hip_flexion_r" 1%nat (np.rad2deg 0.002) 20.5%float Hhip
                eq_refl eq_refl eq_refl) as H1.
  assert (Hw : (rra.write_task_weights_to_file tw "tasks.xml" demo.tracked false
                  demo.ran).1 = Return tt).
  { vm_compute in Hrun. injection Hrun as <-. vm_compute. reflexivity. }
  destruct (Hio Hw) as (doc & Hbody & Hev).
  exists tw, doc. split; [exact Hrun|]. split; [exact H0|].
  split; [eexists; split; [exact H1 | vm_compute; reflexivity]|].
  rewrite Hbody. exact Hev.
Defined.

(** ** The whole function *)

Section whole_function.
Context `{py.Runtime}.

Implicit Types (w : py.World).

Lemma all_task_names_raises tasks_fpath w :
  rra.all_task_names tasks_fpath w = (Raise NameError, w).
Proof. reflexivity. Qed.

(** C10: all_task_names reads the name cmcts, which is bound neither in
    the function nor at module level, so it raises NameError; and so does
    every call of select_rra_task_weights that leaves task_names at None,
    on a setup file that names its tasks file. *)
Theorem select_without_task_names_raises fuel setup_fpath task_name_regex_omit
    min_max_err max_max_err rra_executable w setup path :
  py.files w !! setup_fpath = Some (py.XmlFile setup) →
  dataman.get_field setup "task_set_file" = Return (Some path) →
  (∀ tasks_fpath w0, rra.all_task_names tasks_fpath w0 = (Raise NameError, w0))
  ∧ rra.select_rra_task_weights fuel setup_fpath None task_name_regex_omit
      min_max_err max_max_err rra_executable w
    = (Raise NameError, w).
Proof.
  intros Hfile Hpath. split; [intros; apply all_task_names_raises|].
  unfold rra.select_rra_task_weights.
  rewrite (bind_run _ _ w setup w) by (unfold py.parse; rewrite Hfile; reflexivity).
  rewrite (bind_run _ _ w (str.strip path) w)
    by (unfold py.lift; rewrite Hpath; reflexivity).
  rewrite (bind_raise _ _ w NameError w) by apply all_task_names_raises.
  reflexivity.
Qed.

(** Where a looked-up element is missing: the accessor's IndexError is
    what the callers raise. *)
Lemma valid_path_missing_element replace file_containing_path xml tag w :
  etree.findall tag xml = [] →
  dataman.valid_path replace file_containing_path xml tag w = (Raise IndexError, w).
Proof.
  intros Hnone. unfold dataman.valid_path.
  rewrite (bind_raise _ _ w IndexError w); [reflexivity|].
  unfold py.lift, dataman.get_field. rewrite Hnone. reflexivity.
Qed.

Lemma select_missing_task_set_file fuel setup_fpath task_names task_name_regex_omit
    min_max_err max_max_err rra_executable w setup :
  py.files w !! setup_fpath = Some (py.XmlFile setup) →
  etree.findall "task_set_file" setup = [] →
  rra.select_rra_task_weights fuel setup_fpath task_names task_name_regex_omit
    min_max_err max_max_err rra_executable w
  = (Raise IndexError, w).
Proof.
  intros Hfile Hnone. unfold rra.select_rra_task_weights.
  rewrite (bind_run _ _ w setup w) by (unfold py.parse; rewrite Hfile; reflexivity).
  rewrite (bind_raise _ _ w IndexError w); [reflexivity|].
  unfold py.lift, dataman.get_field. rewrite Hnone. reflexivity.
Qed.

Lemma bind_settled {A B} (m : py.M A) (k : A → py.M (option B)) w :
  (∀ a w', (k a w').1 ≠ Return None) → ((m ≫= k) w).1 ≠ Return None.
Proof.
  intros Hk. unfold mbind, M_bind, py.bind.
  destruct (m w) as [[a|e] w']; [apply Hk | discriminate].
Qed.

(** The number of iterations is bounded: a budget of one iteration is
    never used up, whatever the input and the behaviour of the tool. *)
Lemma select_never_starts_a_second_iteration fuel setup_fpath task_names
    task_name_regex_omit min_max_err max_max_err rra_executable w :
  (rra.select_rra_task_weights (S fuel) setup_fpath task_names task_name_regex_omit
     min_max_err max_max_err rra_executable w).1 ≠ Return None.
Proof.
  unfold rra.select_rra_task_weights.
  repeat (apply bind_settled; intros).
  apply loop_settles.
Qed.

End whole_function.

Lemma select_without_task_names_raises_witness :
  rra.select_rra_task_weights 5 "setup.xml" None None 1 1.5 "rra" demo.world
  = (Raise NameError, demo.world).
Proof.
  apply (select_without_task_names_raises 5 "setup.xml" None 1 1.5 "rra" demo.world
           demo.setup_doc " tasks.xml ").
  - reflexivity.
  - reflexivity.
Defined.

(** C4, on the code as it is: a call whose errors are out of range at the
    start runs the tool for the missing error file, adjusts and writes the
    weights, runs the tool once more, and raises TypeError before the
    condition of the loop is tested again, whatever the number of
    iterations allowed. *)
Theorem select_stops_in_first_iteration (fuel : nat) :
  ∃ doc w',
    rra.select_rra_task_weights (S fuel) "setup.xml" (Some demo.tracked) None
      1 1.5 "rra" demo.world
    = (Raise TypeError, w')
    ∧ py.events w'
      = [py.EvCall demo.command; py.EvWriteXml "tasks.xml" doc;
         py.EvCall demo.command; py.EvSavefig demo.figure].
Proof.
  eexists _, _. split.
  - vm_compute. reflexivity.
  - vm_compute. reflexivity.
Qed.

(** ** Overwriting and reading back a field *)

Section field_round_trip.

Implicit Types (e c xml : etree.element) (cs : list etree.element).
Implicit Types (x y : etree.position * etree.element) (p q : etree.position).

Lemma text_set_text v e : etree.text (etree.set_text v e) = Some v.
Proof. destruct e. reflexivity. Qed.

Lemma children_set_text v e :
  etree.children (etree.set_text v e) = etree.children e.
Proof. destruct e. reflexivity. Qed.

(** X1: after a field was overwritten with a value, reading the field
    gives that value. *)
Theorem set_field_then_get_field xml tag value xml' :
  dataman.set_field xml tag value = Return xml' →
  dataman.get_field xml' tag = Return (Some value).
Proof.
  unfold dataman.set_field, dataman.get_field.
  destruct (etree.findall tag xml) as [|x rest] eqn:Hfind; [discriminate|].
  cbn [etree.first mbind result_bind]. intros [= <-]. unfold etree.assign_text.
  destruct (assign_first_below tag value xml x rest Hfind) as [_ ->].
  cbn [etree.first mbind result_bind snd]. rewrite text_set_text. reflexivity.
Qed.

(** An element found by a walk is the element at its position. *)
Lemma walk_from_get_at cs :
  Forall (fun c => ∀ y, y ∈ etree.walk c → etree.get_at y.1 c = Some y.2) cs →
  ∀ i y, y ∈ etree.walk_from i cs →
    ∃ k p, y.1 = (i + k)%nat :: p ∧ (cs !! k ≫= etree.get_at p) = Some y.2.
Proof.
  induction 1 as [|c cs Hc _ IH]; intros i y Hy; cbn [etree.walk_from] in Hy.
  - inversion Hy.
  - apply elem_of_cons in Hy as [->|Hy].
    + exists 0%nat, []. split; [cbn; f_equal; lia | reflexivity].
    + apply elem_of_app in Hy as [Hy|Hy].
      * apply list_elem_of_In, in_map_iff in Hy as (z & <- & Hz).
        apply list_elem_of_In in Hz.
        exists 0%nat, z.1. split; [cbn; f_equal; lia|]. cbn. apply Hc, Hz.
      * destruct (IH (S i) y Hy) as (k & p & Hpos & Hget).
        exists (S k), p. split; [rewrite Hpos; f_equal; lia | exact Hget].
Qed.

Lemma walk_get_at e y : y ∈ etree.walk e → etree.get_at y.1 e = Some y.2.
Proof.
  revert y. induction e as [t a tx cs IH] using element_nested_ind. intros y Hy.
  rewrite walk_children in Hy. cbn [etree.children] in Hy.
  destruct (walk_from_get_at cs IH 0%nat y Hy) as (k & p & -> & Hget).
  exact Hget.
Qed.

End field_round_trip.

Lemma set_field_then_get_field_witness :
  ∃ xml', dataman.set_field demo.bundle_doc "results_directory" "results" = Return xml'
          ∧ dataman.get_field xml' "results_directory" = Return (Some "results").
Proof.
  eexists. split; [reflexivity|].
  apply (set_field_then_get_field demo.bundle_doc "results_directory" "results").
  reflexivity.
Defined.


(** ** Overwriting a field leaves the other fields alone *)

Section field_independence.

Implicit Types (e c xml : etree.element) (cs : list etree.element).
Implicit Types (x y : etree.position * etree.element) (p q : etree.position).

(** Assigning a text moves no element. *)
Lemma positions_walk_from v cs :
  Forall (fun c => ∀ p, map fst (etree.walk (etree.alter_at (etree.set_text v) p c))
                        = map fst (etree.walk c)) cs →
  ∀ i k p, map fst (etree.walk_from i (alter (etree.alter_at (etree.set_text v) p) k cs))
           = map fst (etree.walk_from i cs).
Proof.
  induction 1 as [|c cs Hc _ IH]; intros i k p; [reflexivity|].
  destruct k as [|k]; cbn [alter list_alter etree.walk_from map].
  - rewrite !map_app, !map_map. f_equal. f_equal.
    cbn [etree.under fst].
    rewrite <- !(map_map fst (cons i)), Hc. reflexivity.
  - rewrite !map_app. f_equal. f_equal. apply IH.
Qed.

Lemma positions_alter v p e :
  map fst (etree.walk (etree.alter_at (etree.set_text v) p e)) = map fst (etree.walk e).
Proof.
  revert p. induction e as [t a tx cs IH] using element_nested_ind. intros [|i p].
  - reflexivity.
  - rewrite !walk_children, children_alter_below. cbn [etree.children].
    apply positions_walk_from, IH.
Qed.

(** The element at [q] after the text at [p] was assigned: its tag and
    attributes are those it had, and so is its text unless [q] is [p]. *)
Lemma get_at_alter v p q e :
  etree.tag <$> etree.get_at q (etree.alter_at (etree.set_text v) p e)
  = etree.tag <$> etree.get_at q e
  ∧ (q ≠ p →
     etree.text <$> etree.get_at q (etree.alter_at (etree.set_text v) p e)
     = etree.text <$> etree.get_at q e).
Proof.
  revert p e. induction q as [|j q IH]; intros p e.
  - destruct p as [|i p]; destruct e; cbn; split; try reflexivity. intros Hne. congruence.
  - destruct p as [|i p].
    + cbn [etree.alter_at etree.get_at]. rewrite children_set_text. split; reflexivity.
    + cbn [etree.get_at]. rewrite children_alter_below.
      destruct (decide (j = i)) as [->|Hji].
      * rewrite list_lookup_alter_eq.
        destruct (etree.children e !! i) as [c|];
          cbn [fmap option_fmap option_map mbind option_bind]; [|split; reflexivity].
        destruct (IH p c) as [Htag Htext]. split; [exact Htag|].
        intros Hne. apply Htext. congruence.
      * rewrite list_lookup_alter_ne by congruence. split; reflexivity.
Qed.

(** The walk of the document after an assignment, element by element. *)
Local Abbreviation same_but_text p :=
  (fun y y' : etree.position * etree.element =>
     y'.1 = y.1 ∧ etree.tag y'.2 = etree.tag y.2
     ∧ (y.1 ≠ p → etree.text y'.2 = etree.text y.2)).

Lemma walk_alter v p e :
  Forall2 (same_but_text p) (etree.walk e)
          (etree.walk (etree.alter_at (etree.set_text v) p e)).
Proof.
  pose proof (positions_alter v p e) as Hpos.
  apply Forall2_same_length_lookup. split.
  - rewrite <- (length_map fst (etree.walk e)), <- Hpos, length_map. reflexivity.
  - intros i y y' Hy Hy'.
    assert (Hfst : y'.1 = y.1).
    { apply (f_equal (fun l => l !! i)) in Hpos.
      change (map fst) with (fmap (M:=list) (@fst etree.position etree.element)) in Hpos.
      rewrite !list_lookup_fmap, Hy, Hy' in Hpos. cbn in Hpos. congruence. }
    apply list_elem_of_lookup_2, walk_get_at in Hy.
    apply list_elem_of_lookup_2, walk_get_at in Hy'.
    destruct (get_at_alter v p y.1 e) as [Htag Htext].
    rewrite Hfst in Hy'. rewrite Hy, Hy' in Htag, Htext. cbn in Htag, Htext.
    split; [exact Hfst|]. split; [congruence|]. intros Hne. specialize (Htext Hne). congruence.
Qed.

Lemma filter_same_but_text t p (l l' : list (etree.position * etree.element)) :
  Forall2 (same_but_text p) l l' →
  Forall2 (same_but_text p) (List.filter (etree.has_tag t) l)
          (List.filter (etree.has_tag t) l').
Proof.
  induction 1 as [|y y' l l' Hy _ IH]; [constructor|].
  pose proof Hy as (_ & Htag & _). cbn [List.filter].
  change (etree.has_tag t y') with (String.eqb (etree.tag y'.2) t).
  change (etree.has_tag t y) with (String.eqb (etree.tag y.2) t).
  rewrite Htag.
  destruct (String.eqb (etree.tag y.2) t); [constructor|]; assumption.
Qed.

(** Assigning the text of an element of one tag changes no text of an
    element of another tag. *)
Lemma assign_text_other_tags xml tag value x tag' :
  In x (etree.findall tag xml) →
  tag' ≠ tag →
  map (fun y => etree.text y.2) (etree.findall tag' (etree.assign_text x value xml))
  = map (fun y => etree.text y.2) (etree.findall tag' xml).
Proof.
  intros Hin Hne. unfold etree.assign_text.
  apply filter_In in Hin as [Hx Htag]. apply String.eqb_eq in Htag.
  apply list_elem_of_In in Hx.
  pose proof (filter_same_but_text tag' x.1 _ _ (walk_alter value x.1 xml)) as Hrel.
  fold (etree.findall tag' xml) in Hrel.
  fold (etree.findall tag' (etree.alter_at (etree.set_text value) x.1 xml)) in Hrel.
  assert (Hall : Forall (fun y => y.1 ≠ x.1) (etree.findall tag' xml)).
  { apply List.Forall_forall. intros y Hy. apply filter_In in Hy as [Hy Hytag].
    apply String.eqb_eq in Hytag. intros Heq.
    apply list_elem_of_In, walk_get_at in Hy. apply walk_get_at in Hx.
    rewrite Heq, Hx in Hy. injection Hy as Hy. rewrite <- Hy in Hytag. congruence. }
  revert Hall. induction Hrel as [|y y' l l' (_ & _ & Htext) _ IH]; [reflexivity|].
  intros Hall. inversion Hall as [|? ? Hy Hall']; subst.
  cbn [map]. rewrite (Htext Hy), (IH Hall'). reflexivity.
Qed.

(** Reading a field looks at the text of the first match only. *)
Lemma get_field_of_texts xml xml' tag :
  map (fun y => etree.text y.2) (etree.findall tag xml')
  = map (fun y => etree.text y.2) (etree.findall tag xml) →
  dataman.get_field xml' tag = dataman.get_field xml tag.
Proof.
  unfold dataman.get_field.
  destruct (etree.findall tag xml) as [|y l], (etree.findall tag xml') as [|y' l'];
    intros Htexts; try discriminate Htexts; [reflexivity|].
  cbn [etree.first mbind result_bind]. injection Htexts as -> _. reflexivity.
Qed.

(** X2: overwriting the field of one tag changes no field of another
    tag: reading any other field gives what it gave before, and all the
    elements of another tag keep their texts. *)
Theorem set_field_keeps_other_fields xml tag value xml' tag' :
  dataman.set_field xml tag value = Return xml' →
  tag' ≠ tag →
  dataman.get_field xml' tag' = dataman.get_field xml tag'
  ∧ map (fun y => etree.text y.2) (etree.findall tag' xml')
    = map (fun y => etree.text y.2) (etree.findall tag' xml).
Proof.
  unfold dataman.set_field.
  destruct (etree.findall tag xml) as [|x rest] eqn:Hfind; [discriminate|].
  cbn [etree.first mbind result_bind]. intros [= <-] Hne.
  assert (Htexts : map (fun y => etree.text y.2)
                     (etree.findall tag' (etree.assign_text x value xml))
                   = map (fun y => etree.text y.2) (etree.findall tag' xml)).
  { apply (assign_text_other_tags xml tag); [|exact Hne].
    rewrite Hfind. left. reflexivity. }
  split; [|exact Htexts]. apply get_field_of_texts, Htexts.
Qed.

End field_independence.

Lemma set_field_keeps_other_fields_witness :
  ∃ xml', dataman.set_field demo.bundle_doc "results_directory" "results" = Return xml'
          ∧ dataman.get_field xml' "task_set_file"
            = dataman.get_field demo.bundle_doc "task_set_file".
Proof.
  eexists. split; [reflexivity|].
  apply (set_field_keeps_other_fields demo.bundle_doc "results_directory" "results").
  - reflexivity.
  - discriminate.
Defined.


(** ** What the path resolution returns *)

Section path_soundness.

Implicit Types (w : py.World) (xml : etree.element).

(** X3: valid_path changes nothing in the file system, whatever its
    outcome, and a path it returns exists. *)
Theorem valid_path_returns_existing_path replace file_containing_path xml tag w :
  match dataman.valid_path replace file_containing_path xml tag w with
  | (Return (Some found), w') => w' = w ∧ is_Some (py.files w !! found)
  | (_, w') => w' = w
  end.
Proof.
  unfold dataman.valid_path, mbind, M_bind, py.bind, py.lift, py.exists_, mret, M_ret,
    py.ret, py.raise, py.lift.
  destruct (dataman.get_field xml tag) as [[path|]|e]; [|reflexivity..].
  destruct (String.eqb (str.lstrip path) ""); [reflexivity|].
  repeat (case_bool_decide; [split; [reflexivity|assumption]|]).
  reflexivity.
Qed.

(** X4: valid_path returns None exactly when the element it looks up
    has no text or a text of blank characters only; which files exist
    does not matter. *)
Theorem valid_path_none_iff_blank replace file_containing_path xml tag w :
  (dataman.valid_path replace file_containing_path xml tag w).1 = Return None
  ↔ dataman.get_field xml tag = Return None
    ∨ ∃ path, dataman.get_field xml tag = Return (Some path) ∧ str.lstrip path = "".
Proof.
  unfold dataman.valid_path, mbind, M_bind, py.bind, py.lift, py.exists_, mret, M_ret,
    py.ret, py.raise, py.lift.
  destruct (dataman.get_field xml tag) as [[path|]|e].
  - destruct (String.eqb_spec (str.lstrip path) "") as [Hb|Hb].
    + split; [|reflexivity]. intros _. right. eauto.
    + split.
      * repeat (case_bool_decide; [discriminate|]). discriminate.
      * intros [Hn|(path' & [= <-] & Hb')]; [discriminate Hn | contradiction].
  - split; [|reflexivity]. intros _. left. reflexivity.
  - split; [discriminate|]. intros [Hn|(path' & Hn & _)]; discriminate Hn.
Qed.

End path_soundness.

(** ** Rewriting a reference *)

Section field_editing.

Implicit Types (xml : etree.element) (old : gmap string (option string)).

(** X5: edit_field raises KeyError for a key that was never resolved
    and leaves the document alone, without looking the tag up, when the
    resolved path is None or empty.  Otherwise it raises IndexError when
    no element has the tag, and else overwrites the field so that
    reading it gives: the original path relative to the destination when
    the key is in do_not_copy (also when a new name was given for it),
    else the new name given for the key, else the base name of the
    original path; the other fields are unchanged. *)
Theorem edit_field_outcome old do_not_copy kwargs relpath xml tag key :
  let edited := dataman.edit_field old do_not_copy kwargs relpath xml tag key in
  match old !! key with
  | None => edited = Raise KeyError
  | Some None | Some (Some "") => edited = Return xml
  | Some (Some old_key) =>
      let newvalue :=
        if match do_not_copy with Some l => str.mem key l | None => false end
        then relpath old_key
        else match kwargs !! key with
             | Some given => given
             | None => os_path.basename old_key
             end in
      match etree.findall tag xml with
      | [] => edited = Raise IndexError
      | _ :: _ =>
          ∃ xml', edited = Return xml'
                  ∧ dataman.get_field xml' tag = Return (Some newvalue)
                  ∧ ∀ tag', tag' ≠ tag →
                      dataman.get_field xml' tag' = dataman.get_field xml tag'
      end
  end.
Proof.
  intros edited. subst edited. unfold dataman.edit_field.
  destruct (old !! key) as [[old_key|]|]; [|reflexivity..].
  destruct old_key as [|ch old_key]; [reflexivity|].
  cbn [String.eqb].
  set (path := String ch old_key).
  set (kept := match do_not_copy with Some l => str.mem key l | None => false end).
  set (newvalue := if kept then relpath path
                   else match kwargs !! key with
                        | Some given => given
                        | None => os_path.basename path
                        end).
  assert (Hedit : (if kept then dataman.set_field xml tag (relpath path)
                   else dataman.set_field xml tag
                          match kwargs !! key with
                          | Some v => v
                          | None => os_path.basename path
                          end)
                  = dataman.set_field xml tag newvalue).
  { subst newvalue. destruct kept; reflexivity. }
  rewrite Hedit.
  unfold dataman.set_field.
  destruct (etree.findall tag xml) as [|x rest] eqn:Hfind; [reflexivity|].
  cbn [etree.first mbind result_bind].
  exists (etree.assign_text x newvalue xml). split; [reflexivity|]. split.
  - unfold dataman.get_field, etree.assign_text.
    destruct (assign_first_below tag newvalue xml x rest Hfind) as [_ ->].
    cbn [etree.first mbind result_bind snd]. rewrite text_set_text. reflexivity.
  - intros tag' Hne. apply get_field_of_texts, (assign_text_other_tags xml tag).
    + rewrite Hfind. left. reflexivity.
    + exact Hne.
Qed.

End field_editing.

(** ** Reading the task weights *)

Section weights_reader.
Context `{py.Runtime}.

Implicit Types (w : py.World) (cmcts : etree.element).
Implicit Types (task : etree.position * etree.element).
Implicit Types (fw : gmap string float) (ws acc : list float).

(** The task [task] is named [name] and its weight element holds the
    number [x]. *)
Local Abbreviation joint_weight task name x :=
  (∃ weight s,
     etree.find "weight" task.2 = Some weight
     ∧ etree.text weight.2 = Some s
     ∧ py.float_of_str s = Some x
     ∧ etree.lookup_attrib "name" (etree.attrib task.2) = Return name).

Lemma read_task_Return fw task fw' :
  rra.read_task fw task = Return fw' →
  ∃ name x, joint_weight task name x ∧ fw' = <[name := x]> fw.
Proof.
  unfold rra.read_task, rra.float_, etree.some_object.
  destruct (etree.find "weight" task.2) as [weight|] eqn:Hw; [|discriminate].
  cbn [mbind result_bind].
  destruct (etree.text weight.2) as [s|] eqn:Hs; [|discriminate].
  destruct (py.float_of_str s) as [x|] eqn:Hx; [|discriminate].
  cbn [mbind result_bind].
  destruct (etree.lookup_attrib "name" (etree.attrib task.2)) as [name|] eqn:Hn;
    [|discriminate].
  cbn [mbind result_bind]. intros [= <-]. exists name, x.
  split; [exists weight, s; auto | reflexivity].
Qed.

Lemma joint_weight_read fw task name x :
  joint_weight task name x → rra.read_task fw task = Return (<[name := x]> fw).
Proof.
  intros (weight & s & Hw & Hs & Hx & Hn).
  unfold rra.read_task, rra.float_, etree.some_object.
  rewrite Hw. cbn [mbind result_bind]. rewrite Hs, Hx. cbn [mbind result_bind].
  rewrite Hn. reflexivity.
Qed.

(** The first loop: an entry of the dictionary was there before or was
    read from a task. *)
Lemma read_tasks_sound tasks fw fw' :
  for_each rra.read_task tasks fw = Return fw' →
  ∀ name x, fw' !! name = Some x →
    fw !! name = Some x ∨ ∃ task, task ∈ tasks ∧ joint_weight task name x.
Proof.
  revert fw. induction tasks as [|task tasks IH]; intros fw Hrun name x Hx.
  - injection Hrun as <-. left. exact Hx.
  - cbn [for_each] in Hrun.
    destruct (rra.read_task fw task) as [fw1|] eqn:H1; [|discriminate Hrun].
    cbn [mbind result_bind] in Hrun.
    destruct (IH _ Hrun name x Hx) as [Hold|(t & Ht & Hj)].
    + apply read_task_Return in H1 as (n1 & x1 & Hj & ->).
      destruct (decide (n1 = name)) as [->|Hne].
      * rewrite lookup_insert_eq in Hold. injection Hold as ->.
        right. exists task. split; [left|exact Hj].
      * rewrite lookup_insert_ne in Hold by exact Hne. left. exact Hold.
    + right. exists t. split; [right; exact Ht | exact Hj].
Qed.

(** The second loop fills the array from the dictionary, name by name. *)
Lemma fill_weights_Return fw names acc ws :
  for_each (rra.fill_weight fw) names acc = Return ws →
  ∃ xs, ws = acc ++ xs ∧ Forall2 (fun name x => fw !! name = Some x) names xs.
Proof.
  revert acc. induction names as [|name names IH]; intros acc Hrun.
  - injection Hrun as <-. exists []. split; [rewrite app_nil_r; reflexivity | constructor].
  - cbn [for_each] in Hrun.
    destruct (rra.fill_weight fw acc name) as [acc1|] eqn:H1; [|discriminate Hrun].
    cbn [mbind result_bind] in Hrun. unfold rra.fill_weight in H1.
    destruct (fw !! name) as [x|] eqn:Hx; [|discriminate H1]. injection H1 as <-.
    destruct (IH _ Hrun) as (xs & -> & Hxs).
    exists (x :: xs). split; [rewrite <- app_assoc; reflexivity|].
    constructor; assumption.
Qed.

Lemma fill_weights_missing fw names acc name :
  name ∈ names → fw !! name = None →
  for_each (rra.fill_weight fw) names acc = Raise KeyError.
Proof.
  intros Hin Hnone. revert acc.
  induction names as [|n names IH]; intros acc; [inversion Hin|].
  cbn [for_each].
  destruct (rra.fill_weight fw acc n) as [acc1|e] eqn:H1.
  - cbn [mbind result_bind]. apply IH.
    apply elem_of_cons in Hin as [->|Hin]; [|exact Hin].
    unfold rra.fill_weight in H1. rewrite Hnone in H1. discriminate H1.
  - unfold rra.fill_weight in H1. destruct (fw !! n); [discriminate H1|].
    injection H1 as <-. reflexivity.
Qed.

Lemma task_weights_from_file_run fpath task_names w :
  rra.task_weights_from_file fpath (Given task_names) w
  = match py.files w !! fpath with
    | Some (py.XmlFile cmcts) =>
        (fw ← for_each rra.read_task (etree.findall "CMC_Joint" cmcts) ∅;
         for_each (rra.fill_weight fw) task_names [], w)
    | _ => (Raise IOError, w)
    end.
Proof.
  unfold rra.task_weights_from_file, mbind at 1 2 3, M_bind, py.bind, py.lift, py.parse.
  cbn [required].
  destruct (py.files w !! fpath) as [[cmcts|ls|]|]; try reflexivity.
  destruct (for_each rra.read_task _ ∅); reflexivity.
Qed.

(** X6: when task_weights_from_file returns, it has changed nothing,
    the array has one weight per requested name, and the weight at the
    position of a name is the number held by the weight element of a
    CMC_Joint of that name in the file. *)
Theorem task_weights_from_file_sound fpath task_names w ws w' :
  rra.task_weights_from_file fpath (Given task_names) w = (Return ws, w') →
  w' = w ∧ length ws = length task_names
  ∧ ∃ cmcts,
      py.files w !! fpath = Some (py.XmlFile cmcts)
      ∧ ∀ i name, task_names !! i = Some name →
          ∃ task x, task ∈ etree.findall "CMC_Joint" cmcts
                    ∧ joint_weight task name x ∧ ws !! i = Some x.
Proof.
  rewrite task_weights_from_file_run.
  destruct (py.files w !! fpath) as [[cmcts|ls|]|]; try discriminate.
  destruct (for_each rra.read_task _ ∅) as [fw|] eqn:Hread; [|discriminate].
  cbn [mbind result_bind]. intros [= Hfill <-].
  apply fill_weights_Return in Hfill as (xs & -> & Hxs). cbn [app].
  split; [reflexivity|]. split; [symmetry; eapply Forall2_length; exact Hxs|].
  exists cmcts. split; [reflexivity|]. intros i name Hi.
  destruct (Forall2_lookup_l _ _ _ _ _ Hxs Hi) as (x & Hx & Hfw).
  destruct (read_tasks_sound _ _ _ Hread name x Hfw) as [Hempty|(task & Ht & Hj)].
  - rewrite lookup_empty in Hempty. discriminate Hempty.
  - exists task, x. split; [exact Ht|]. split; [exact Hj | exact Hx].
Qed.

(** Reading the tasks [pre ++ task :: post]: the entry of the name of
    [task] holds its weight when no later task has that name. *)
Lemma read_tasks_last pre task post name x fw fw' :
  for_each rra.read_task (pre ++ task :: post) fw = Return fw' →
  joint_weight task name x →
  Forall (fun t => etree.lookup_attrib "name" (etree.attrib t.2) ≠ Return name) post →
  fw' !! name = Some x.
Proof.
  intros Hrun Hj Hpost. revert fw Hrun.
  induction pre as [|t pre IH]; intros fw Hrun.
  - cbn [app for_each] in Hrun. rewrite (joint_weight_read fw task name x Hj) in Hrun.
    cbn [mbind result_bind] in Hrun.
    assert (Hkeep : ∀ fw0, fw0 !! name = Some x →
                      for_each rra.read_task post fw0 = Return fw' → fw' !! name = Some x).
    { clear Hrun. induction Hpost as [|t post Ht _ IHp]; intros fw0 Hx Hrun.
      - injection Hrun as <-. exact Hx.
      - cbn [for_each] in Hrun.
        destruct (rra.read_task fw0 t) as [fw1|] eqn:H1; [|discriminate Hrun].
        cbn [mbind result_bind] in Hrun.
        apply read_task_Return in H1 as (n1 & x1 & (wt & s & _ & _ & _ & Hn1) & ->).
        apply (IHp (<[n1 := x1]> fw0)); [|exact Hrun].
        rewrite lookup_insert_ne; [exact Hx|]. intros ->. contradiction. }
    apply (Hkeep _ (lookup_insert_eq _ _ _) Hrun).
  - cbn [app for_each] in Hrun.
    destruct (rra.read_task fw t) as [fw1|]; [|discriminate Hrun].
    apply (IH fw1 Hrun).
Qed.

(** X7: when several CMC_Joint elements have the same name, the weight
    returned for that name is the one of the last of them in document
    order. *)
Theorem task_weights_from_file_last_duplicate fpath task_names w cmcts pre task post
    name x ws :
  py.files w !! fpath = Some (py.XmlFile cmcts) →
  etree.findall "CMC_Joint" cmcts = pre ++ task :: post →
  joint_weight task name x →
  Forall (fun t => etree.lookup_attrib "name" (etree.attrib t.2) ≠ Return name) post →
  rra.task_weights_from_file fpath (Given task_names) w = (Return ws, w) →
  ∀ i, task_names !! i = Some name → ws !! i = Some x.
Proof.
  intros Hfile Hjoints Hj Hpost. rewrite task_weights_from_file_run, Hfile, Hjoints.
  destruct (for_each rra.read_task _ ∅) as [fw|] eqn:Hread; [|discriminate].
  cbn [mbind result_bind]. intros [= Hfill] i Hi.
  apply fill_weights_Return in Hfill as (xs & -> & Hxs). cbn [app].
  destruct (Forall2_lookup_l _ _ _ _ _ Hxs Hi) as (x' & Hx & Hfw).
  rewrite (read_tasks_last _ _ _ _ _ _ _ Hread Hj Hpost) in Hfw. congruence.
Qed.

(** X8: when all tasks of the file can be read and a requested name is
    not the name of any of them, task_weights_from_file raises
    KeyError. *)
Theorem task_weights_from_file_unknown_name fpath task_names w cmcts fw name :
  py.files w !! fpath = Some (py.XmlFile cmcts) →
  for_each rra.read_task (etree.findall "CMC_Joint" cmcts) ∅ = Return fw →
  name ∈ task_names →
  Forall (fun t => etree.lookup_attrib "name" (etree.attrib t.2) ≠ Return name)
         (etree.findall "CMC_Joint" cmcts) →
  rra.task_weights_from_file fpath (Given task_names) w = (Raise KeyError, w).
Proof.
  intros Hfile Hread Hin Hnone. rewrite task_weights_from_file_run, Hfile, Hread.
  cbn [mbind result_bind]. f_equal. apply fill_weights_missing with name; [exact Hin|].
  destruct (fw !! name) as [x|] eqn:Hx; [|reflexivity]. exfalso.
  destruct (read_tasks_sound _ _ _ Hread name x Hx) as [Hempty|(task & Ht & Hj)].
  - rewrite lookup_empty in Hempty. discriminate Hempty.
  - destruct Hj as (wt & s & _ & _ & _ & Hn).
    rewrite List.Forall_forall in Hnone. apply (Hnone task); [|exact Hn].
    apply list_elem_of_In, Ht.
Qed.

End weights_reader.

Lemma task_weights_from_file_sound_witness :
  ∃ ws, rra.task_weights_from_file "tasks.xml" (Given demo.tracked) demo.world
        = (Return ws, demo.world)
        ∧ length ws = 2%nat.
Proof.
  exists [10; 20.5]%float.
  assert (Hrun : rra.task_weights_from_file "tasks.xml" (Given demo.tracked) demo.world
                 = (Return [10; 20.5]%float, demo.world)) by (vm_compute; reflexivity).
  split; [exact Hrun|].
  apply (task_weights_from_file_sound "tasks.xml" demo.tracked demo.world _ _ Hrun).
Defined.

Lemma task_weights_from_file_last_duplicate_witness :
  let cmcts := etree.Element "CMC_TaskSet" [] None
                 [demo.joint "knee" "1"; demo.joint "knee" "2"] in
  let w := py.mkWorld (<["tasks.xml" := py.XmlFile cmcts]> ∅) [] in
  rra.task_weights_from_file "tasks.xml" (Given ["knee"]) w = (Return [2%float], w)
  ∧ [2%float] !! 0%nat = Some 2%float.
Proof.
  intros cmcts w.
  assert (Hrun : rra.task_weights_from_file "tasks.xml" (Given ["knee"]) w
                 = (Return [2%float], w)) by (vm_compute; reflexivity).
  split; [exact Hrun|].
  apply (task_weights_from_file_last_duplicate "tasks.xml" ["knee"] w cmcts
           [([0%nat], demo.joint "knee" "1")] ([1%nat], demo.joint "knee" "2") []
           "knee" 2%float [2%float]).
  - reflexivity.
  - reflexivity.
  - exists ([1%nat], demo.leaf "weight" "2"), "2". repeat split; reflexivity.
  - constructor.
  - exact Hrun.
  - reflexivity.
Defined.

Lemma task_weights_from_file_unknown_name_witness :
  let cmcts := etree.Element "CMC_TaskSet" [] None [demo.joint "knee" "1"] in
  let w := py.mkWorld (<["tasks.xml" := py.XmlFile cmcts]> ∅) [] in
  rra.task_weights_from_file "tasks.xml" (Given ["knee"; "hip"]) w = (Raise KeyError, w).
Proof.
  intros cmcts w.
  eapply (task_weights_from_file_unknown_name "tasks.xml" ["knee"; "hip"] w cmcts _ "hip").
  - reflexivity.
  - reflexivity.
  - apply (bool_decide_unpack _). vm_compute. exact I.
  - repeat constructor; discriminate.
Defined.

(** ** The largest and the smallest error *)

Section extreme_errors.

Implicit Types (pErr : np.table) (task_names cols : list string).
Implicit Types (errs : list (string * float)).

Local Open Scope float_scope.

(** The errors the loops go through: those of the tracked columns. *)
Lemma tracked_errors_elem pErr task_names cols errs :
  spec.tracked_errors pErr task_names cols = Return errs →
  (∀ c e, (c, e) ∈ errs →
     c ∈ cols ∧ str.mem c task_names = true ∧ spec.peak_error pErr c = Return e)
  ∧ (∀ c e, c ∈ cols → str.mem c task_names = true →
       spec.peak_error pErr c = Return e → (c, e) ∈ errs).
Proof.
  revert errs. induction cols as [|c0 cols IH]; intros errs Hrun.
  - injection Hrun as <-. split; intros c e Hc; inversion Hc.
  - cbn [spec.tracked_errors] in Hrun.
    destruct (str.mem c0 task_names) eqn:Hmem.
    + destruct (spec.peak_error pErr c0) as [e0|] eqn:He0; [|discriminate Hrun].
      cbn [mbind result_bind] in Hrun.
      destruct (spec.tracked_errors pErr task_names cols) as [rest|]; [|discriminate Hrun].
      injection Hrun as <-. destruct (IH rest eq_refl) as [IH1 IH2]. split.
      * intros c e [[= -> ->]|Hc]%elem_of_cons.
        -- split; [left|]. split; assumption.
        -- destruct (IH1 c e Hc) as (? & ? & ?). split; [right; assumption|]. split; assumption.
      * intros c e [->|Hc]%elem_of_cons Hm He.
        -- rewrite He0 in He. injection He as ->. left.
        -- right. apply IH2; assumption.
    + destruct (IH errs Hrun) as [IH1 IH2]. split.
      * intros c e Hc. destruct (IH1 c e Hc) as (? & ? & ?).
        split; [right; assumption|]. split; assumption.
      * intros c e [->|Hc]%elem_of_cons Hm He; [congruence|]. apply IH2; assumption.
Qed.

Lemma tracked_errors_none pErr task_names cols :
  Forall (fun c => str.mem c task_names = false) cols →
  spec.tracked_errors pErr task_names cols = Return [].
Proof.
  induction 1 as [|c cols Hc _ IH]; [reflexivity|].
  cbn [spec.tracked_errors]. rewrite Hc. exact IH.
Qed.

(** The running maximum: it is the start value or one of the errors
    above it, and no error is above it. *)
Lemma largest_from errs b nb :
  let best := fold_left (fun best ce => if best.1 <? ce.2 then (ce.2, Some ce.1) else best)
                        errs (b, nb) in
  (best = (b, nb) ∨ ((b <? best.1) = true ∧ ∃ c, best.2 = Some c ∧ (c, best.1) ∈ errs))
  ∧ ∀ c e, (c, e) ∈ errs → (best.1 <? e) = false.
Proof.
  revert b nb. induction errs as [|[c0 e0] errs IH]; intros b nb best.
  - split; [left; reflexivity|]. intros c e Hc. inversion Hc.
  - subst best. cbn [fold_left fst snd].
    destruct (b <? e0) eqn:Hlt.
    + destruct (IH e0 (Some c0)) as [[Hbest|(Hup & c & Hc & Hin)] Hmax].
      * rewrite Hbest. cbn [fst snd]. split.
        -- right. split; [exact Hlt|]. exists c0. split; [reflexivity|left].
        -- intros c e [[= -> ->]|Hc]%elem_of_cons; [apply ltb_irrefl|].
           specialize (Hmax c e Hc). rewrite Hbest in Hmax. exact Hmax.
      * split.
        -- right. split; [exact (ltb_trans _ _ _ Hlt Hup)|].
           exists c. split; [exact Hc | right; exact Hin].
        -- intros c' e [[= -> ->]|Hc']%elem_of_cons; [apply ltb_asym, Hup|].
           apply Hmax with c'. exact Hc'.
    + destruct (IH b nb) as [[Hbest|(Hup & c & Hc & Hin)] Hmax].
      * rewrite Hbest. cbn [fst snd]. split; [left; reflexivity|].
        intros c e [[= -> ->]|Hc]%elem_of_cons; [exact Hlt|].
        specialize (Hmax c e Hc). rewrite Hbest in Hmax. exact Hmax.
      * split.
        -- right. split; [exact Hup|]. exists c. split; [exact Hc | right; exact Hin].
        -- intros c' e [[= -> ->]|Hc']%elem_of_cons; [|apply Hmax with c'; exact Hc'].
           match goal with |- (?m <? e0) = false => destruct (m <? e0) eqn:Hme; [|reflexivity] end.
           rewrite <- Hlt. symmetry. exact (ltb_trans _ _ _ Hup Hme).
Qed.

Lemma smallest_from errs b nb :
  let best := fold_left (fun best ce => if ce.2 <? best.1 then (ce.2, Some ce.1) else best)
                        errs (b, nb) in
  (best = (b, nb) ∨ ((best.1 <? b) = true ∧ ∃ c, best.2 = Some c ∧ (c, best.1) ∈ errs))
  ∧ ∀ c e, (c, e) ∈ errs → (e <? best.1) = false.
Proof.
  revert b nb. induction errs as [|[c0 e0] errs IH]; intros b nb best.
  - split; [left; reflexivity|]. intros c e Hc. inversion Hc.
  - subst best. cbn [fold_left fst snd].
    destruct (e0 <? b) eqn:Hlt.
    + destruct (IH e0 (Some c0)) as [[Hbest|(Hup & c & Hc & Hin)] Hmax].
      * rewrite Hbest. cbn [fst snd]. split.
        -- right. split; [exact Hlt|]. exists c0. split; [reflexivity|left].
        -- intros c e [[= -> ->]|Hc]%elem_of_cons; [apply ltb_irrefl|].
           specialize (Hmax c e Hc). rewrite Hbest in Hmax. exact Hmax.
      * split.
        -- right. split; [exact (ltb_trans _ _ _ Hup Hlt)|].
           exists c. split; [exact Hc | right; exact Hin].
        -- intros c' e [[= -> ->]|Hc']%elem_of_cons; [apply ltb_asym, Hup|].
           apply Hmax with c'. exact Hc'.
    + destruct (IH b nb) as [[Hbest|(Hup & c & Hc & Hin)] Hmax].
      * rewrite Hbest. cbn [fst snd]. split; [left; reflexivity|].
        intros c e [[= -> ->]|Hc]%elem_of_cons; [exact Hlt|].
        specialize (Hmax c e Hc). rewrite Hbest in Hmax. exact Hmax.
      * split.
        -- right. split; [exact Hup|]. exists c. split; [exact Hc | right; exact Hin].
        -- intros c' e [[= -> ->]|Hc']%elem_of_cons; [|apply Hmax with c'; exact Hc'].
           match goal with |- (e0 <? ?m) = false => destruct (e0 <? m) eqn:Hme; [|reflexivity] end.
           rewrite <- Hlt. symmetry. exact (ltb_trans _ _ _ Hme Hup).
Qed.

(** X9: when no column of the error table is a tracked task, max_error
    and min_error raise UnboundLocalError: the column-name variable they
    return was never assigned. *)
Theorem errors_need_a_tracked_column pErr task_names :
  Forall (fun colname => str.mem colname task_names = false) (np.dtype_names pErr) →
  rra.max_error pErr task_names = Raise UnboundLocalError
  ∧ rra.min_error pErr task_names = Raise UnboundLocalError.
Proof.
  intros Hnone. unfold rra.max_error, rra.min_error.
  rewrite max_error_fold, min_error_fold, (tracked_errors_none _ _ _ Hnone).
  split; reflexivity.
Qed.

(** X10: what max_error returns is a tracked column of the table
    together with its error, and no tracked column has an error above
    it. *)
Theorem max_error_is_largest pErr task_names maxerr max_colname :
  rra.max_error pErr task_names = Return (maxerr, max_colname) →
  max_colname ∈ np.dtype_names pErr
  ∧ str.mem max_colname task_names = true
  ∧ spec.peak_error pErr max_colname = Return maxerr
  ∧ ∀ colname err,
      colname ∈ np.dtype_names pErr → str.mem colname task_names = true →
      spec.peak_error pErr colname = Return err →
      (maxerr <? err) = false.
Proof.
  unfold rra.max_error. rewrite max_error_fold.
  destruct (spec.tracked_errors pErr task_names (np.dtype_names pErr)) as [errs|] eqn:Herrs;
    [|discriminate].
  cbn [mbind result_bind].
  destruct (tracked_errors_elem _ _ _ _ Herrs) as [Hsound Hcomplete].
  destruct (largest_from errs neg_infinity None) as [Hfrom Hmax].
  destruct (fold_left _ errs (neg_infinity, None)) as [m [c|]]; [|discriminate].
  cbn [read_local mbind result_bind fst snd] in *. intros [= <- <-].
  destruct Hfrom as [[=]|(_ & c' & [= <-] & Hin)].
  destruct (Hsound _ _ Hin) as (Hcol & Hmem & Herr).
  split; [exact Hcol|]. split; [exact Hmem|]. split; [exact Herr|].
  intros colname err Hc Hm He. apply Hmax with colname. apply Hcomplete; assumption.
Qed.

(** X11: what min_error returns is a tracked column of the table
    together with its error, and no tracked column has an error below
    it. *)
Theorem min_error_is_smallest pErr task_names minerr min_colname :
  rra.min_error pErr task_names = Return (minerr, min_colname) →
  min_colname ∈ np.dtype_names pErr
  ∧ str.mem min_colname task_names = true
  ∧ spec.peak_error pErr min_colname = Return minerr
  ∧ ∀ colname err,
      colname ∈ np.dtype_names pErr → str.mem colname task_names = true →
      spec.peak_error pErr colname = Return err →
      (err <? minerr) = false.
Proof.
  unfold rra.min_error. rewrite min_error_fold.
  destruct (spec.tracked_errors pErr task_names (np.dtype_names pErr)) as [errs|] eqn:Herrs;
    [|discriminate].
  cbn [mbind result_bind].
  destruct (tracked_errors_elem _ _ _ _ Herrs) as [Hsound Hcomplete].
  destruct (smallest_from errs infinity None) as [Hfrom Hmin].
  destruct (fold_left _ errs (infinity, None)) as [m [c|]]; [|discriminate].
  cbn [read_local mbind result_bind fst snd] in *. intros [= <- <-].
  destruct Hfrom as [[=]|(_ & c' & [= <-] & Hin)].
  destruct (Hsound _ _ Hin) as (Hcol & Hmem & Herr).
  split; [exact Hcol|]. split; [exact Hmem|]. split; [exact Herr|].
  intros colname err Hc Hm He. apply Hmin with colname. apply Hcomplete; assumption.
Qed.

End extreme_errors.

Lemma errors_need_a_tracked_column_witness :
  rra.max_error demo.table ["knee_angle_r"] = Raise UnboundLocalError
  ∧ rra.min_error demo.table ["knee_angle_r"] = Raise UnboundLocalError.
Proof.
  apply (errors_need_a_tracked_column demo.table ["knee_angle_r"]).
  repeat constructor.
Defined.

Lemma max_error_is_largest_witness :
  rra.max_error demo.table demo.tracked = Return (2%float, "pelvis_tx")
  ∧ spec.peak_error demo.table "pelvis_tx" = Return 2%float.
Proof.
  assert (Hrun : rra.max_error demo.table demo.tracked = Return (2%float, "pelvis_tx"))
    by (vm_compute; reflexivity).
  split; [exact Hrun|].
  exact (proj1 (proj2 (proj2 (max_error_is_largest demo.table demo.tracked _ _ Hrun)))).
Defined.

Lemma min_error_is_smallest_witness :
  rra.min_error demo.table demo.tracked = Return (np.rad2deg 0.002, "hip_flexion_r")
  ∧ (2 <? np.rad2deg 0.002)%float = false.
Proof.
  assert (Hrun : rra.min_error demo.table demo.tracked
                 = Return (np.rad2deg 0.002, "hip_flexion_r"))
    by (vm_compute; reflexivity).
  split; [exact Hrun|].
  apply (proj2 (proj2 (proj2 (min_error_is_smallest demo.table demo.tracked _ _ Hrun)))
           "pelvis_tx").
  - apply (bool_decide_unpack _). vm_compute. exact I.
  - reflexivity.
  - reflexivity.
Defined.


(** ** Omitting tasks by a regular expression *)

Section omission.
Context `{py.Runtime}.

Implicit Types (l pre : list string).

Lemma remove_first_at pre x l :
  x ∉ pre → rra.remove_first x (pre ++ x :: l) = pre ++ l.
Proof.
  induction pre as [|y pre IH]; intros Hx; cbn [app rra.remove_first].
  - rewrite String.eqb_refl. reflexivity.
  - destruct (String.eqb_spec y x) as [->|_]; [exfalso; apply Hx; left|].
    rewrite IH; [reflexivity|]. intros Hin. apply Hx. right. exact Hin.
Qed.

Lemma omit_tasks_from regex n pre l :
  NoDup (pre ++ l) → (length l ≤ n)%nat →
  rra.omit_tasks n regex (length pre) (pre ++ l)
  = pre ++ described.after_omission regex l.
Proof.
  revert pre l. induction n as [|n IH]; intros pre l Hnd Hlen.
  - destruct l; [reflexivity | cbn in Hlen; lia].
  - cbn [rra.omit_tasks]. destruct l as [|x l].
    + cbn [described.after_omission]. rewrite !app_nil_r.
      rewrite lookup_ge_None_2 by lia. reflexivity.
    + rewrite list_lookup_middle by reflexivity.
      cbn [described.after_omission]. cbn [length] in Hlen.
      destruct (py.re_match regex x).
      * rewrite remove_first_at.
        2:{ apply NoDup_app in Hnd as (_ & Hdisj & _). intros Hx.
            apply (Hdisj x Hx). left. }
        assert (Hnd' : NoDup (pre ++ l)).
        { apply NoDup_app in Hnd as (Hpre & Hdisj & Hl). apply NoDup_app.
          split; [exact Hpre|]. split.
          - intros y Hy Hyl. apply (Hdisj y Hy). right. exact Hyl.
          - apply NoDup_cons in Hl as [_ Hl]. exact Hl. }
        destruct l as [|y l].
        -- rewrite app_nil_r. destruct n; cbn [rra.omit_tasks]; [reflexivity|].
           rewrite lookup_ge_None_2 by lia. reflexivity.
        -- replace (pre ++ y :: l) with ((pre ++ [y]) ++ l)
             by (rewrite <- app_assoc; reflexivity).
           replace (S (length pre)) with (length (pre ++ [y]))
             by (rewrite length_app; cbn; lia).
           rewrite IH.
           ++ rewrite <- app_assoc. reflexivity.
           ++ rewrite <- app_assoc. exact Hnd'.
           ++ cbn [length] in Hlen. lia.
      * replace (pre ++ x :: l) with ((pre ++ [x]) ++ l)
          by (rewrite <- app_assoc; reflexivity).
        replace (S (length pre)) with (length (pre ++ [x]))
          by (rewrite length_app; cbn; lia).
        rewrite IH.
        -- rewrite <- app_assoc. reflexivity.
        -- rewrite <- app_assoc. exact Hnd.
        -- lia.
Qed.

Lemma after_omission_subset regex l x :
  x ∈ described.after_omission regex l → x ∈ l.
Proof.
  enough (Hboth : (x ∈ described.after_omission regex l → x ∈ l)
                  ∧ ∀ a, x ∈ described.after_omission regex (a :: l) → x ∈ a :: l)
    by apply Hboth.
  induction l as [|b l [IH1 IH2]].
  - split; [intros Hx; exact Hx|]. intros a. cbn [described.after_omission].
    destruct (py.re_match regex a); intros Hx; inversion Hx.
    + left.
    + assumption.
  - split; [apply IH2|]. intros a Hx.
    change (described.after_omission regex (a :: b :: l))
      with (if py.re_match regex a then b :: described.after_omission regex l
            else a :: described.after_omission regex (b :: l)) in Hx.
    destruct (py.re_match regex a).
    + apply elem_of_cons in Hx as [->|Hx]; [right; left|]. right. right. apply IH1, Hx.
    + apply elem_of_cons in Hx as [->|Hx]; [left|]. right. apply IH2, Hx.
Qed.

(** X12: on a list of distinct names the omission loop, which removes
    from the list it is iterating over, drops a name that matches and
    then passes over the name that followed it: that name is kept
    without being tested. *)
Theorem omit_tasks_skips_after_removal regex task_names :
  NoDup task_names →
  rra.omit_tasks (length task_names) regex 0 task_names
  = described.after_omission regex task_names.
Proof.
  intros Hnd. apply (omit_tasks_from regex (length task_names) [] task_names Hnd).
  reflexivity.
Qed.

(** X13: so a name that matches the expression can stay in the list:
    when the first of distinct names matches, it is removed and the
    second name is kept, whether it matches or not. *)
Theorem omit_tasks_keeps_name_after_match regex first second rest :
  NoDup (first :: second :: rest) →
  py.re_match regex first = true →
  ∃ kept,
    rra.omit_tasks (length (first :: second :: rest)) regex 0 (first :: second :: rest)
    = kept
    ∧ (first ∉ kept) ∧ (second ∈ kept).
Proof.
  intros Hnd Hmatch. eexists. split; [reflexivity|].
  rewrite (omit_tasks_from regex _ [] (first :: second :: rest) Hnd) by reflexivity.
  cbn [app described.after_omission]. rewrite Hmatch. split; [|left].
  intros Hin. apply NoDup_cons in Hnd as [Hfirst _]. apply Hfirst.
  apply elem_of_cons in Hin as [->|Hin]; [left|]. right.
  apply (after_omission_subset regex), Hin.
Qed.

End omission.

Lemma omit_tasks_skips_after_removal_witness :
  rra.omit_tasks 3 "hip" 0 ["hip_flexion_r"; "hip_rotation_r"; "knee_angle_r"]
  = ["hip_rotation_r"; "knee_angle_r"].
Proof.
  assert (Hnd : NoDup ["hip_flexion_r"; "hip_rotation_r"; "knee_angle_r"]).
  { apply (bool_decide_unpack _). vm_compute. exact I. }
  exact (omit_tasks_skips_after_removal "hip"
           ["hip_flexion_r"; "hip_rotation_r"; "knee_angle_r"] Hnd).
Defined.

Lemma omit_tasks_keeps_name_after_match_witness :
  ∃ kept,
    rra.omit_tasks 3 "hip" 0 ["hip_flexion_r"; "hip_rotation_r"; "knee_angle_r"] = kept
    ∧ ("hip_flexion_r" ∉ kept) ∧ ("hip_rotation_r" ∈ kept).
Proof.
  assert (Hnd : NoDup ["hip_flexion_r"; "hip_rotation_r"; "knee_angle_r"]).
  { apply (bool_decide_unpack _). vm_compute. exact I. }
  exact (omit_tasks_keeps_name_after_match "hip" "hip_flexion_r" "hip_rotation_r"
           ["knee_angle_r"] Hnd eq_refl).
Defined.


(** ** When the whole function returns *)

Section normal_return.
Context `{py.Runtime}.

Implicit Types (w : py.World).

Lemma bind_Return {A B} (m : py.M A) (k : A → py.M B) w b w' :
  (m ≫= k) w = (Return b, w') →
  ∃ a w1, m w = (Return a, w1) ∧ k a w1 = (Return b, w').
Proof.
  unfold mbind, M_bind, py.bind. destruct (m w) as [[a|e] w1]; [eauto | discriminate].
Qed.

Lemma parse_Return path w doc w' :
  py.parse path w = (Return doc, w') → w' = w ∧ py.files w !! path = Some (py.XmlFile doc).
Proof.
  unfold py.parse. destruct (py.files w !! path) as [[d|ls|]|]; try discriminate.
  intros [= <- <-]. split; reflexivity.
Qed.

Lemma lift_Return {A} (r : result A) w a w' :
  py.lift r w = (Return a, w') → w' = w ∧ r = Return a.
Proof. unfold py.lift. intros [= -> <-]. split; reflexivity. Qed.

Lemma storage2numpy_Return path w t w' :
  dataman.storage2numpy path w = (Return t, w') → w' = w.
Proof.
  unfold dataman.storage2numpy. intros Hrun.
  apply bind_Return in Hrun as (lines & w1 & Hread & Hrun).
  apply bind_Return in Hrun as (skip & w2 & Hskip & Hrun).
  apply lift_Return in Hskip as [-> _]. apply lift_Return in Hrun as [-> _].
  unfold py.read_lines in Hread.
  destruct (py.files w !! path) as [[d|ls|]|]; try discriminate Hread.
  injection Hread as _ <-. reflexivity.
Qed.

Lemma task_weights_Return fpath task_names w ws w' :
  rra.task_weights_from_file fpath task_names w = (Return ws, w') → w' = w.
Proof.
  unfold rra.task_weights_from_file. intros Hrun.
  apply bind_Return in Hrun as (names & w1 & Hnames & Hrun).
  apply lift_Return in Hnames as [-> _].
  apply bind_Return in Hrun as (cmcts & w1 & Hparse & Hrun).
  apply parse_Return in Hparse as [-> _].
  apply bind_Return in Hrun as (fw & w1 & Hfw & Hrun).
  apply lift_Return in Hfw as [-> _]. apply lift_Return in Hrun as [-> _]. reflexivity.
Qed.

Lemma while_loop_Return tasks_fpath pErr_fpath fig_fpath task_names rra_command
    min_max_err max_max_err avg fuel st w r w' :
  rra.while_loop tasks_fpath pErr_fpath fig_fpath task_names rra_command
    min_max_err max_max_err avg (S fuel) st w = (Return r, w') →
  r = Some tt ∧ w' = w ∧ rra.out_of_range min_max_err max_max_err st = false.
Proof.
  cbn [rra.while_loop].
  destruct (rra.out_of_range min_max_err max_max_err st).
  - intros Hrun. apply bind_Return in Hrun as (st' & w1 & Hbody & _).
    rewrite loop_body_outcome in Hbody.
    destruct (rra.choose_weights _ _ _ _ st) as [tw|]; [|discriminate Hbody].
    destruct (rra.write_task_weights_to_file tw tasks_fpath task_names false w).1
      as [[]|]; discriminate Hbody.
  - intros [= <- <-]. split; [reflexivity|]. split; reflexivity.
Qed.

(** X14: select_rra_task_weights returns normally only when the errors
    it computes before the loop are within the range: the largest and
    the smallest error, over the task names given (less those omitted),
    of the table read from the error file of the tool named in the setup
    file.  It has then written nothing: the world is the one it was
    called in when that error file existed, and else that world after
    one run of the tool. *)
Theorem select_returns_only_in_range fuel setup_fpath task_names task_name_regex_omit
    min_max_err max_max_err rra_executable w r w' :
  rra.select_rra_task_weights (S fuel) setup_fpath task_names task_name_regex_omit
    min_max_err max_max_err rra_executable w = (Return r, w') →
  r = Some tt
  ∧ ∃ setup rratool name names pErr maxerr max_colname minerr min_colname,
      py.files w !! setup_fpath = Some (py.XmlFile setup)
      ∧ etree.first (etree.findall "RRATool" setup) = Return rratool
      ∧ etree.lookup_attrib "name" (etree.attrib rratool.2) = Return name
      ∧ task_names = Some names
      ∧ let tracked :=
          match task_name_regex_omit with
          | Some regex => if String.eqb regex "" then names
                          else rra.omit_tasks (length names) regex 0 names
          | None => names
          end in
        let pErr_fpath :=
          os_path.join (os_path.join (os_path.dirname setup_fpath) "results")
                       (name +:+ "_pErr.sto") in
        w' = (if bool_decide (is_Some (py.files w !! pErr_fpath)) then w
              else (py.subprocess_call [rra_executable; "-S"; setup_fpath] w).2)
        ∧ dataman.storage2numpy pErr_fpath w' = (Return pErr, w')
        ∧ rra.max_error pErr tracked = Return (maxerr, max_colname)
        ∧ rra.min_error pErr tracked = Return (minerr, min_colname)
        ∧ (max_max_err <? maxerr)%float = false
        ∧ (minerr <? min_max_err)%float = false.
Proof.
  unfold rra.select_rra_task_weights. intros Hrun.
  apply bind_Return in Hrun as (setup & w1 & Hparse & Hrun).
  apply parse_Return in Hparse as [-> Hfile].
  apply bind_Return in Hrun as (task_setup_path & w1 & Hpath & Hrun).
  apply lift_Return in Hpath as [-> _].
  apply bind_Return in Hrun as (names & w1 & Hnames & Hrun).
  assert (w1 = w ∧ task_names = Some names) as [-> Htask_names].
  { destruct task_names as [l|]; [injection Hnames as <- <-; split; reflexivity|].
    rewrite all_task_names_raises in Hnames. discriminate Hnames. }
  apply bind_Return in Hrun as (resdir_name & w1 & Hres & Hrun).
  apply lift_Return in Hres as [-> _].
  apply bind_Return in Hrun as (rratool & w1 & Htool & Hrun).
  apply lift_Return in Htool as [-> Htool].
  apply bind_Return in Hrun as (rratool_name & w1 & Hname & Hrun).
  apply lift_Return in Hname as [-> Hname].
  apply bind_Return in Hrun as (task_weights & w1 & Hweights & Hrun).
  apply task_weights_Return in Hweights as ->.
  apply bind_Return in Hrun as (found & w1 & Hfound & Hrun).
  unfold py.exists_ in Hfound. injection Hfound as <- <-.
  apply bind_Return in Hrun as ([] & w1 & Hcall & Hrun).
  assert (Hw1 : w1 = if bool_decide
                          (is_Some (py.files w !! os_path.join
                                      (os_path.join (os_path.dirname setup_fpath) "results")
                                      (rratool_name +:+ "_pErr.sto")))
                     then w
                     else (py.subprocess_call [rra_executable; "-S"; setup_fpath] w).2).
  { destruct (bool_decide _); injection Hcall as <-; reflexivity. }
  clear Hcall.
  apply bind_Return in Hrun as (pErr & w2 & HpErr & Hrun).
  pose proof (storage2numpy_Return _ _ _ _ HpErr) as ->.
  apply bind_Return in Hrun as ([maxerr max_colname] & w2 & Hmax & Hrun).
  apply lift_Return in Hmax as [-> Hmax].
  apply bind_Return in Hrun as ([minerr min_colname] & w2 & Hmin & Hrun).
  apply lift_Return in Hmin as [-> Hmin].
  apply while_loop_Return in Hrun as (-> & -> & Hin).
  unfold rra.out_of_range in Hin. cbn [rra.maxerr rra.minerr fst] in Hin.
  apply orb_false_iff in Hin as [Hhi Hlo].
  split; [reflexivity|].
  exists setup, rratool, rratool_name, names, pErr, maxerr, max_colname, minerr,
    min_colname.
  split; [exact Hfile|]. split; [exact Htool|]. split; [exact Hname|].
  split; [exact Htask_names|]. cbv zeta.
  split; [exact Hw1|]. split; [exact HpErr|]. split; [exact Hmax|].
  split; [exact Hmin|]. split; [exact Hhi | exact Hlo].
Qed.

(** X15: the tasks file is opened at the path written in the setup file
    (stripped of blanks), not at that path below the directory of the
    setup file: when no file is at the path as written, the call raises
    IOError, wherever else a tasks file may be. *)
Theorem select_opens_tasks_file_as_written fuel setup_fpath task_names
    task_name_regex_omit min_max_err max_max_err rra_executable w setup path
    resdir rratool name :
  py.files w !! setup_fpath = Some (py.XmlFile setup) →
  dataman.get_field setup "task_set_file" = Return (Some path) →
  dataman.get_field setup "results_directory" = Return (Some resdir) →
  etree.first (etree.findall "RRATool" setup) = Return rratool →
  etree.lookup_attrib "name" (etree.attrib rratool.2) = Return name →
  py.files w !! str.strip path = None →
  rra.select_rra_task_weights fuel setup_fpath (Some task_names) task_name_regex_omit
    min_max_err max_max_err rra_executable w
  = (Raise IOError, w).
Proof.
  intros Hfile Hpath Hres Htool Hname Hmissing. unfold rra.select_rra_task_weights.
  rewrite (bind_run _ _ w setup w) by (unfold py.parse; rewrite Hfile; reflexivity).
  rewrite (bind_run _ _ w (str.strip path) w)
    by (unfold py.lift; rewrite Hpath; reflexivity).
  rewrite (bind_run _ _ w task_names w) by reflexivity.
  rewrite (bind_run _ _ w (str.strip resdir) w)
    by (unfold py.lift; rewrite Hres; reflexivity).
  rewrite (bind_run _ _ w rratool w) by (unfold py.lift; rewrite Htool; reflexivity).
  rewrite (bind_run _ _ w name w) by (unfold py.lift; rewrite Hname; reflexivity).
  apply bind_raise.
  assert (Hsame : (if negb (os_path.isabs (str.strip path)) then str.strip path
                   else os_path.join (os_path.dirname setup_fpath) (str.strip path))
                  = str.strip path).
  { unfold os_path.isabs, os_path.join.
    destruct (str.startswith (str.strip path) "/"); reflexivity. }
  rewrite Hsame.
  unfold rra.task_weights_from_file.
  rewrite (bind_run _ _ w _ w) by reflexivity.
  apply bind_raise. unfold py.parse. rewrite Hmissing. reflexivity.
Qed.

End normal_return.

Lemma select_returns_only_in_range_witness :
  rra.select_rra_task_weights 5 "setup.xml" (Some demo.tracked) None 0.1 3 "rra" demo.ran
  = (Return (Some tt), demo.ran)
  ∧ ∃ pErr maxerr max_colname minerr min_colname,
      dataman.storage2numpy "results/rra_pErr.sto" demo.ran = (Return pErr, demo.ran)
      ∧ rra.max_error pErr demo.tracked = Return (maxerr, max_colname)
      ∧ rra.min_error pErr demo.tracked = Return (minerr, min_colname)
      ∧ (3 <? maxerr)%float = false
      ∧ (minerr <? 0.1)%float = false.
Proof.
  assert (Hrun : rra.select_rra_task_weights 5 "setup.xml" (Some demo.tracked) None
                   0.1 3 "rra" demo.ran = (Return (Some tt), demo.ran))
    by (vm_compute; reflexivity).
  split; [exact Hrun|].
  destruct (select_returns_only_in_range 4 "setup.xml" (Some demo.tracked) None
              0.1 3 "rra" demo.ran (Some tt) demo.ran Hrun)
    as (_ & setup & rratool & name & names & pErr & maxerr & max_colname & minerr
        & min_colname & Hfile & Htool & Hname & Hnames & _ & HpErr & Hmax & Hmin
        & Hhi & Hlo).
  injection Hfile as <-. injection Htool as <-. injection Hname as <-.
  injection Hnames as <-.
  exists pErr, maxerr, max_colname, minerr, min_colname.
  split; [exact HpErr|]. split; [exact Hmax|]. split; [exact Hmin|].
  split; [exact Hhi | exact Hlo].
Defined.

Lemma select_opens_tasks_file_as_written_witness :
  let w := py.mkWorld (<["run/setup.xml" := py.XmlFile demo.setup_doc]>
                         (<["run/tasks.xml" := py.XmlFile demo.tasks_doc]> ∅)) [] in
  rra.select_rra_task_weights 5 "run/setup.xml" (Some demo.tracked) None 1 1.5 "rra" w
  = (Raise IOError, w).
Proof.
  intros w.
  apply (select_opens_tasks_file_as_written 5 "run/setup.xml" demo.tracked None 1 1.5
           "rra" w demo.setup_doc " tasks.xml " "results"
           ([0%nat], etree.Element "RRATool" [("name", "rra")] None
              [demo.leaf "task_set_file" " tasks.xml ";
               demo.leaf "results_directory" "results"]) "rra");
    reflexivity.
Defined.

(** ** Writing the task weights *)

Section weights_writer.
Context `{py.Runtime}.

Implicit Types (e c d cmcts : etree.element) (cs : list etree.element).
Implicit Types (x y task weight objects : etree.position * etree.element).
Implicit Types (p q base : etree.position) (tw : list float) (names : list string).

Lemma get_at_app p q e : etree.get_at (p ++ q) e = etree.get_at p e ≫= etree.get_at q.
Proof.
  revert e. induction p as [|i p IH]; intros e; [reflexivity|].
  cbn [app etree.get_at]. destruct (etree.children e !! i) as [c|]; [apply IH | reflexivity].
Qed.

Lemma get_at_alter_same (f : etree.element → etree.element) p e :
  etree.get_at p (etree.alter_at f p e) = f <$> etree.get_at p e.
Proof.
  revert e. induction p as [|i p IH]; intros e; [reflexivity|].
  cbn [etree.get_at]. rewrite children_alter_below, list_lookup_alter_eq.
  destruct (etree.children e !! i) as [c|]; [apply IH | reflexivity].
Qed.

Lemma get_at_alter_attrib v p q e :
  etree.attrib <$> etree.get_at q (etree.alter_at (etree.set_text v) p e)
  = etree.attrib <$> etree.get_at q e.
Proof.
  revert p e. induction q as [|j q IH]; intros p e.
  - destruct p as [|i p]; destruct e; reflexivity.
  - destruct p as [|i p].
    + cbn [etree.alter_at etree.get_at]. rewrite children_set_text. reflexivity.
    + cbn [etree.get_at]. rewrite children_alter_below.
      destruct (decide (j = i)) as [->|Hji].
      * rewrite list_lookup_alter_eq.
        destruct (etree.children e !! i) as [c|];
          cbn [fmap option_fmap option_map mbind option_bind]; [apply IH | reflexivity].
      * rewrite list_lookup_alter_ne by congruence. reflexivity.
Qed.

Lemma find_from_get_at t i cs x :
  etree.find_from t i cs = Some x →
  ∃ k, x.1 = [(i + k)%nat] ∧ cs !! k = Some x.2 ∧ etree.tag x.2 = t.
Proof.
  revert i. induction cs as [|c cs IH]; intros i Hfind; [discriminate Hfind|].
  cbn [etree.find_from] in Hfind. destruct (String.eqb_spec (etree.tag c) t) as [Ht|_].
  - injection Hfind as <-. exists 0%nat. split; [cbn; f_equal; lia|]. split; [reflexivity|exact Ht].
  - destruct (IH (S i) Hfind) as (k & Hpos & Hk & Ht). exists (S k).
    split; [rewrite Hpos; f_equal; lia|]. split; assumption.
Qed.

Lemma find_get_at t e x :
  etree.find t e = Some x →
  etree.get_at x.1 e = Some x.2 ∧ etree.tag x.2 = t ∧ ∃ k, x.1 = [k].
Proof.
  intros Hfind. apply find_from_get_at in Hfind as (k & Hpos & Hk & Ht).
  cbn [Nat.add] in Hpos. rewrite Hpos. cbn [etree.get_at]. rewrite Hk. split; [reflexivity|]. split; [exact Ht|eauto].
Qed.

Lemma walk_position_head e y : y ∈ etree.walk e → ∃ k p, y.1 = k :: p.
Proof.
  rewrite walk_children. intros Hy.
  destruct (walk_from_get_at (etree.children e)
              ltac:(apply List.Forall_forall; intros c _ z; apply walk_get_at) 0%nat y Hy)
    as (k & p & -> & _).
  eauto.
Qed.

(** Every element of a walk is at another position. *)
Lemma walk_from_positions cs :
  Forall (fun c => NoDup (map fst (etree.walk c))) cs →
  ∀ i, NoDup (map fst (etree.walk_from i cs))
       ∧ ∀ p, p ∈ map fst (etree.walk_from i cs) → ∃ k p', p = (i + k)%nat :: p'.
Proof.
  induction 1 as [|c cs Hc _ IH]; intros i.
  - split; [constructor|]. intros p Hp. inversion Hp.
  - destruct (IH (S i)) as [IHnd IHhead].
    assert (Hhead : ∀ p, p ∈ map fst (etree.walk_from i (c :: cs)) →
                      ∃ k p', p = (i + k)%nat :: p').
    { intros p Hp. cbn [etree.walk_from map] in Hp. rewrite map_app, map_map in Hp.
      apply elem_of_cons in Hp as [->|Hp]; [exists 0%nat, []; cbn; f_equal; lia|].
      apply elem_of_app in Hp as [Hp|Hp].
      - apply list_elem_of_In, in_map_iff in Hp as (z & <- & _).
        exists 0%nat, z.1. cbn. f_equal. lia.
      - destruct (IHhead p Hp) as (k & p' & ->). exists (S k), p'. f_equal. lia. }
    split; [|exact Hhead].
    cbn [etree.walk_from map]. rewrite map_app, map_map. apply NoDup_cons. split.
    + intros Hin. apply elem_of_app in Hin as [Hin|Hin].
      * apply list_elem_of_In, in_map_iff in Hin as (z & Hz & H1). cbn in Hz.
        injection Hz as Hz. apply list_elem_of_In, walk_position_head in H1 as (k & p' & Hk).
        congruence.
      * destruct (IHhead _ Hin) as (k & p' & Hk). injection Hk as Hk _. lia.
    + apply NoDup_app. split; [|split; [|exact IHnd]].
      * change (fun x => (etree.under i x).1) with (fun x : etree.position * etree.element => i :: x.1).
        rewrite <- (map_map fst (cons i)).
        apply (NoDup_fmap_2 (cons i)), Hc.
      * intros p Hp Hp'. apply list_elem_of_In, in_map_iff in Hp as (z & <- & _).
        destruct (IHhead _ Hp') as (k & p' & Hk). cbn in Hk. injection Hk as Hk _. lia.
Qed.

Lemma walk_positions e : NoDup (map fst (etree.walk e)).
Proof.
  induction e as [t a tx cs IH] using element_nested_ind.
  rewrite walk_children. cbn [etree.children]. apply (walk_from_positions cs IH 0%nat).
Qed.

Lemma findall_positions t e : NoDup (map fst (etree.findall t e)).
Proof.
  unfold etree.findall. pose proof (walk_positions e) as Hnd.
  induction (etree.walk e) as [|y l IH]; [constructor|].
  cbn [map] in Hnd. apply NoDup_cons in Hnd as [Hy Hnd]. cbn [List.filter].
  destruct (etree.has_tag t y); [|apply IH, Hnd].
  cbn [map]. apply NoDup_cons. split; [|apply IH, Hnd].
  intros Hin. apply Hy. apply list_elem_of_In, in_map_iff in Hin as (z & Hz & Hin).
  apply filter_In in Hin as [Hin _]. apply list_elem_of_In, in_map_iff. eauto.
Qed.

Lemma for_each_app {A S} (body : S → A → result S) (xs ys : list A) (acc : S) :
  for_each body (xs ++ ys) acc = for_each body xs acc ≫= for_each body ys.
Proof.
  revert acc. induction xs as [|x xs IH]; intros acc; [reflexivity|].
  cbn [app for_each]. destruct (body acc x) as [acc'|]; [apply IH | reflexivity].
Qed.

(** One step of the writer leaves the document alone or assigns the
    text of the weight element of a task that is named in [names]. *)
Lemma write_task_Return tw names fmt base d task d' :
  rra.write_task tw names fmt base d task = Return d' →
  d' = d
  ∨ ∃ name i wi weight,
      etree.lookup_attrib "name" (etree.attrib task.2) = Return name
      ∧ str.mem name names = true
      ∧ str.index name names = Return i ∧ tw !! i = Some wi
      ∧ etree.find "weight" task.2 = Some weight
      ∧ d' = etree.alter_at (etree.set_text (fmt wi)) (base ++ task.1 ++ weight.1) d.
Proof.
  unfold rra.write_task, rra.item, etree.some_object.
  destruct (etree.lookup_attrib "name" (etree.attrib task.2)) as [name|] eqn:Hname;
    [|discriminate].
  cbn [mbind result_bind].
  destruct (str.mem name names) eqn:Hmem; [|intros [= <-]; left; reflexivity].
  destruct (str.index name names) as [i|] eqn:Hi; [|discriminate].
  cbn [mbind result_bind].
  destruct (tw !! i) as [wi|] eqn:Hwi; [|discriminate]. cbn [mbind result_bind].
  destruct (etree.find "weight" task.2) as [weight|] eqn:Hweight; [|discriminate].
  cbn [mbind result_bind]. intros [= <-]. right. exists name, i, wi, weight.
  repeat split; assumption.
Qed.

(** The loop of the writer over the tasks [tasks]: it changes no tag
    and no attribute, and no text but those of the weight elements of
    the tasks. *)
Lemma write_tasks_frame tw names fmt base tasks d d' :
  for_each (rra.write_task tw names fmt base) tasks d = Return d' →
  ∀ q,
    etree.tag <$> etree.get_at q d' = etree.tag <$> etree.get_at q d
    ∧ etree.attrib <$> etree.get_at q d' = etree.attrib <$> etree.get_at q d
    ∧ ((∀ task name weight,
          task ∈ tasks →
          etree.lookup_attrib "name" (etree.attrib task.2) = Return name →
          str.mem name names = true →
          etree.find "weight" task.2 = Some weight →
          q ≠ base ++ task.1 ++ weight.1) →
       etree.text <$> etree.get_at q d' = etree.text <$> etree.get_at q d).
Proof.
  revert d. induction tasks as [|task tasks IH]; intros d Hrun q.
  - injection Hrun as <-. split; [reflexivity|]. split; reflexivity.
  - cbn [for_each] in Hrun.
    destruct (rra.write_task tw names fmt base d task) as [d1|] eqn:Hstep;
      [|discriminate Hrun].
    cbn [mbind result_bind] in Hrun.
    destruct (IH d1 Hrun q) as (Htag & Hattrib & Htext).
    assert (Hstep' :
      etree.tag <$> etree.get_at q d1 = etree.tag <$> etree.get_at q d
      ∧ etree.attrib <$> etree.get_at q d1 = etree.attrib <$> etree.get_at q d
      ∧ ((∀ name weight,
            etree.lookup_attrib "name" (etree.attrib task.2) = Return name →
            str.mem name names = true →
            etree.find "weight" task.2 = Some weight →
            q ≠ base ++ task.1 ++ weight.1) →
         etree.text <$> etree.get_at q d1 = etree.text <$> etree.get_at q d)).
    { apply write_task_Return in Hstep
        as [->|(name & i & wi & weight & Hname & Hmem & _ & _ & Hweight & ->)].
      - split; [reflexivity|]. split; reflexivity.
      - split; [apply get_at_alter|]. split; [apply get_at_alter_attrib|].
        intros Hq. apply get_at_alter. exact (Hq name weight Hname Hmem Hweight). }
    destruct Hstep' as (Htag1 & Hattrib1 & Htext1).
    split; [congruence|]. split; [congruence|]. intros Hq.
    rewrite Htext, Htext1; [reflexivity| |].
    + intros name weight. apply Hq. left.
    + intros t name wt Ht. apply Hq. right. exact Ht.
Qed.

Lemma write_task_weights_run tw tasks_fpath names do_round w :
  rra.write_task_weights_to_file tw tasks_fpath names do_round w
  = match py.files w !! tasks_fpath with
    | Some (py.XmlFile cmcts) =>
        match etree.find_below "objects" cmcts with
        | None => (Raise AttributeError, w)
        | Some objects =>
            match for_each (rra.write_task tw names
                              (if do_round then py.format_i else py.format_f) objects.1)
                           (etree.findall "CMC_Joint" objects.2) cmcts with
            | Return cmcts' =>
                (Return tt,
                 py.mkWorld (<[tasks_fpath := py.XmlFile cmcts']> (py.files w))
                            (py.events w ++ [py.EvWriteXml tasks_fpath cmcts']))
            | Raise e => (Raise e, w)
            end
        end
    | _ => (Raise IOError, w)
    end.
Proof.
  unfold rra.write_task_weights_to_file, mbind, M_bind, py.bind, py.parse, py.lift,
    py.write.
  destruct (py.files w !! tasks_fpath) as [[cmcts|ls|]|]; try reflexivity.
  destruct (etree.find_below "objects" cmcts) as [objects|]; [|reflexivity].
  cbn [etree.some_object].
  destruct (for_each _ _ cmcts); reflexivity.
Qed.

(** X16: write_task_weights_to_file either raises and changes nothing,
    or writes the tasks file once, with a document that has the tags and
    the attributes of the document read and in which no text has changed
    but those of the weight elements of the CMC_Joint tasks below the
    first objects element whose names are in task_names. *)
Theorem write_task_weights_changes_weights_only tw tasks_fpath names do_round w :
  match rra.write_task_weights_to_file tw tasks_fpath names do_round w with
  | (Raise _, w') => w' = w
  | (Return _, w') =>
      ∃ cmcts cmcts' objects,
        py.files w !! tasks_fpath = Some (py.XmlFile cmcts)
        ∧ etree.find_below "objects" cmcts = Some objects
        ∧ w' = py.mkWorld (<[tasks_fpath := py.XmlFile cmcts']> (py.files w))
                          (py.events w ++ [py.EvWriteXml tasks_fpath cmcts'])
        ∧ ∀ q,
            etree.tag <$> etree.get_at q cmcts' = etree.tag <$> etree.get_at q cmcts
            ∧ etree.attrib <$> etree.get_at q cmcts'
              = etree.attrib <$> etree.get_at q cmcts
            ∧ ((∀ task name weight,
                  task ∈ etree.findall "CMC_Joint" objects.2 →
                  etree.lookup_attrib "name" (etree.attrib task.2) = Return name →
                  str.mem name names = true →
                  etree.find "weight" task.2 = Some weight →
                  q ≠ objects.1 ++ task.1 ++ weight.1) →
               etree.text <$> etree.get_at q cmcts' = etree.text <$> etree.get_at q cmcts)
  end.
Proof.
  rewrite write_task_weights_run.
  destruct (py.files w !! tasks_fpath) as [[cmcts|ls|]|] eqn:Hfile; try reflexivity.
  destruct (etree.find_below "objects" cmcts) as [objects|] eqn:Hobjects; [|reflexivity].
  destruct (for_each _ _ cmcts) as [cmcts'|] eqn:Hrun; [|reflexivity].
  exists cmcts, cmcts', objects. split; [reflexivity|]. split; [exact Hobjects|].
  split; [reflexivity|]. exact (write_tasks_frame _ _ _ _ _ _ _ Hrun).
Qed.

(** The loop of the writer leaves the formatted weight in the weight
    element of a task named in [names]. *)
Lemma write_tasks_value tw names fmt cmcts cmcts' objects task name i wi weight :
  for_each (rra.write_task tw names fmt objects.1)
           (etree.findall "CMC_Joint" objects.2) cmcts = Return cmcts' →
  objects ∈ etree.walk cmcts →
  task ∈ etree.findall "CMC_Joint" objects.2 →
  etree.lookup_attrib "name" (etree.attrib task.2) = Return name →
  str.index name names = Return i →
  tw !! i = Some wi →
  etree.find "weight" task.2 = Some weight →
  etree.text <$> etree.get_at (objects.1 ++ task.1 ++ weight.1) cmcts'
  = Some (Some (fmt wi)).
Proof.
  intros Hloop Hin Htask Hname Hi Hwi Hweight.
  set (P := objects.1 ++ task.1 ++ weight.1).
  assert (HP : etree.get_at P cmcts = Some weight.2).
  { subst P. rewrite get_at_app, (walk_get_at _ _ Hin). cbn [mbind option_bind].
    assert (Htw : task ∈ etree.walk objects.2).
    { apply list_elem_of_In in Htask. apply filter_In in Htask as [Ht _].
      apply list_elem_of_In, Ht. }
    rewrite get_at_app, (walk_get_at _ _ Htw). cbn [mbind option_bind].
    apply find_get_at in Hweight as [Hw _]. exact Hw. }
  apply list_elem_of_split in Htask as (pre & post & Hsplit).
  rewrite Hsplit, for_each_app in Hloop.
  destruct (for_each _ pre cmcts) as [d1|] eqn:Hpre; [|discriminate Hloop].
  cbn [mbind result_bind for_each] in Hloop.
  assert (Hstep : rra.write_task tw names fmt objects.1 d1 task
                  = Return (etree.alter_at (etree.set_text (fmt wi)) P d1)).
  { unfold rra.write_task. rewrite Hname. cbn [mbind result_bind].
    assert (Hmem : str.mem name names = true).
    { apply mem_of_elem. eapply list_elem_of_lookup_2, index_Return_lookup, Hi. }
    rewrite Hmem, Hi. cbn [mbind result_bind]. rewrite (item_lookup _ _ _ Hwi).
    cbn [mbind result_bind]. rewrite Hweight. reflexivity. }
  rewrite Hstep in Hloop. cbn [mbind result_bind] in Hloop.
  destruct (write_tasks_frame _ _ _ _ _ _ _ Hloop P) as (_ & _ & Htext).
  rewrite Htext.
  - rewrite get_at_alter_same.
    destruct (write_tasks_frame _ _ _ _ _ _ _ Hpre P) as (Htag & _ & _).
    rewrite HP in Htag. destruct (etree.get_at P d1) as [c|]; [|discriminate Htag].
    cbn. rewrite text_set_text. reflexivity.
  - intros t n wt Ht _ _ Hwt Heq. subst P.
    apply app_inv_head in Heq.
    apply find_get_at in Hweight as (_ & _ & k & Hk).
    apply find_get_at in Hwt as (_ & _ & k' & Hk').
    rewrite Hk, Hk' in Heq. apply app_inj_tail in Heq as [Heq _].
    pose proof (findall_positions "CMC_Joint" objects.2) as Hnd.
    rewrite Hsplit, map_app in Hnd. cbn [map] in Hnd.
    apply NoDup_app in Hnd as (_ & _ & Hnd). apply NoDup_cons in Hnd as [Hnotin _].
    apply Hnotin. rewrite Heq. apply list_elem_of_In, in_map, list_elem_of_In, Ht.
Qed.

Lemma find_below_walk t e x : etree.find_below t e = Some x → x ∈ etree.walk e.
Proof.
  unfold etree.find_below. intros Hx.
  destruct (etree.findall t e) as [|o l] eqn:Hall; [discriminate Hx|].
  injection Hx as ->.
  assert (Ho : In x (etree.findall t e)) by (rewrite Hall; left; reflexivity).
  apply filter_In in Ho as [Ho _]. apply list_elem_of_In, Ho.
Qed.

(** X17: after write_task_weights_to_file has returned, the weight
    element of every CMC_Joint task below the objects element whose name
    is in task_names holds the weight found at the position of that name,
    formatted with '%f' (with '%i' when do_round is set). *)
Theorem write_task_weights_values tw tasks_fpath names do_round w w' cmcts objects
    task name i wi weight :
  rra.write_task_weights_to_file tw tasks_fpath names do_round w = (Return tt, w') →
  py.files w !! tasks_fpath = Some (py.XmlFile cmcts) →
  etree.find_below "objects" cmcts = Some objects →
  task ∈ etree.findall "CMC_Joint" objects.2 →
  etree.lookup_attrib "name" (etree.attrib task.2) = Return name →
  str.index name names = Return i →
  tw !! i = Some wi →
  etree.find "weight" task.2 = Some weight →
  ∃ cmcts',
    py.files w' !! tasks_fpath = Some (py.XmlFile cmcts')
    ∧ etree.text <$> etree.get_at (objects.1 ++ task.1 ++ weight.1) cmcts'
      = Some (Some ((if do_round then py.format_i else py.format_f) wi)).
Proof.
  intros Hrun Hfile Hobjects Htask Hname Hi Hwi Hweight.
  rewrite write_task_weights_run, Hfile, Hobjects in Hrun.
  destruct (for_each _ _ cmcts) as [cmcts'|] eqn:Hloop; [|discriminate Hrun].
  injection Hrun as <-. exists cmcts'. split; [cbn; apply lookup_insert_eq|].
  exact (write_tasks_value _ _ _ _ _ _ _ _ _ _ _ Hloop (find_below_walk _ _ _ Hobjects)
           Htask Hname Hi Hwi Hweight).
Qed.

End weights_writer.

Lemma write_task_weights_values_witness :
  ∃ cmcts',
    py.files (rra.write_task_weights_to_file [13.75; 20]%float "tasks.xml" demo.tracked
                false demo.world).2 !! "tasks.xml"
    = Some (py.XmlFile cmcts')
    ∧ etree.text <$> etree.get_at [0; 1; 0; 1]%nat cmcts' = Some (Some "13.750000").
Proof.
  set (objects := ([0; 1]%nat,
                   etree.Element "objects" [] None
                     [demo.joint "pelvis_tx" "10"; demo.joint "hip_flexion_r" "20.5";
                      demo.joint "knee_angle_r" "5"])).
  set (task := ([0%nat], demo.joint "pelvis_tx" "10")).
  assert (Hrun : rra.write_task_weights_to_file [13.75; 20]%float "tasks.xml"
                   demo.tracked false demo.world
                 = (Return tt,
                    (rra.write_task_weights_to_file [13.75; 20]%float "tasks.xml"
                       demo.tracked false demo.world).2))
    by (vm_compute; reflexivity).
  assert (Htask : task ∈ etree.findall "CMC_Joint" objects.2).
  { vm_compute. left. }
  exact (write_task_weights_values [13.75; 20]%float "tasks.xml" demo.tracked false
           demo.world _ demo.tasks_doc objects task "pelvis_tx" 0%nat 13.75%float
           ([1%nat], demo.leaf "weight" "10")
           Hrun eq_refl eq_refl Htask eq_refl eq_refl eq_refl eq_refl).
Defined.

(** ** Splitting a path into its parts *)

Section path_parts.

Implicit Types (p h t s x y c : string) (ch : Ascii.ascii).
Implicit Types (comps acc : list string).

Local Abbreviation noslash s := (str.occurs "/" s = false).

Lemma append_cons ch x y : String ch x +:+ y = String ch (x +:+ y).
Proof. reflexivity. Qed.

Lemma append_nil x : "" +:+ x = x.
Proof. reflexivity. Qed.

Lemma length_append x y : String.length (x +:+ y) = (String.length x + String.length y)%nat.
Proof.
  induction x as [|ch x IH]; [reflexivity|].
  rewrite append_cons. cbn [String.length plus]. f_equal. exact IH.
Qed.

Lemma append_assoc x y s : (x +:+ y) +:+ s = x +:+ (y +:+ s).
Proof.
  induction x as [|ch x IH]; [reflexivity|]. rewrite !append_cons. f_equal. exact IH.
Qed.

Lemma noslash_cons ch s :
  noslash (String ch s) ↔ ch ≠ os_path.slash ∧ noslash s.
Proof.
  cbn [str.occurs String.prefix].
  match goal with
  | |- context [Ascii.ascii_dec ?a ch] => destruct (Ascii.ascii_dec a ch) as [E|Hne]
  end.
  - subst ch. split; [|intros [Hc _]; exfalso; apply Hc; reflexivity].
    destruct s; discriminate.
  - cbn [orb]. split; [|intros [_ Hs]; exact Hs].
    intros Hs. split; [|exact Hs]. intros ->. apply Hne. reflexivity.
Qed.

Lemma cut_noslash s : noslash s → os_path.cut s = ("", s).
Proof.
  induction s as [|ch s IH]; [reflexivity|].
  intros [Hch Hs]%noslash_cons. cbn [os_path.cut]. rewrite (IH Hs).
  destruct (Ascii.eqb_spec ch os_path.slash); [contradiction | reflexivity].
Qed.

Lemma cut_app_slash x c :
  noslash c → os_path.cut (x +:+ "/" +:+ c) = (x +:+ "/", c).
Proof.
  intros Hc. induction x as [|ch x IH].
  - rewrite append_nil, append_cons, append_nil. cbn [os_path.cut].
    rewrite (cut_noslash c Hc). reflexivity.
  - rewrite (append_cons ch x ("/" +:+ c)), (append_cons ch x "/").
    cbn [os_path.cut]. rewrite IH. destruct x; reflexivity.
Qed.

(** What [cut] returns in general. *)
Lemma cut_parts p :
  p = (os_path.cut p).1 +:+ (os_path.cut p).2 ∧ noslash (os_path.cut p).2.
Proof.
  induction p as [|ch p [IH1 IH2]]; [split; reflexivity|].
  cbn [os_path.cut]. destruct (os_path.cut p) as [h t]. cbn [fst snd] in *.
  destruct h as [|ch' h].
  - rewrite append_nil in IH1. subst p.
    destruct (Ascii.eqb_spec ch os_path.slash) as [->|Hne]; cbn [fst snd].
    + split; [reflexivity | exact IH2].
    + split; [reflexivity|]. apply noslash_cons. split; assumption.
  - cbn [fst snd]. split; [rewrite IH1 at 1; reflexivity | exact IH2].
Qed.


Lemma rstrip_slashes_prefix s : ∃ r, s = os_path.rstrip_slashes s +:+ r.
Proof.
  induction s as [|ch s [r IH]]; [exists ""; reflexivity|].
  cbn [os_path.rstrip_slashes]. destruct (os_path.rstrip_slashes s) as [|ch' s'].
  - destruct (Ascii.eqb ch os_path.slash).
    + exists (String ch s). reflexivity.
    + exists s. reflexivity.
  - exists r. rewrite append_cons. rewrite IH at 1. reflexivity.
Qed.

Lemma split_parts p :
  (∃ r, p = (os_path.split p).1 +:+ r) ∧ noslash (os_path.split p).2.
Proof.
  unfold os_path.split. destruct (cut_parts p) as [Hp Ht].
  destruct (os_path.cut p) as [h t]. cbn [fst snd] in *.
  destruct (negb (h =? "") && negb (os_path.all_slashes h)); cbn [fst snd].
  - split; [|exact Ht]. destruct (rstrip_slashes_prefix h) as [r Hr].
    exists (r +:+ t). rewrite <- append_assoc, <- Hr. exact Hp.
  - split; [|exact Ht]. exists t. exact Hp.
Qed.

Lemma split_shorter p :
  (os_path.split p).1 ≠ p → (String.length (os_path.split p).1 < String.length p)%nat.
Proof.
  intros Hne. destruct (split_parts p) as [[r Hr] _].
  destruct r as [|ch r].
  - exfalso. apply Hne. rewrite Hr at 2.
    clear. induction (os_path.split p).1 as [|ch s IH]; [reflexivity|].
    rewrite append_cons, <- IH. reflexivity.
  - rewrite Hr at 2. rewrite length_append. cbn [String.length]. lia.
Qed.

Lemma splitall_loop_total fuel path acc :
  (String.length path < fuel)%nat →
  Forall (fun s => noslash s) acc →
  ∃ parts,
    dataman._splitall_loop fuel path acc = Some parts
    ∧ parts ≠ []
    ∧ Forall (fun s => noslash s) (tail parts)
    ∧ (∀ fuel', (String.length path < fuel')%nat →
         dataman._splitall_loop fuel' path acc = Some parts).
Proof.
  revert path acc. induction fuel as [|fuel IH]; intros path acc Hlen Hacc; [lia|].
  cbn [dataman._splitall_loop]. cbv zeta.
  destruct (String.eqb_spec (os_path.split path).1 path) as [Ehead|Nhead].
  - eexists. split; [reflexivity|]. split; [discriminate|]. split; [exact Hacc|].
    intros [|fuel'] Hlen'; [lia|]. cbn [dataman._splitall_loop]. cbv zeta.
    destruct (String.eqb_spec (os_path.split path).1 path); [reflexivity|contradiction].
  - destruct (String.eqb_spec (os_path.split path).2 path) as [Etail|Ntail].
    + eexists. split; [reflexivity|]. split; [discriminate|]. split; [exact Hacc|].
      intros [|fuel'] Hlen'; [lia|]. cbn [dataman._splitall_loop]. cbv zeta.
      destruct (String.eqb_spec (os_path.split path).1 path); [contradiction|].
      destruct (String.eqb_spec (os_path.split path).2 path); [reflexivity|contradiction].
    + pose proof (split_shorter path Nhead) as Hshort.
      destruct (IH (os_path.split path).1 ((os_path.split path).2 :: acc))
        as (parts & Hrun & Hne & Htail & Hany).
      * lia.
      * constructor; [apply split_parts | exact Hacc].
      * exists parts. split; [exact Hrun|]. split; [exact Hne|]. split; [exact Htail|].
        intros [|fuel'] Hlen'; [lia|]. cbn [dataman._splitall_loop]. cbv zeta.
        destruct (String.eqb_spec (os_path.split path).1 path); [contradiction|].
        destruct (String.eqb_spec (os_path.split path).2 path); [contradiction|].
        apply Hany. lia.
Qed.

(** X18: the loop of _splitall ends for every path, after at most as
    many iterations as the path has characters plus one, with a list
    that is not empty and in which no part but the first contains a
    separator. *)
Theorem splitall_terminates path :
  ∃ allparts,
    (∀ fuel, (String.length path < fuel)%nat →
       dataman._splitall fuel path = Some allparts)
    ∧ allparts ≠ []
    ∧ Forall (fun part => str.occurs "/" part = false) (tail allparts).
Proof.
  destruct (splitall_loop_total (S (String.length path)) path [])
    as (parts & Hrun & Hne & Htail & Hany); [lia | constructor |].
  exists parts. split; [exact Hany|]. split; [exact Hne | exact Htail].
Qed.

(** Names that can be joined and split again: not empty, without a
    separator. *)
Local Abbreviation name_like :=
  (fun c : string => c ≠ "" ∧ str.occurs "/" c = false).

Lemma noslash_rstrip s : noslash s → os_path.rstrip_slashes s = s.
Proof.
  induction s as [|ch s IH]; [reflexivity|].
  intros [Hch Hs]%noslash_cons. cbn [os_path.rstrip_slashes]. rewrite (IH Hs).
  destruct s; [|reflexivity].
  destruct (Ascii.eqb_spec ch os_path.slash); [contradiction | reflexivity].
Qed.

Lemma rstrip_app_name y c :
  name_like c → os_path.rstrip_slashes (y +:+ c) = y +:+ c.
Proof.
  intros [Hne Hc]. induction y as [|ch y IH]; [apply noslash_rstrip, Hc|].
  rewrite append_cons. cbn [os_path.rstrip_slashes]. rewrite IH.
  destruct (y +:+ c) eqn:Hyc; [|reflexivity].
  destruct y; [rewrite append_nil in Hyc; contradiction | discriminate Hyc].
Qed.

Lemma rstrip_snoc_slash x :
  os_path.rstrip_slashes (x +:+ "/") = os_path.rstrip_slashes x.
Proof.
  induction x as [|ch x IH]; [reflexivity|].
  rewrite append_cons. cbn [os_path.rstrip_slashes]. rewrite IH. reflexivity.
Qed.

Lemma all_slashes_app_name y c s :
  name_like c → os_path.all_slashes (y +:+ c +:+ s) = false.
Proof.
  intros [Hne Hc]. induction y as [|ch y IH].
  - rewrite append_nil. destruct c as [|ch c]; [contradiction|].
    apply noslash_cons in Hc as [Hch _]. rewrite append_cons. cbn [os_path.all_slashes].
    destruct (Ascii.eqb_spec ch os_path.slash); [contradiction | reflexivity].
  - rewrite append_cons. cbn [os_path.all_slashes]. rewrite IH. apply andb_false_r.
Qed.

Lemma eqb_longer x s : s ≠ "" → String.eqb x (x +:+ s) = false.
Proof.
  intros Hs. apply String.eqb_neq. intros Heq.
  apply (f_equal String.length) in Heq. rewrite length_append in Heq.
  destruct s; [contradiction|]. cbn [String.length] in Heq. lia.
Qed.

Lemma eqb_tail_longer x s : x ≠ "" → String.eqb s (x +:+ s) = false.
Proof.
  intros Hx. apply String.eqb_neq. intros Heq.
  apply (f_equal String.length) in Heq. rewrite length_append in Heq.
  destruct x; [contradiction|]. cbn [String.length] in Heq. lia.
Qed.

(** One iteration on a path that ends with two names. *)
Lemma splitall_loop_step fuel y c c' acc :
  name_like c → name_like c' →
  dataman._splitall_loop (S fuel) ((y +:+ c) +:+ "/" +:+ c') acc
  = dataman._splitall_loop fuel (y +:+ c) (c' :: acc).
Proof.
  intros Hc Hc'. cbn [dataman._splitall_loop]. cbv zeta.
  assert (Hsplit : os_path.split ((y +:+ c) +:+ "/" +:+ c') = (y +:+ c, c')).
  { unfold os_path.split. rewrite (cut_app_slash _ _ (proj2 Hc')).
    rewrite append_assoc, (all_slashes_app_name y c "/" Hc), andb_true_r.
    rewrite <- append_assoc.
    destruct (String.eqb_spec ((y +:+ c) +:+ "/") "") as [E|_].
    - destruct (y +:+ c); discriminate E.
    - cbn [negb]. rewrite rstrip_snoc_slash, (rstrip_app_name y c Hc). reflexivity. }
  rewrite Hsplit. cbn [fst snd].
  rewrite eqb_longer by discriminate.
  rewrite <- append_assoc, eqb_tail_longer; [reflexivity|].
  destruct (y +:+ c); discriminate.
Qed.

Lemma join_slash_snoc comps c :
  comps ≠ [] →
  os_path.join_slash (comps ++ [c]) = os_path.join_slash comps +:+ "/" +:+ c.
Proof.
  induction comps as [|a comps IH]; [contradiction|]. intros _.
  destruct comps as [|b comps]; [reflexivity|].
  change (os_path.join_slash ((a :: b :: comps) ++ [c]))
    with (a +:+ "/" +:+ os_path.join_slash ((b :: comps) ++ [c])).
  rewrite IH by discriminate.
  change (os_path.join_slash (a :: b :: comps))
    with (a +:+ "/" +:+ os_path.join_slash (b :: comps)).
  rewrite !append_assoc. reflexivity.
Qed.

(** A joined path ends with its last name. *)
Lemma join_slash_last root comps c :
  ∃ y, root +:+ os_path.join_slash (comps ++ [c]) = y +:+ c.
Proof.
  destruct comps as [|a comps].
  - exists root. reflexivity.
  - rewrite join_slash_snoc by discriminate.
    exists (root +:+ os_path.join_slash (a :: comps) +:+ "/").
    rewrite !append_assoc. reflexivity.
Qed.

Lemma splitall_loop_joined root comps :
  ∀ fuel acc c0,
    Forall name_like (c0 :: comps) →
    (length comps ≤ fuel)%nat →
    dataman._splitall_loop fuel (root +:+ os_path.join_slash (c0 :: comps)) acc
    = dataman._splitall_loop (fuel - length comps) (root +:+ c0) (comps ++ acc).
Proof.
  induction comps as [|c comps IH] using rev_ind; intros fuel acc c0 Hgood Hfuel.
  - cbn [length app os_path.join_slash]. rewrite Nat.sub_0_r. reflexivity.
  - rewrite length_app in Hfuel |- *. cbn [length] in Hfuel |- *.
    destruct fuel as [|fuel]; [lia|].
    rewrite app_comm_cons, join_slash_snoc by discriminate.
    apply Forall_cons in Hgood as [H0 Hgood]. apply Forall_app in Hgood as [Hcomps Hc].
    apply Forall_inv in Hc.
    assert (Hlast : ∃ y l, root +:+ os_path.join_slash (c0 :: comps) = y +:+ l
                           ∧ name_like l).
    { destruct comps as [|b comps _] using rev_ind.
      - exists root, c0. split; [reflexivity | exact H0].
      - rewrite app_comm_cons. destruct (join_slash_last root (c0 :: comps) b) as [y Hy].
        exists y, b. split; [exact Hy|]. apply Forall_app in Hcomps as [_ Hb].
        apply Forall_inv in Hb. exact Hb. }
    destruct Hlast as (y & l & Hy & Hl).
    rewrite <- append_assoc, Hy, (splitall_loop_step fuel y l c acc Hl Hc), <- Hy.
    rewrite IH; [|constructor; assumption|lia].
    replace (S fuel - (length comps + 1))%nat with (fuel - length comps)%nat by lia.
    rewrite <- app_assoc. reflexivity.
Qed.

(** X19: _splitall undoes joining names with the separator: the path
    made of names (not empty, without separator) joined by '/' is split
    into these names, and with a leading '/' into '/' followed by
    them. *)
Theorem splitall_of_joined_names comps fuel :
  comps ≠ [] →
  Forall (fun c => c ≠ "" ∧ str.occurs "/" c = false) comps →
  (length comps < fuel)%nat →
  dataman._splitall fuel (os_path.join_slash comps) = Some comps
  ∧ dataman._splitall (S fuel) ("/" +:+ os_path.join_slash comps) = Some ("/" :: comps).
Proof.
  intros Hne Hgood Hfuel. destruct comps as [|c0 comps]; [contradiction|].
  cbn [length] in Hfuel. unfold dataman._splitall. split.
  - rewrite <- (append_nil (os_path.join_slash (c0 :: comps))).
    rewrite (splitall_loop_joined "" comps fuel [] c0 Hgood) by lia.
    rewrite append_nil, app_nil_r.
    destruct (fuel - length comps)%nat as [|k] eqn:Hk; [lia|].
    cbn [dataman._splitall_loop]. cbv zeta.
    apply Forall_cons in Hgood as [[H0 Hs] _].
    assert (Hsplit : os_path.split c0 = ("", c0))
      by (unfold os_path.split; rewrite (cut_noslash c0 Hs); reflexivity).
    rewrite Hsplit. cbn [fst snd].
    destruct (String.eqb_spec "" c0) as [E|_]; [congruence|].
    rewrite String.eqb_refl. reflexivity.
  - rewrite (splitall_loop_joined "/" comps (S fuel) [] c0 Hgood) by lia.
    rewrite app_nil_r.
    destruct (S fuel - length comps)%nat as [|[|k]] eqn:Hk; [lia|lia|].
    apply Forall_cons in Hgood as [[H0 Hs] _].
    assert (Hsplit : os_path.split ("/" +:+ c0) = ("/", c0)).
    { unfold os_path.split.
      rewrite <- (append_nil ("/" +:+ c0)), (cut_app_slash "" c0 Hs). reflexivity. }
    cbn [dataman._splitall_loop]. cbv zeta. rewrite Hsplit. cbn [fst snd].
    rewrite (eqb_longer "/" c0 H0), (eqb_tail_longer "/" c0) by discriminate.
    reflexivity.
Qed.

End path_parts.

Example splitall_ex : dataman._splitall 10 "a//b/c/" = Some ["a"; "b"; "c"; ""].
Proof. reflexivity. Qed.

Lemma splitall_of_joined_names_witness :
  dataman._splitall 4 "usr/local/lib" = Some ["usr"; "local"; "lib"]
  ∧ dataman._splitall 5 "/usr/local/lib" = Some ["/"; "usr"; "local"; "lib"].
Proof.
  assert (Hgood : Forall (fun c => c ≠ "" ∧ str.occurs "/" c = false)
                         ["usr"; "local"; "lib"]).
  { repeat constructor; discriminate. }
  assert (Hne : ["usr"; "local"; "lib"] ≠ []) by discriminate.
  assert (Hfuel : (length ["usr"; "local"; "lib"] < 4)%nat) by (cbn; lia).
  exact (splitall_of_joined_names ["usr"; "local"; "lib"] 4 Hne Hgood Hfuel).
Defined.

(** ** Reading back what was written *)

Section write_then_read.
Context `{py.Runtime}.

Implicit Types (e c d cmcts : etree.element) (cs : list etree.element).
Implicit Types (y task weight objects : etree.position * etree.element).
Implicit Types (p q base : etree.position) (tw : list float) (names : list string).

(** The element at a position below the root is found by the walk. *)
Lemma walk_from_elem cs :
  ∀ i k c, cs !! k = Some c →
    ((i + k)%nat :: [], c) ∈ etree.walk_from i cs
    ∧ ∀ y, y ∈ etree.walk c → ((i + k)%nat :: y.1, y.2) ∈ etree.walk_from i cs.
Proof.
  induction cs as [|c0 cs IH]; intros i k c Hk; [discriminate Hk|].
  cbn [etree.walk_from]. destruct k as [|k].
  - injection Hk as ->. rewrite Nat.add_0_r. split; [left|].
    intros y Hy. right. apply elem_of_app. left.
    apply list_elem_of_In, in_map_iff. exists y. split; [reflexivity|].
    apply list_elem_of_In, Hy.
  - destruct (IH (S i) k c Hk) as [Hhere Hbelow].
    replace (i + S k)%nat with (S i + k)%nat by lia. split.
    + right. apply elem_of_app. right. exact Hhere.
    + intros y Hy. right. apply elem_of_app. right. apply Hbelow, Hy.
Qed.

Lemma get_at_walk p e c :
  p ≠ [] → etree.get_at p e = Some c → (p, c) ∈ etree.walk e.
Proof.
  revert e. induction p as [|i p IH]; intros e Hne Hget; [contradiction|].
  cbn [etree.get_at] in Hget.
  destruct (etree.children e !! i) as [ci|] eqn:Hi; [|discriminate Hget].
  cbn [mbind option_bind] in Hget. rewrite walk_children.
  destruct (walk_from_elem (etree.children e) 0%nat i ci Hi) as [Hhere Hbelow].
  destruct p as [|j p].
  - injection Hget as <-. exact Hhere.
  - exact (Hbelow (j :: p, c) (IH ci ltac:(discriminate) Hget)).
Qed.

(** [find] looks at the tags of the children only. *)
Lemma find_from_tags t cs cs' :
  map etree.tag cs = map etree.tag cs' →
  ∀ i, fst <$> etree.find_from t i cs = fst <$> etree.find_from t i cs'.
Proof.
  revert cs'. induction cs as [|c cs IH]; intros [|c' cs'] Htags i;
    try discriminate Htags; [reflexivity|].
  cbn [map] in Htags. injection Htags as Htag Htags.
  cbn [etree.find_from]. rewrite Htag.
  destruct (String.eqb (etree.tag c') t); [reflexivity | apply IH, Htags].
Qed.

Lemma children_tags_at p d d' c c' :
  (∀ q, etree.tag <$> etree.get_at q d' = etree.tag <$> etree.get_at q d) →
  etree.get_at p d = Some c → etree.get_at p d' = Some c' →
  map etree.tag (etree.children c') = map etree.tag (etree.children c).
Proof.
  intros Hskel Hc Hc'. apply list_eq. intros k.
  change (map etree.tag) with (fmap (M:=list) etree.tag).
  rewrite !list_lookup_fmap.
  specialize (Hskel (p ++ [k])). rewrite !get_at_app, Hc, Hc' in Hskel.
  cbn [mbind option_bind etree.get_at] in Hskel.
  destruct (etree.children c' !! k), (etree.children c !! k); exact Hskel.
Qed.

(** X22: reading the weights back after they were written gives, for a
    name all of whose CMC_Joint tasks are below the objects element, the
    number that float() reads from the formatted weight: the weight
    passes through '%f' (or '%i'). *)
Theorem write_then_read_back tw tasks_fpath names do_round w w' cmcts objects name i wi
    names' ws w'' j :
  rra.write_task_weights_to_file tw tasks_fpath names do_round w = (Return tt, w') →
  py.files w !! tasks_fpath = Some (py.XmlFile cmcts) →
  etree.find_below "objects" cmcts = Some objects →
  (∀ t, t ∈ etree.findall "CMC_Joint" cmcts →
        etree.lookup_attrib "name" (etree.attrib t.2) = Return name →
        ∃ task, task ∈ etree.findall "CMC_Joint" objects.2 ∧ t.1 = objects.1 ++ task.1) →
  str.index name names = Return i →
  tw !! i = Some wi →
  rra.task_weights_from_file tasks_fpath (Given names') w' = (Return ws, w'') →
  names' !! j = Some name →
  ∃ x, py.float_of_str ((if do_round then py.format_i else py.format_f) wi) = Some x
       ∧ ws !! j = Some x.
Proof.
  intros Hwrite Hfile Hobjects Hbelow Hi Hwi Hread Hj.
  rewrite write_task_weights_run, Hfile, Hobjects in Hwrite.
  set (fmt := if do_round then py.format_i else py.format_f) in *.
  destruct (for_each _ _ cmcts) as [cmcts'|] eqn:Hloop; [|discriminate Hwrite].
  injection Hwrite as <-.
  (* what the reader returns for [name] was read from a task of the new file *)
  rewrite task_weights_from_file_run in Hread. cbn [py.files] in Hread.
  rewrite lookup_insert_eq in Hread.
  destruct (for_each rra.read_task _ ∅) as [fw|] eqn:Hfw; [|discriminate Hread].
  cbn [mbind result_bind] in Hread. injection Hread as Hfill _.
  apply fill_weights_Return in Hfill as (xs & -> & Hxs). cbn [app].
  destruct (Forall2_lookup_l _ _ _ _ _ Hxs Hj) as (x & Hx & Hfwx).
  destruct (read_tasks_sound _ _ _ Hfw name x Hfwx)
    as [Hempty|(task' & Htask' & weight' & s & Hweight' & Hs & Hfloat & Hname')].
  { rewrite lookup_empty in Hempty. discriminate Hempty. }
  exists x. split; [|exact Hx].
  (* the task at the same position of the file that was read *)
  pose proof (write_tasks_frame _ _ _ _ _ _ _ Hloop) as Hframe.
  apply list_elem_of_In, filter_In in Htask' as [Hwalk' Htag'].
  apply list_elem_of_In in Hwalk'. apply String.eqb_eq in Htag'.
  pose proof (walk_get_at _ _ Hwalk') as Hget'.
  destruct (walk_position_head _ _ Hwalk') as (k0 & p0 & Hp0).
  destruct (Hframe task'.1) as (Htag & Hattrib & _).
  rewrite Hget' in Htag, Hattrib.
  destruct (etree.get_at task'.1 cmcts) as [t0|] eqn:Hget0; [|discriminate Htag].
  cbn in Htag, Hattrib. injection Htag as Htag. injection Hattrib as Hattrib.
  assert (Hin0 : (task'.1, t0) ∈ etree.findall "CMC_Joint" cmcts).
  { apply list_elem_of_In, filter_In. split.
    - apply list_elem_of_In, get_at_walk; [rewrite Hp0; discriminate | exact Hget0].
    - apply String.eqb_eq. cbn. congruence. }
  destruct (Hbelow _ Hin0) as (task & Htask & Hpos); [cbn; rewrite <- Hattrib; exact Hname'|].
  cbn [fst] in Hpos.
  assert (Htask2 : task.2 = t0).
  { pose proof (find_below_walk _ _ _ Hobjects) as Ho.
    rewrite Hpos, get_at_app, (walk_get_at _ _ Ho) in Hget0. cbn [mbind option_bind] in Hget0.
    apply list_elem_of_In, filter_In in Htask as [Ht _].
    apply list_elem_of_In in Ht. rewrite (walk_get_at _ _ Ht) in Hget0. congruence. }
  (* its weight element is at the same place *)
  assert (Htags : map etree.tag (etree.children task'.2)
                  = map etree.tag (etree.children task.2)).
  { rewrite Htask2. apply (children_tags_at task'.1 cmcts cmcts');
      [intros q; apply Hframe | exact Hget0 | exact Hget']. }
  pose proof (find_from_tags "weight" _ _ Htags 0%nat) as Hfind.
  fold (etree.find "weight" task'.2) in Hfind. fold (etree.find "weight" task.2) in Hfind.
  rewrite Hweight' in Hfind.
  destruct (etree.find "weight" task.2) as [weight|] eqn:Hweight; [|discriminate Hfind].
  cbn in Hfind. injection Hfind as Hwpos.
  assert (Hname : etree.lookup_attrib "name" (etree.attrib task.2) = Return name)
    by (rewrite Htask2, <- Hattrib; exact Hname').
  pose proof (write_tasks_value tw names fmt cmcts cmcts' objects task name i wi weight
                Hloop (find_below_walk _ _ _ Hobjects) Htask Hname Hi Hwi Hweight)
    as Hvalue.
  rewrite app_assoc, <- Hpos, <- Hwpos, get_at_app, Hget' in Hvalue.
  cbn [mbind option_bind] in Hvalue.
  apply find_get_at in Hweight' as [Hw' _]. rewrite Hw' in Hvalue.
  cbn in Hvalue. rewrite Hs in Hvalue. injection Hvalue as <-. exact Hfloat.
Qed.

End write_then_read.

Lemma write_then_read_back_witness :
  let objects := etree.Element "objects" [] None [demo.joint "knee_angle_r" "1"] in
  let cmcts := etree.Element "CMC_TaskSet" [] None [objects] in
  let w := py.mkWorld (<["tasks.xml" := py.XmlFile cmcts]> ∅) [] in
  let w' := (rra.write_task_weights_to_file [2.5%float] "tasks.xml" ["knee_angle_r"]
               false w).2 in
  rra.task_weights_from_file "tasks.xml" (Given ["knee_angle_r"]) w'
  = (Return [2.5%float], w')
  ∧ ∃ x, py.float_of_str (py.format_f 2.5) = Some x ∧ [2.5%float] !! 0%nat = Some x.
Proof.
  intros objects cmcts w w'.
  assert (Hwrite : rra.write_task_weights_to_file [2.5%float] "tasks.xml"
                     ["knee_angle_r"] false w = (Return tt, w'))
    by (vm_compute; reflexivity).
  assert (Hread : rra.task_weights_from_file "tasks.xml" (Given ["knee_angle_r"]) w'
                  = (Return [2.5%float], w'))
    by (vm_compute; reflexivity).
  split; [exact Hread|].
  apply (write_then_read_back [2.5%float] "tasks.xml" ["knee_angle_r"] false w w' cmcts
           ([0%nat], objects) "knee_angle_r" 0%nat 2.5%float ["knee_angle_r"]
           [2.5%float] w' 0%nat Hwrite).
  - reflexivity.
  - reflexivity.
  - intros t Ht _. apply list_elem_of_In in Ht. cbn in Ht.
    destruct Ht as [<-|[]].
    exists ([0%nat], demo.joint "knee_angle_r" "1"). split; [left | reflexivity].
  - reflexivity.
  - reflexivity.
  - exact Hread.
  - reflexivity.
Defined.

(** ** Weights an iteration leaves alone *)

Section untouched_weights.
Context `{py.Runtime}.

Local Open Scope float_scope.

(** X20: an iteration of the weight adjustment keeps the number of
    weights, and changes neither the weight of a task that has no
    column in the error table nor, for a name listed more than once, a
    weight at a later position of that name. *)
Theorem choose_weights_keeps_other_weights task_names min_max_err max_max_err st :
  np.records (rra.pErr st) ≠ [] →
  NoDup (np.dtype_names (rra.pErr st)) →
  length (rra.task_weights st) = length task_names →
  ∃ tw,
    rra.choose_weights task_names min_max_err max_max_err
      (0.5 * (min_max_err + max_max_err)) st = Return tw
    ∧ length tw = length (rra.task_weights st)
    ∧ (∀ i name,
         task_names !! i = Some name →
         name ∉ np.dtype_names (rra.pErr st) →
         tw !! i = rra.task_weights st !! i)
    ∧ (∀ i j name,
         task_names !! i = Some name → task_names !! j = Some name → (i < j)%nat →
         tw !! j = rra.task_weights st !! j).
Proof.
  intros Hrec Hnd Hlen.
  destruct (choose_weights_columns (rra.pErr st) task_names min_max_err max_max_err
              (np.dtype_names (rra.pErr st)) Hrec Hnd (reflexivity _)
              (rra.task_weights st) Hlen) as (tw & Hrun & Hlen' & Hkeep & _).
  exists tw. split; [exact Hrun|]. split; [exact Hlen'|]. split.
  - intros i name Hi Hname. apply Hkeep. intros c Hc Hidx.
    apply index_Return_lookup in Hidx. apply Hname. congruence.
  - intros i j name Hi Hj Hlt. apply Hkeep. intros c Hc Hidx.
    pose proof (index_Return_lookup _ _ _ Hidx) as Hc'.
    assert (c = name) as -> by congruence.
    assert (Hfirst : ∀ (l : list string) k x n, l !! k = Some x → str.index x l = Return n →
                       (n ≤ k)%nat).
    { clear. induction l as [|y l IH]; intros k x n Hk Hn; [discriminate Hk|].
      cbn [str.index] in Hn. destruct (String.eqb y x) eqn:E.
      - injection Hn as <-. lia.
      - destruct k as [|k]; [cbn in Hk; injection Hk as ->; rewrite String.eqb_refl in E;
                             discriminate E|].
        destruct (str.index x l) as [m|] eqn:Hm; [|discriminate Hn].
        injection Hn as <-. specialize (IH k x m Hk Hm). lia. }
    specialize (Hfirst _ _ _ _ Hi Hidx). lia.
Qed.

End untouched_weights.

Lemma choose_weights_keeps_other_weights_witness :
  ∃ tw,
    rra.choose_weights ["pelvis_tx"; "hip_flexion_r"; "ankle_angle_r"] 1 1.5
      (0.5 * (1 + 1.5)) (rra.mkLoop [10; 20.5; 7]%float demo.table 2 (np.rad2deg 0.002))
    = Return tw
    ∧ tw !! 2%nat = Some 7%float.
Proof.
  set (names := ["pelvis_tx"; "hip_flexion_r"; "ankle_angle_r"]).
  set (st := rra.mkLoop [10; 20.5; 7]%float demo.table 2 (np.rad2deg 0.002)).
  assert (Hrec : np.records (rra.pErr st) ≠ []) by discriminate.
  assert (Hnd : NoDup (np.dtype_names (rra.pErr st))).
  { apply (bool_decide_unpack _). vm_compute. exact I. }
  destruct (choose_weights_keeps_other_weights names 1 1.5 st Hrec Hnd eq_refl)
    as (tw & Hrun & _ & Hkeep & _).
  exists tw. split; [exact Hrun|].
  apply (Hkeep 2%nat "ankle_angle_r" eq_refl).
  apply (bool_decide_unpack _). vm_compute. exact I.
Defined.


(** ** Task names that are no columns *)

Section misspelt_names.
Context `{py.Runtime}.

Implicit Types (w : py.World).

(** X21: when none of the given task names is a column of the error
    table, select_rra_task_weights reads the setup, the weights and the
    table and then raises UnboundLocalError, from max_error; it changes
    nothing. *)
Theorem select_without_tracked_column fuel setup_fpath task_names min_max_err
    max_max_err rra_executable w setup path resdir rratool name ws pErr :
  py.files w !! setup_fpath = Some (py.XmlFile setup) →
  dataman.get_field setup "task_set_file" = Return (Some path) →
  dataman.get_field setup "results_directory" = Return (Some resdir) →
  etree.first (etree.findall "RRATool" setup) = Return rratool →
  etree.lookup_attrib "name" (etree.attrib rratool.2) = Return name →
  rra.task_weights_from_file (str.strip path) (Given task_names) w = (Return ws, w) →
  is_Some (py.files w !! os_path.join (os_path.join (os_path.dirname setup_fpath) "results")
                            (name +:+ "_pErr.sto")) →
  dataman.storage2numpy
    (os_path.join (os_path.join (os_path.dirname setup_fpath) "results")
                  (name +:+ "_pErr.sto")) w = (Return pErr, w) →
  Forall (fun colname => str.mem colname task_names = false) (np.dtype_names pErr) →
  rra.select_rra_task_weights fuel setup_fpath (Some task_names) None
    min_max_err max_max_err rra_executable w
  = (Raise UnboundLocalError, w).
Proof.
  intros Hfile Hpath Hres Htool Hname Hweights Hexists HpErr Hnone.
  unfold rra.select_rra_task_weights.
  rewrite (bind_run _ _ w setup w) by (unfold py.parse; rewrite Hfile; reflexivity).
  rewrite (bind_run _ _ w (str.strip path) w)
    by (unfold py.lift; rewrite Hpath; reflexivity).
  rewrite (bind_run _ _ w task_names w) by reflexivity.
  rewrite (bind_run _ _ w (str.strip resdir) w)
    by (unfold py.lift; rewrite Hres; reflexivity).
  rewrite (bind_run _ _ w rratool w) by (unfold py.lift; rewrite Htool; reflexivity).
  rewrite (bind_run _ _ w name w) by (unfold py.lift; rewrite Hname; reflexivity).
  assert (Hsame : (if negb (os_path.isabs (str.strip path)) then str.strip path
                   else os_path.join (os_path.dirname setup_fpath) (str.strip path))
                  = str.strip path).
  { unfold os_path.isabs, os_path.join.
    destruct (str.startswith (str.strip path) "/"); reflexivity. }
  rewrite Hsame.
  rewrite (bind_run _ _ w ws w Hweights).
  rewrite (bind_run _ _ w true w)
    by (unfold py.exists_; rewrite (bool_decide_eq_true_2 _ Hexists); reflexivity).
  rewrite (bind_run _ _ w tt w) by reflexivity.
  rewrite (bind_run _ _ w pErr w HpErr).
  apply bind_raise. unfold py.lift. f_equal. unfold rra.max_error.
  rewrite max_error_fold, (tracked_errors_none _ _ _ Hnone). reflexivity.
Qed.

End misspelt_names.

Lemma select_without_tracked_column_witness :
  rra.select_rra_task_weights 5 "setup.xml" (Some ["knee_angle_r"]) None 1 1.5 "rra"
    demo.ran
  = (Raise UnboundLocalError, demo.ran).
Proof.
  apply (select_without_tracked_column 5 "setup.xml" ["knee_angle_r"] 1 1.5 "rra"
           demo.ran demo.setup_doc " tasks.xml " "results"
           ([0%nat], etree.Element "RRATool" [("name", "rra")] None
              [demo.leaf "task_set_file" " tasks.xml ";
               demo.leaf "results_directory" "results"]) "rra" [5%float] demo.table).
  - reflexivity.
  - reflexivity.
  - reflexivity.
  - reflexivity.
  - reflexivity.
  - vm_compute. reflexivity.
  - vm_compute. eexists. reflexivity.
  - vm_compute. reflexivity.
  - repeat constructor.
Defined.
